(** * Quantum_Workshop: the notebook drivers, embedded and verified

    The repository is two Jupyter notebooks of client code around vendor
    libraries.  This development embeds

    - [task/cudaq_tutorial_04.ipynb]: parameter generation, the kernels the
      cells build, the partition of the parameter array with [np.split],
      the synchronous and asynchronous dispatch statements with their
      submission and collection loops, and the sequence of cells with the
      variables they share;
    - [task/Lab2 - PennyLane and cuQuantum.ipynb]: [square_loss] and
      [accuracy], the circuit of the variational classifier with its
      [cost], and the training cell.

    Python lists and the rows of a two-dimensional array are [list]s; an
    exception is a value of a sum type; the vendor runtime is a parameter
    of the driver, and so is the arithmetic of the labels and predictions,
    with Python's [int] and [float] (IEEE doubles) as its instance. *)

From Stdlib Require Import QArith Qabs Floats.
From stdpp Require Import base strings list gmap sets.

Set Default Proof Using "Type".

(** ** NumPy: [np.split] along axis 0 *)

Module Numpy.

(** The exceptions [np.split] raises. *)
Inductive error : Type :=
| ValueError
| ZeroDivisionError.

(** [ndarray.cumsum()] of a list of integers. *)
Fixpoint cumsum_from (acc : nat) (l : list nat) : list nat :=
  match l with
  | [] => []
  | x :: r => (acc + x) :: cumsum_from (acc + x) r
  end.

Definition cumsum (l : list nat) : list nat := cumsum_from 0 l.

(** [section_sizes = [0] + extras * [Neach_section+1]
                         + (Nsections-extras) * [Neach_section]] *)
Definition section_sizes (Ntotal Nsections : nat) : list nat :=
  let Neach_section := Ntotal / Nsections in
  let extras := Ntotal mod Nsections in
  [0] ++ replicate extras (Neach_section + 1)
      ++ replicate (Nsections - extras) Neach_section.

Section Arrays.
Context {A : Type}.

(** [ary[st:end]] for [0 <= st], [0 <= end]. *)
Definition slice (ary : list A) (st en : nat) : list A :=
  take (en - st) (drop st ary).

(** Modelled from the spec: [np.array_split] is NumPy's and not part of
    the repository; this is its integer-sections branch along axis 0:
    the division points are the running sum of the section sizes and
    section [i] is [ary[div_points[i]:div_points[i+1]]]. *)
Definition array_split (ary : list A) (Nsections : nat)
  : error + list (list A) :=
  let Ntotal := length ary in
  if decide (Nsections = 0) then inl ValueError
  else
    let div_points := cumsum (section_sizes Ntotal Nsections) in
    inr ((λ i, slice ary (div_points !!! i) (div_points !!! (i + 1)))
           <$> seq 0 Nsections).

(** Modelled from the spec: [np.split(ary, sections)] is NumPy's and not
    part of the repository; with an integer [sections] it raises
    [ValueError] unless [sections] divides the length of axis 0
    ([N % sections] itself raises for [sections = 0]) and otherwise is
    [array_split]. *)
Definition split (ary : list A) (sections : nat)
  : error + list (list A) :=
  let N := length ary in
  if decide (sections = 0) then inl ZeroDivisionError
  else if decide (N mod sections ≠ 0) then inl ValueError
  else array_split ary sections.

(** [np.concatenate] along axis 0. *)
Definition concatenate (arys : list (list A)) : list A := concat arys.

(** [ary.shape == (n, m)] for a two-dimensional array held as its rows. *)
Definition has_shape {B : Type} (ary : list (list B)) (n m : nat) : Prop :=
  length ary = n ∧ Forall (λ row, length row = m) ary.

#[export] Instance has_shape_dec {B : Type} (ary : list (list B)) (n m : nat) :
  Decision (has_shape ary n m).
Proof. unfold has_shape. apply _. Defined.

End Arrays.

End Numpy.

(** ** The CUDA Quantum notebook *)

Module Cudaq.

(** *** Kernels and observables built by the notebook *)

(** An operation recorded by the kernel builder: [rx p q] is
    [kernel.rx(params[p], qubits[q])]. *)
Inductive instruction : Type :=
| rx (p q : nat)
| ry (p q : nat)
| rz (p q : nat)
| cz (q1 q2 : nat).

(** What [cudaq.make_kernel(list)] returns and the builder calls extend:
    the qubits allocated and the operations in program order. *)
Record kernel : Type := Kernel { qalloc : nat; program : list instruction }.

Definition make_kernel : kernel := Kernel 0 [].

Definition k_qalloc (k : kernel) (n : nat) : kernel :=
  Kernel (qalloc k + n) (program k).

Definition k_apply (k : kernel) (g : instruction) : kernel :=
  Kernel (qalloc k) (program k ++ [g]).

(** The entries of [params] an operation reads. *)
Definition instruction_params (g : instruction) : list nat :=
  match g with
  | rx p _ | ry p _ | rz p _ => [p]
  | cz _ _ => []
  end.

(** The declared parameter count of a kernel taking one [list]: the
    number of entries [params[0]], ..., [params[n-1]] its operations
    index. *)
Definition param_count (k : kernel) : nat :=
  list_max (S <$> (program k ≫= instruction_params)).

(** Python's [l[start::2]]. *)
Fixpoint every_other {A : Type} (l : list A) : list A :=
  match l with
  | x :: _ :: r => x :: every_other r
  | x :: [] => [x]
  | [] => []
  end.

Definition slice_step2 {A : Type} (start : nat) (l : list A) : list A :=
  every_other (drop start l).

(** The rx/ry/rz/cz kernel of the 20-qubit and the 10-qubit cells. *)
Definition build_rxyz_kernel (n_qubits : nat) : kernel :=
  let kernel := make_kernel in
  let kernel := k_qalloc kernel n_qubits in
  let qubits_list := seq 0 n_qubits in
  let kernel :=
    foldl (λ k i, k_apply k (rx i i)) kernel (seq 0 n_qubits) in
  let kernel :=
    foldl (λ k i, k_apply k (ry (i + n_qubits) i)) kernel (seq 0 n_qubits) in
  let kernel :=
    foldl (λ k i, k_apply k (rz (i + n_qubits * 2) i)) kernel
          (seq 0 n_qubits) in
  foldl (λ k '(q1, q2), k_apply k (cz q1 q2)) kernel
        (zip (slice_step2 0 qubits_list) (slice_step2 1 qubits_list)).

(** [kernel1] and [kernel2]: one rx per qubit. *)
Definition build_rx_kernel (n_qubits : nat) : kernel :=
  let kernel := make_kernel in
  let kernel := k_qalloc kernel n_qubits in
  foldl (λ k i, k_apply k (rx i i)) kernel (seq 0 n_qubits).

(** Spin operators as the notebook writes them; a coefficient is the
    decimal literal of the source. *)
Inductive spin_op : Type :=
| spin_x (q : nat)
| spin_y (q : nat)
| spin_z (q : nat)
| spin_const (c : Q)
| spin_mul (a b : spin_op)
| spin_add (a b : spin_op)
| spin_sub (a b : spin_op).

Definition hamiltonian_expr : spin_op :=
  spin_sub
    (spin_add
       (spin_sub
          (spin_sub (spin_const 5.907)
             (spin_mul (spin_mul (spin_const 2.1433) (spin_x 0)) (spin_x 1)))
          (spin_mul (spin_mul (spin_const 2.1433) (spin_y 0)) (spin_y 1)))
       (spin_mul (spin_const 0.21829) (spin_z 0)))
    (spin_mul (spin_const 6.125) (spin_z 1)).

(** *** The vendor libraries the notebook calls

    NumPy's random generators and the CUDA Quantum runtime are not part
    of the repository.  The driver is written against this interface: a
    seeded generator is a state machine, and a runtime call takes the
    runtime state to a result or an exception and a new state. *)
Class Vendor : Type := {
  float64 : Type;
  BitGenerator : Type;
  (** [np.random.default_rng(seed)] *)
  default_rng : Z → BitGenerator;
  (** one draw of [Generator.uniform(low, high)] *)
  uniform : Z → Z → BitGenerator → float64 * BitGenerator;
  RandomState : Type;
  (** the state [np.random.seed(seed)] installs in the legacy global
      generator *)
  legacy_seed : Z → RandomState;
  Runtime : Type;
  RuntimeError : Type;
  ObserveResult : Type;
  AsyncObserveResult : Type;
  set_target : string → Runtime → (RuntimeError + unit) * Runtime;
  observe :
    kernel → spin_op → list float64 → Runtime →
    (RuntimeError + ObserveResult) * Runtime;
  observe_async :
    kernel → spin_op → list float64 → nat → Runtime →
    (RuntimeError + AsyncObserveResult) * Runtime;
  (** [res.get()] *)
  get : AsyncObserveResult → Runtime → (RuntimeError + ObserveResult) * Runtime;
  expectation_z : ObserveResult → Runtime → (RuntimeError + float64) * Runtime;
}.

Section Driver.
Context `{V : Vendor}.

(** [Generator.uniform(low, high, size=(n, m))]: the array is filled in
    row-major order from successive draws. *)
Fixpoint draw_row (low high : Z) (m : nat) (g : BitGenerator)
  : list float64 * BitGenerator :=
  match m with
  | 0 => ([], g)
  | S m' =>
      let '(x, g1) := uniform low high g in
      let '(xs, g2) := draw_row low high m' g1 in
      (x :: xs, g2)
  end.

Fixpoint draw_rows (low high : Z) (n m : nat) (g : BitGenerator)
  : list (list float64) * BitGenerator :=
  match n with
  | 0 => ([], g)
  | S n' =>
      let '(row, g1) := draw_row low high m g in
      let '(rows, g2) := draw_rows low high n' m g1 in
      (row :: rows, g2)
  end.

Definition rng_uniform (g : BitGenerator) (low high : Z) (size : nat * nat)
  : list (list float64) :=
  (draw_rows low high size.1 size.2 g).1.

(** *** Python values, exceptions and the notebook state *)

Inductive value : Type :=
| VInt (n : nat)
| VSpin (o : spin_op)
| VKernel (k : kernel)
| VArray (rows : list (list float64))
| VArrays (arys : list (list (list float64)))
| VResults (l : list ObserveResult)
| VHandles (l : list AsyncObserveResult)
| VFloats (l : list float64).

Inductive exn : Type :=
| NameError (name : string)
| TypeError
| IndexError
| NumpyError (e : Numpy.error)
| LibraryError (e : RuntimeError).

(** A call into the runtime, with what it returned. *)
Inductive event : Type :=
| EvSetTarget (name : string) (ret : RuntimeError + unit)
| EvObserve (k : kernel) (o : spin_op) (args : list float64)
            (ret : RuntimeError + ObserveResult)
| EvObserveAsync (k : kernel) (o : spin_op) (args : list float64)
                 (qpu_id : nat) (ret : RuntimeError + AsyncObserveResult)
| EvGet (res : AsyncObserveResult) (ret : RuntimeError + ObserveResult)
| EvExpectationZ (r : ObserveResult) (ret : RuntimeError + float64).

(** The interpreter's globals, the legacy global generator, the runtime
    and the history of runtime calls. *)
Record state : Type := State {
  globals : gmap string value;
  np_random_state : option RandomState;
  runtime : Runtime;
  trace : list event;
}.

(** A statement or expression: it ends with a value or an exception,
    in the state reached at that moment. *)
Definition Py (A : Type) : Type := state → (exn + A) * state.

Definition ret {A : Type} (a : A) : Py A := λ s, (inr a, s).

Definition raise {A : Type} (e : exn) : Py A := λ s, (inl e, s).

Definition bind {A B : Type} (c : Py A) (f : A → Py B) : Py B :=
  λ s, match c s with
       | (inr a, s') => f a s'
       | (inl e, s') => (inl e, s')
       end.

#[export] Instance py_ret : MRet Py := @ret.
#[export] Instance py_bind : MBind Py := λ A B f c, bind c f.

(** Evaluating a global name. *)
Definition read (name : string) : Py value :=
  λ s, match globals s !! name with
       | Some v => (inr v, s)
       | None => (inl (NameError name), s)
       end.

(** [name = v] *)
Definition assign (name : string) (v : value) : Py unit :=
  λ s, (inr tt,
        State (<[name := v]> (globals s)) (np_random_state s) (runtime s)
              (trace s)).

Definition as_int (v : value) : Py nat :=
  match v with VInt n => ret n | _ => raise TypeError end.
Definition as_spin (v : value) : Py spin_op :=
  match v with VSpin o => ret o | _ => raise TypeError end.
Definition as_kernel (v : value) : Py kernel :=
  match v with VKernel k => ret k | _ => raise TypeError end.
Definition as_array (v : value) : Py (list (list float64)) :=
  match v with VArray a => ret a | _ => raise TypeError end.
Definition as_arrays (v : value) : Py (list (list (list float64))) :=
  match v with VArrays a => ret a | _ => raise TypeError end.
Definition as_handles (v : value) : Py (list AsyncObserveResult) :=
  match v with VHandles l => ret l | _ => raise TypeError end.
Definition as_floats (v : value) : Py (list float64) :=
  match v with VFloats l => ret l | _ => raise TypeError end.

Definition read_int (name : string) : Py nat := v ← read name; as_int v.
Definition read_spin (name : string) : Py spin_op := v ← read name; as_spin v.
Definition read_kernel (name : string) : Py kernel :=
  v ← read name; as_kernel v.
Definition read_array (name : string) : Py (list (list float64)) :=
  v ← read name; as_array v.
Definition read_arrays (name : string) : Py (list (list (list float64))) :=
  v ← read name; as_arrays v.
Definition read_handles (name : string) : Py (list AsyncObserveResult) :=
  v ← read name; as_handles v.
Definition read_floats (name : string) : Py (list float64) :=
  v ← read name; as_floats v.

(** [l[i]] for [0 <= i]. *)
Definition index {A : Type} (l : list A) (i : nat) : Py A :=
  match l !! i with
  | Some x => ret x
  | None => raise IndexError
  end.

(** [for x in l: body(x)], left at the first exception. *)
Fixpoint for_ {X : Type} (l : list X) (body : X → Py unit) : Py unit :=
  match l with
  | [] => ret tt
  | x :: r => body x;; for_ r body
  end.

(** [[f(x) for x in l]]: the list is built first and bound afterwards. *)
Fixpoint comprehension {X Y : Type} (l : list X) (f : X → Py Y)
  : Py (list Y) :=
  match l with
  | [] => ret []
  | x :: r => y ← f x; ys ← comprehension r f; ret (y :: ys)
  end.

Definition range (n : nat) : list nat := seq 0 n.

(** A runtime call: the runtime moves on, the call and what it returned are
    recorded, and an error of the runtime is raised as an exception. *)
Definition call {A : Type}
    (f : Runtime → (RuntimeError + A) * Runtime)
    (ev : RuntimeError + A → event) : Py A :=
  λ s, let '(r, w) := f (runtime s) in
       let s' := State (globals s) (np_random_state s) w (trace s ++ [ev r]) in
       match r with
       | inr a => (inr a, s')
       | inl e => (inl (LibraryError e), s')
       end.

Definition cudaq_set_target (name : string) : Py unit :=
  call (set_target name) (EvSetTarget name).
Definition cudaq_observe (k : kernel) (o : spin_op) (args : list float64)
  : Py ObserveResult :=
  call (observe k o args) (EvObserve k o args).
Definition cudaq_observe_async (k : kernel) (o : spin_op)
    (args : list float64) (qpu_id : nat) : Py AsyncObserveResult :=
  call (observe_async k o args qpu_id) (EvObserveAsync k o args qpu_id).
Definition res_get (res : AsyncObserveResult) : Py ObserveResult :=
  call (get res) (EvGet res).
Definition res_expectation_z (r : ObserveResult) : Py float64 :=
  call (expectation_z r) (EvExpectationZ r).

(** [np.random.seed(seed)] *)
Definition np_random_seed (seed : Z) : Py unit :=
  λ s, (inr tt,
        State (globals s) (Some (legacy_seed seed)) (runtime s) (trace s)).

(** [np.split(ary, sections)] *)
Definition np_split (ary : list (list float64)) (sections : nat)
  : Py (list (list (list float64))) :=
  match Numpy.split ary sections with
  | inr arys => ret arys
  | inl e => raise (NumpyError e)
  end.

(** [name.append(x)] on a list of handles, of floats. *)
Definition append_handle (name : string) (x : AsyncObserveResult) : Py unit :=
  l ← read_handles name; assign name (VHandles (l ++ [x])).
Definition append_float (name : string) (x : float64) : Py unit :=
  l ← read_floats name; assign name (VFloats (l ++ [x])).

(** *** The cells *)

(** [cudaq.set_target('nvidia')] *)
Definition cell_setup : Py unit := cudaq_set_target "nvidia".

(** [parameters = np.random.default_rng(13).uniform(low=0, high=1,
                    size = (n_samples,n_parameters))] *)
Definition gen_parameters : Py unit :=
  n_samples ← read_int "n_samples";
  n_parameters ← read_int "n_parameters";
  assign "parameters"
    (VArray (rng_uniform (default_rng 13) 0 1 (n_samples, n_parameters))).

(** The kernel statements of the rx/ry/rz/cz cells. *)
Definition gen_rxyz_kernel (name : string) : Py unit :=
  n_qubits ← read_int "n_qubits";
  assign name (VKernel (build_rxyz_kernel n_qubits)).

Definition gen_rx_kernel (name : string) : Py unit :=
  n_qubits ← read_int "n_qubits";
  assign name (VKernel (build_rx_kernel n_qubits)).

(** "Scaling qubit count to go beyond single GPU memory requirements":
    the statements up to the kernel. *)
Definition scaling_setup : Py unit :=
  assign "n_qubits" (VInt 20);;
  assign "n_samples" (VInt 1000);;
  assign "h" (VSpin (spin_z 0));;
  n_qubits ← read_int "n_qubits";
  assign "n_parameters" (VInt (n_qubits * 3));;
  gen_parameters;;
  np_random_seed 1;;
  gen_rxyz_kernel "kernel".

(** [cudaq.observe(kernel, h, parameters[i])] *)
Definition observe_row (i : nat) : Py ObserveResult :=
  kernel ← read_kernel "kernel";
  h ← read_spin "h";
  parameters ← read_array "parameters";
  row ← index parameters i;
  cudaq_observe kernel h row.

(** [[cudaq.observe(kernel, h, parameters[i])
      for i in range(parameters.shape[0])]] *)
Definition observe_all : Py (list ObserveResult) :=
  parameters ← read_array "parameters";
  comprehension (range (length parameters)) observe_row.

Definition cell_scaling : Py unit :=
  scaling_setup;;
  exp_vals ← observe_all;
  assign "exp_vals" (VResults exp_vals).

(** "Asynchronous data collection via batching x_train", first cell:
    [print(parameters.shape)]; [xi = np.split(parameters, 4)];
    [print(len(xi))]; [print(xi[0].shape)].  What is printed is not part
    of the state; the names are evaluated all the same. *)
Definition cell_split : Py unit :=
  _ ← read_array "parameters";
  parameters ← read_array "parameters";
  xi ← np_split parameters 4;
  assign "xi" (VArrays xi);;
  _ ← read_arrays "xi";
  xi ← read_arrays "xi";
  _ ← index xi 0;
  ret tt.

(** The statement of the inner submission loop, for batch [i] and row [j]:
    [asyncresults.append(cudaq.observe_async(kernel, h, xi[i][j,:],
                                             qpu_id = i))] *)
Definition submit_job (i j : nat) : Py unit :=
  kernel ← read_kernel "kernel";
  h ← read_spin "h";
  xi ← read_arrays "xi";
  xi_i ← index xi i;
  row ← index xi_i j;
  res ← cudaq_observe_async kernel h row i;
  append_handle "asyncresults" res.

(** [for j in range(xi[i].shape[0]): ...] *)
Definition submit_batch (i : nat) : Py unit :=
  xi ← read_arrays "xi";
  xi_i ← index xi i;
  for_ (range (length xi_i)) (submit_job i).

(** [for i in range(len(xi)): ...] *)
Definition submit_loop : Py unit :=
  xi ← read_arrays "xi";
  for_ (range (length xi)) submit_batch.

(** [expvals.append(res.get().expectation_z())] *)
Definition collect_one (res : AsyncObserveResult) : Py unit :=
  r ← res_get res;
  v ← res_expectation_z r;
  append_float "expvals" v.

(** [for res in asyncresults: ...] *)
Definition collect_loop : Py unit :=
  asyncresults ← read_handles "asyncresults";
  for_ asyncresults collect_one.

(** "Asynchronous data collection via batching x_train", second cell.  The
    first dispatch cell under "Different kernels being executed at the same
    time" has the same statements and is this definition too. *)
Definition cell_async : Py unit :=
  assign "asyncresults" (VHandles []);;
  submit_loop;;
  assign "expvals" (VFloats []);;
  collect_loop.

(** "Asynchronous data collection via batching hamiltonian terms" *)
Definition cell_hamiltonian : Py unit :=
  assign "n_qubits" (VInt 10);;
  assign "n_samples" (VInt 1000);;
  assign "hamiltonian" (VSpin hamiltonian_expr);;
  n_qubits ← read_int "n_qubits";
  assign "n_parameters" (VInt (n_qubits * 3));;
  gen_parameters;;
  np_random_seed 1;;
  gen_rxyz_kernel "kernel".

(** "Different kernels being executed at the same time", definitions *)
Definition cell_kernels : Py unit :=
  cudaq_set_target "nvidia-mgpu";;
  assign "n_qubits" (VInt 10);;
  assign "n_samples" (VInt 500);;
  assign "h" (VSpin (spin_z 0));;
  n_qubits ← read_int "n_qubits";
  assign "n_parameters" (VInt n_qubits);;
  gen_parameters;;
  np_random_seed 1;;
  gen_rx_kernel "kernel1";;
  gen_rx_kernel "kernel2".

(** [cudaq.observe_async(k, h, parameters[i], qpu_id = q)] for the kernel
    bound to [kname] *)
Definition observe_async_row (kname : string) (qpu_id : nat) (i : nat)
  : Py AsyncObserveResult :=
  k ← read_kernel kname;
  h ← read_spin "h";
  parameters ← read_array "parameters";
  row ← index parameters i;
  cudaq_observe_async k h row qpu_id.

(** [[cudaq.observe_async(k, h, parameters[i], qpu_id = q)
      for i in range(parameters.shape[0])]] *)
Definition observe_async_all (kname : string) (qpu_id : nat)
  : Py (list AsyncObserveResult) :=
  parameters ← read_array "parameters";
  comprehension (range (length parameters)) (observe_async_row kname qpu_id).

(** "Different kernels being executed at the same time", dispatch *)
Definition cell_two_kernels : Py unit :=
  exp_vals1 ← observe_async_all "kernel1" 0;
  assign "exp_vals1" (VHandles exp_vals1);;
  exp_vals2 ← observe_async_all "kernel2" 1;
  assign "exp_vals2" (VHandles exp_vals2).

(** The code cells in notebook order, up to the tensor-network section; a
    cell is run when the cell before it has ended without an exception. *)
Definition notebook : list (Py unit) :=
  [cell_setup; cell_scaling; cell_split; cell_async; cell_hamiltonian;
   cell_kernels; cell_async; cell_two_kernels].

Definition run_all (cells : list (Py unit)) : Py unit :=
  for_ cells (λ c, c).

(** A fresh interpreter on a runtime [w]. *)
Definition fresh (w : Runtime) : state := State ∅ None w [].

(** *** Reading a history of runtime calls *)

(** What a dispatch call was given: kernel, parameter vector and, for an
    asynchronous call, the device identifier. *)
Definition dispatch_of (ev : event)
  : option (kernel * list float64 * option nat) :=
  match ev with
  | EvObserve k _ args _ => Some (k, args, None)
  | EvObserveAsync k _ args qpu_id _ => Some (k, args, Some qpu_id)
  | _ => None
  end.

(** The asynchronous jobs of a history: parameter vector and device. *)
Definition job_of (ev : event) : option (list float64 * nat) :=
  match ev with
  | EvObserveAsync _ _ args qpu_id _ => Some (args, qpu_id)
  | _ => None
  end.

Definition jobs_of (tr : list event) : list (list float64 * nat) :=
  omap job_of tr.

(** The handles the asynchronous calls of a history returned. *)
Definition handle_of (ev : event) : option AsyncObserveResult :=
  match ev with
  | EvObserveAsync _ _ _ _ (inr res) => Some res
  | _ => None
  end.

Definition handles_of (tr : list event) : list AsyncObserveResult :=
  omap handle_of tr.

(** The handles a history blocks on, in order. *)
Definition blocked_of (ev : event) : option AsyncObserveResult :=
  match ev with
  | EvGet res _ => Some res
  | _ => None
  end.

Definition blocked_on (tr : list event) : list AsyncObserveResult :=
  omap blocked_of tr.

(** Whether a call raised. *)
Definition failed (ev : event) : bool :=
  match ev with
  | EvSetTarget _ (inl _) | EvObserve _ _ _ (inl _)
  | EvObserveAsync _ _ _ _ (inl _) | EvGet _ (inl _)
  | EvExpectationZ _ (inl _) => true
  | _ => false
  end.

(** The jobs the submission loop is to create from [xi]: the rows of batch
    [i] in order, each with the batch index. *)
Definition jobs (xi : list (list (list float64)))
  : list (list float64 * nat) :=
  concat (imap (λ i xi_i, (λ row, (row, i)) <$> xi_i) xi).

(** The expectation values a history read. *)
Definition value_of (ev : event) : option float64 :=
  match ev with
  | EvExpectationZ _ (inr v) => Some v
  | _ => None
  end.

Definition values_of (tr : list event) : list float64 := omap value_of tr.

(** *** The two loops as runs of the runtime

    What the submission loop does to the runtime when it is given the jobs
    [js] for kernel [k] and observable [o]: the calls in order up to the
    first that raises, the error if one did, the runtime reached. *)
Fixpoint dispatch_run (k : kernel) (o : spin_op)
    (js : list (list float64 * nat)) (w : Runtime)
  : list event * option RuntimeError * Runtime :=
  match js with
  | [] => ([], None, w)
  | (row, i) :: js' =>
      match observe_async k o row i w with
      | (inr res, w1) =>
          let '(evs, err, w2) := dispatch_run k o js' w1 in
          (EvObserveAsync k o row i (inr res) :: evs, err, w2)
      | (inl e, w1) => ([EvObserveAsync k o row i (inl e)], Some e, w1)
      end
  end.

(** What the collection loop does to the runtime for the handles [rs]. *)
Fixpoint collect_run (rs : list AsyncObserveResult) (w : Runtime)
  : list event * option RuntimeError * Runtime :=
  match rs with
  | [] => ([], None, w)
  | res :: rs' =>
      match get res w with
      | (inr r, w1) =>
          match expectation_z r w1 with
          | (inr v, w2) =>
              let '(evs, err, w3) := collect_run rs' w2 in
              (EvGet res (inr r) :: EvExpectationZ r (inr v) :: evs, err, w3)
          | (inl e, w2) =>
              ([EvGet res (inr r); EvExpectationZ r (inl e)], Some e, w2)
          end
      | (inl e, w1) => ([EvGet res (inl e)], Some e, w1)
      end
  end.

(** How a statement ends after such a run. *)
Definition outcome (err : option RuntimeError) : exn + unit :=
  match err with
  | None => inr tt
  | Some e => inl (LibraryError e)
  end.

(** Shape consistency of a dispatch call: the parameter vector passed has
    as many entries as the kernel dispatched declares. *)
Definition consistent_event (ev : event) : Prop :=
  match dispatch_of ev with
  | Some (k, args, _) => length args = param_count k
  | None => True
  end.

#[export] Instance consistent_event_dec ev : Decision (consistent_event ev).
Proof.
  unfold consistent_event. destruct (dispatch_of ev) as [[[k args] q]|];
    apply _.
Defined.

Definition dispatch_consistent (tr : list event) : Prop :=
  Forall consistent_event tr.

(** The parameter array bound in [s] has shape [(n_samples, f n_qubits)]. *)
Definition array_shape_is (s : state) (f : nat → nat) : Prop :=
  ∃ p ns nq,
    globals s !! "parameters" = Some (VArray p)
    ∧ globals s !! "n_samples" = Some (VInt ns)
    ∧ globals s !! "n_qubits" = Some (VInt nq)
    ∧ Numpy.has_shape p ns (f nq).

(** The rows of the parameter array bound in [s] have the declared
    parameter count of the kernel bound to [kname]. *)
Definition kernel_fits (s : state) (kname : string) : Prop :=
  ∃ p k ns,
    globals s !! "parameters" = Some (VArray p)
    ∧ globals s !! kname = Some (VKernel k)
    ∧ globals s !! "n_samples" = Some (VInt ns)
    ∧ Numpy.has_shape p ns (param_count k).

(** Shape consistency as a property of the state a run has reached: the
    parameter array is [(n_samples, 3*n_qubits)] and every dispatch call
    made so far was shape consistent. *)
Definition shape_consistency (s : state) : Prop :=
  array_shape_is s (λ nq, 3 * nq) ∧ dispatch_consistent (trace s).

(** Whether a statement ended without an exception. *)
Definition completed {A : Type} (r : exn + A) : bool :=
  match r with
  | inr _ => true
  | inl _ => false
  end.

(** The history of dispatching the jobs [js] when call after call returns
    the handles [hs]. *)
Definition ok_dispatch (k : kernel) (o : spin_op) (j : list float64 * nat)
    (res : AsyncObserveResult) : event :=
  EvObserveAsync k o j.1 j.2 (inr res).

Definition ok_dispatches (k : kernel) (o : spin_op)
    (js : list (list float64 * nat)) (hs : list AsyncObserveResult)
  : list event :=
  zip_with (ok_dispatch k o) js hs.

(** The history of blocking on handle after handle: [(res, r, v)] stands for
    [res.get()] returning [r] and [r.expectation_z()] returning [v]. *)
Definition resolve_events
    (l : list (AsyncObserveResult * ObserveResult * float64)) : list event :=
  l ≫= λ '(res, r, v), [EvGet res (inr r); EvExpectationZ r (inr v)].

(** A runtime none of whose calls raises. *)
Definition never_raises : Prop :=
  (∀ name w, ∃ w', set_target name w = (inr tt, w'))
  ∧ (∀ k o args w, ∃ r w', observe k o args w = (inr r, w'))
  ∧ (∀ k o args q w, ∃ res w', observe_async k o args q w = (inr res, w'))
  ∧ (∀ res w, ∃ r w', get res w = (inr r, w'))
  ∧ (∀ r w, ∃ v w', expectation_z r w = (inr v, w')).

(** *** States before and after the cells *)

Implicit Types (s : state) (k : kernel) (o : spin_op).
Implicit Types (xi : list (list (list float64))).
Implicit Types (hs : list AsyncObserveResult) (vs : list float64).

(** The state after the submission loop has run [evs] from [s], where
    [asyncresults] held [hs]. *)
Definition after_dispatch s hs
    (run : list event * option RuntimeError * Runtime) : (exn + unit) * state :=
  let '(evs, err, w) := run in
  (outcome err,
   State (<["asyncresults" := VHandles (hs ++ handles_of evs)]> (globals s))
         (np_random_state s) w (trace s ++ evs)).

(** The state after the collection loop has run [evs] from [s], where
    [expvals] held [vs]. *)
Definition after_collect s vs
    (run : list event * option RuntimeError * Runtime) : (exn + unit) * state :=
  let '(evs, err, w) := run in
  (outcome err,
   State (<["expvals" := VFloats (vs ++ values_of evs)]> (globals s))
         (np_random_state s) w (trace s ++ evs)).

(** The names the submission loop reads. *)
Definition submit_env s k o xi : Prop :=
  globals s !! "kernel" = Some (VKernel k)
  ∧ globals s !! "h" = Some (VSpin o)
  ∧ globals s !! "xi" = Some (VArrays xi).

(** The jobs of the batches [l] when the first of them has index [a]. *)
Definition jobs_from (a : nat) (l : list (list (list float64)))
  : list (list float64 * nat) :=
  concat (imap (λ i xi_i, (λ row, (row, a + i)) <$> xi_i) l).

(** What the asynchronous cell does, in terms of the two runs: it resets
    [asyncresults], dispatches [jobs xi]; if no dispatch raised it resets
    [expvals] and blocks on the handles returned, in that order. *)
Definition async_result s k o xi : (exn + unit) * state :=
  let '(evs1, err1, w1) := dispatch_run k o (jobs xi) (runtime s) in
  let g1 := <["asyncresults" := VHandles (handles_of evs1)]> (globals s) in
  match err1 with
  | Some e =>
      (inl (LibraryError e), State g1 (np_random_state s) w1 (trace s ++ evs1))
  | None =>
      let '(evs2, err2, w2) := collect_run (handles_of evs1) w1 in
      (outcome err2,
       State (<["expvals" := VFloats (values_of evs2)]> g1) (np_random_state s)
             w2 (trace s ++ evs1 ++ evs2))
  end.

(** The array the notebook's generator call returns. *)
Definition seeded_parameters (n_samples n_parameters : nat)
  : list (list float64) :=
  rng_uniform (default_rng 13) 0 1 (n_samples, n_parameters).

(** The globals after the statements of the 20-qubit cell up to the kernel. *)
Definition scaling_globals (g : gmap string value) : gmap string value :=
  <["kernel" := VKernel (build_rxyz_kernel 20)]>
    (<["parameters" := VArray (seeded_parameters 1000 60)]>
       (<["n_parameters" := VInt 60]>
          (<["h" := VSpin (spin_z 0)]>
             (<["n_samples" := VInt 1000]>
                (<["n_qubits" := VInt 20]> g))))).

(** The globals after the 10-qubit cell. *)
Definition hamiltonian_globals (g : gmap string value) : gmap string value :=
  <["kernel" := VKernel (build_rxyz_kernel 10)]>
    (<["parameters" := VArray (seeded_parameters 1000 30)]>
       (<["n_parameters" := VInt 30]>
          (<["hamiltonian" := VSpin hamiltonian_expr]>
             (<["n_samples" := VInt 1000]>
                (<["n_qubits" := VInt 10]> g))))).

(** The globals after the cell that defines [kernel1] and [kernel2]. *)
Definition kernels_globals (g : gmap string value) : gmap string value :=
  <["kernel2" := VKernel (build_rx_kernel 10)]>
    (<["kernel1" := VKernel (build_rx_kernel 10)]>
       (<["parameters" := VArray (seeded_parameters 500 10)]>
          (<["n_parameters" := VInt 10]>
             (<["h" := VSpin (spin_z 0)]>
                (<["n_samples" := VInt 500]>
                   (<["n_qubits" := VInt 10]> g)))))).

(** [emits P c s]: run from [s], the statement [c] leaves the globals as
    they are and every runtime call it makes satisfies [P]. *)
Definition emits {A : Type} (P : event → Prop) (c : Py A) s : Prop :=
  globals (c s).2 = globals s
  ∧ ∃ evs, trace (c s).2 = trace s ++ evs ∧ Forall P evs.

(** The names a dispatch over the rows of [parameters] reads. *)
Definition rows_env (kname : string) (g : gmap string value)
    (k : kernel) (p : list (list float64)) : Prop :=
  (∃ o, g !! "h" = Some (VSpin o))
  ∧ g !! kname = Some (VKernel k)
  ∧ g !! "parameters" = Some (VArray p)
  ∧ Forall (λ row, length row = param_count k) p.

(** What the later cells rely on: the globals after the 20-qubit cell and
    after the cell that builds [kernel1] and [kernel2]. *)
Definition scaled (m : gmap string value) : Prop :=
  rows_env "kernel" m (build_rxyz_kernel 20) (seeded_parameters 1000 60)
  ∧ m !! "h" = Some (VSpin (spin_z 0)).

Definition two_kernels (m : gmap string value) : Prop :=
  rows_env "kernel1" m (build_rx_kernel 10) (seeded_parameters 500 10)
  ∧ rows_env "kernel2" m (build_rx_kernel 10) (seeded_parameters 500 10)
  ∧ m !! "n_samples" = Some (VInt 500)
  ∧ m !! "n_qubits" = Some (VInt 10).

(** The last statement of the 20-qubit cell:
    [exp_vals = [cudaq.observe(kernel, h, parameters[i])
                 for i in range(parameters.shape[0])]] *)
Definition observe_statement : Py unit :=
  exp_vals ← observe_all;
  assign "exp_vals" (VResults exp_vals).

(** The history of observing the rows [rows] one after the other when call
    after call returns the results [rs]. *)
Definition ok_observe k o (row : list float64) (r : ObserveResult) : event :=
  EvObserve k o row (inr r).

Definition ok_observes k o (rows : list (list float64))
    (rs : list ObserveResult) : list event :=
  zip_with (ok_observe k o) rows rs.

(** The observable a dispatch call was given. *)
Definition observable_of (ev : event) : option spin_op :=
  match ev with
  | EvObserve _ o _ _ | EvObserveAsync _ o _ _ _ => Some o
  | _ => None
  end.

(** The jobs of dispatching every row of [p] to device [q]. *)
Definition jobs_on (q : nat) (p : list (list float64))
  : list (list float64 * nat) :=
  (λ row, (row, q)) <$> p.

(** The names a dispatch of the rows of [parameters] with the kernel bound
    to [kname] reads. *)
Definition dispatch_env (kname : string) (m : gmap string value) k o
    (p : list (list float64)) : Prop :=
  m !! kname = Some (VKernel k)
  ∧ m !! "h" = Some (VSpin o)
  ∧ m !! "parameters" = Some (VArray p).

(** [writes names c]: whatever state [c] is run from and however it ends,
    it leaves every global outside [names] as it was. *)
Definition writes {A : Type} (names : list string) (c : Py A) : Prop :=
  ∀ s name, name ∉ names → globals (c s).2 !! name = globals s !! name.

(** The variables of the notebook that hold its data, kernels, observables
    and results.  The cells bind other names too, the targets of their
    loops and the temporaries of kernel construction ([params], [qubits],
    [qubits_list]); no cell reads one of those from another cell. *)
Definition shared_names : list string :=
  ["n_qubits"; "n_samples"; "h"; "hamiltonian"; "n_parameters";
   "parameters"; "kernel"; "kernel1"; "kernel2"; "exp_vals"; "xi";
   "asyncresults"; "expvals"; "exp_vals1"; "exp_vals2"].

(** [rebinds names c]: of the shared variables, [c] leaves all but those
    in [names] bound as they were, however it ends. *)
Definition rebinds {A : Type} (names : list string) (c : Py A) : Prop :=
  ∀ s name, name ∈ shared_names → name ∉ names →
            globals (c s).2 !! name = globals s !! name.

(** A dispatch call that was given [spin.z(0)], or a call that takes no
    observable. *)
Definition observes_z0 (ev : event) : Prop :=
  match observable_of ev with
  | Some o => o = spin_z 0
  | None => True
  end.

(** Run from globals satisfying [Pre], the cell makes only runtime calls
    satisfying [P] and, when it ends without an exception, leaves globals
    satisfying [Post]. *)
Definition cell_spec (P : event → Prop)
    (Pre Post : gmap string value → Prop) (c : Py unit) : Prop :=
  ∀ s, Pre (globals s) →
    ∃ evs, trace (c s).2 = trace s ++ evs
           ∧ Forall P evs
           ∧ (completed (c s).1 = true → Post (globals (c s).2)).

(** What the cells after the split rely on: [h] is [spin.z(0)], and
    [kernel] and [xi] are bound. *)
Definition split_done (m : gmap string value) : Prop :=
  m !! "h" = Some (VSpin (spin_z 0))
  ∧ (∃ k, m !! "kernel" = Some (VKernel k))
  ∧ (∃ xi, m !! "xi" = Some (VArrays xi)).

Definition hamiltonian_done (m : gmap string value) : Prop :=
  split_done m ∧ m !! "hamiltonian" = Some (VSpin hamiltonian_expr).

Definition kernels_done (m : gmap string value) : Prop :=
  hamiltonian_done m
  ∧ ∃ k1 k2 p,
      m !! "kernel1" = Some (VKernel k1)
      ∧ m !! "kernel2" = Some (VKernel k2)
      ∧ m !! "parameters" = Some (VArray p).

(** The runtime error a statement ended with, if it ended with one. *)
Definition error_of {A : Type} (r : exn + A) : option RuntimeError :=
  match r with
  | inl (LibraryError e) => Some e
  | _ => None
  end.

End Driver.

(** The qubits an operation acts on. *)
Definition instruction_qubits (g : instruction) : list nat :=
  match g with
  | rx _ q | ry _ q | rz _ q => [q]
  | cz q1 q2 => [q1; q2]
  end.

(** The pair of qubits of an entangling operation. *)
Definition cz_pair (g : instruction) : option (nat * nat) :=
  match g with
  | cz q1 q2 => Some (q1, q2)
  | _ => None
  end.

Definition cz_pairs (k : kernel) : list (nat * nat) := omap cz_pair (program k).

#[global] Arguments rng_uniform : simpl never.
#[global] Arguments build_rxyz_kernel : simpl never.
#[global] Arguments build_rx_kernel : simpl never.

End Cudaq.

(** ** A reference vendor to run the driver on

    A linear congruential generator for the draws, and a runtime with a
    fixed number of devices: a dispatch to a device it does not have is an
    error, a handle is the index of its job, and the expectation value of a
    job is the first entry of its parameter vector. *)

Module Sim.
Import Cudaq.

Inductive sim_error : Type :=
| InvalidQpu (qpu_id : nat)
| UnknownHandle (res : nat).

Record sim_runtime : Type := SimRuntime {
  devices : nat;
  target : string;
  submitted : list Q;
}.

Definition lcg_next (g : Z) : Z :=
  Z.land (g * 6364136223846793005 + 1442695040888963407) 18446744073709551615.

Definition lcg_uniform (low high : Z) (g : Z) : Q * Z :=
  let g' := lcg_next g in
  ((inject_Z low + (inject_Z high - inject_Z low) * (g' # 18446744073709551616))%Q, g').

Definition sim_value (args : list Q) : Q := default 0%Q (head args).

Definition sim_observe_async (k : kernel) (o : spin_op) (args : list Q)
    (qpu_id : nat) (w : sim_runtime) : (sim_error + nat) * sim_runtime :=
  if qpu_id <? devices w
  then (inr (length (submitted w)),
        SimRuntime (devices w) (target w) (submitted w ++ [sim_value args]))
  else (inl (InvalidQpu qpu_id), w).

Definition sim_get (res : nat) (w : sim_runtime) : (sim_error + Q) * sim_runtime :=
  match submitted w !! res with
  | Some v => (inr v, w)
  | None => (inl (UnknownHandle res), w)
  end.

#[export] Instance sim : Vendor := {|
  float64 := Q;
  BitGenerator := Z;
  default_rng := λ seed, seed;
  uniform := lcg_uniform;
  RandomState := Z;
  legacy_seed := λ seed, seed;
  Runtime := sim_runtime;
  RuntimeError := sim_error;
  ObserveResult := Q;
  AsyncObserveResult := nat;
  set_target := λ name w, (inr tt, SimRuntime (devices w) name (submitted w));
  observe := λ k o args w, (inr (sim_value args), w);
  observe_async := sim_observe_async;
  get := sim_get;
  expectation_z := λ r w, (inr r, w);
|}.

(** The same generator in front of a runtime that accepts every call: it
    has no error to raise, counts the jobs it is given, and reads [0] as
    the expectation value of every result. *)
Definition ideal : Vendor := {|
  float64 := Q;
  BitGenerator := Z;
  default_rng := λ seed, seed;
  uniform := lcg_uniform;
  RandomState := Z;
  legacy_seed := λ seed, seed;
  Runtime := nat;
  RuntimeError := Empty_set;
  ObserveResult := unit;
  AsyncObserveResult := nat;
  set_target := λ name w, (inr tt, w);
  observe := λ k o args w, (inr tt, w);
  observe_async := λ k o args q w, (inr w, S w);
  get := λ res w, (inr tt, w);
  expectation_z := λ r w, (inr 0%Q, w);
|}.

(** The whole notebook on that runtime, from a fresh interpreter. *)
Definition ideal_run : (@exn ideal + unit) * @state ideal :=
  @run_all ideal (@notebook ideal) (@fresh ideal 0).

(** A machine with [n] devices, no target selected, nothing submitted. *)
Definition machine (n : nat) : sim_runtime := SimRuntime n "" [].

(** The array the 20-qubit cell generates with this generator. *)
Definition sim_parameters : list (list Q) :=
  rng_uniform (default_rng 13) 0 1 (1000, 60).

(** A small interpreter state in front of the asynchronous cell: two
    batches of two rows, a two-qubit kernel, [n] devices. *)
Definition demo_xi : list (list (list Q)) :=
  [[[0.1; 0.2]; [0.3; 0.4]]; [[0.5; 0.6]; [0.7; 0.8]]]%Q.

Definition demo_state (n : nat) : state :=
  State (list_to_map [("kernel", VKernel (build_rx_kernel 2));
                      ("h", VSpin (spin_z 0));
                      ("xi", VArrays demo_xi);
                      ("asyncresults", VHandles [])])
        None (machine n) [].

(** The asynchronous cell from [demo_state n]. *)
Definition demo_async (n : nat) : (exn + unit) * state :=
  cell_async (demo_state n).

(** A runtime with a quota: it accepts a fixed number of dispatch calls and
    raises on every one after them; a handle is the value of its job. *)
Inductive quota_error : Type :=
| QuotaExceeded.

Definition metered_call {A : Type} (a : A) (w : nat)
  : (quota_error + A) * nat :=
  match w with
  | 0 => (inl QuotaExceeded, 0)
  | S w' => (inr a, w')
  end.

Definition metered : Vendor := {|
  float64 := Q;
  BitGenerator := Z;
  default_rng := λ seed, seed;
  uniform := lcg_uniform;
  RandomState := Z;
  legacy_seed := λ seed, seed;
  Runtime := nat;
  RuntimeError := quota_error;
  ObserveResult := Q;
  AsyncObserveResult := Q;
  set_target := λ name w, (inr tt, w);
  observe := λ k o args, metered_call (sim_value args);
  observe_async := λ k o args q, metered_call (sim_value args);
  get := λ res w, (inr res, w);
  expectation_z := λ r w, (inr r, w);
|}.

(** Three rows of two parameters, and the names the dispatch cells read,
    in front of a machine with [n] devices and of a runtime with a quota of
    [n] calls. *)
Definition demo_parameters : list (list Q) :=
  [[0.1; 0.2]; [0.3; 0.4]; [0.5; 0.6]]%Q.

Definition demo_globals `{V : Vendor} (p : list (list float64))
  : gmap string value :=
  list_to_map [("kernel", VKernel (build_rx_kernel 2));
               ("kernel1", VKernel (build_rx_kernel 2));
               ("kernel2", VKernel (build_rx_kernel 2));
               ("h", VSpin (spin_z 0));
               ("parameters", VArray p)].

Definition demo_rows (n : nat) : @state sim :=
  State (demo_globals demo_parameters) None (machine n) [].

Definition metered_rows (n : nat) : @state metered :=
  @State metered (@demo_globals metered demo_parameters) None n [].

End Sim.

(** ** The PennyLane notebook: cost and accuracy

    [square_loss] and [accuracy] are written against the arithmetic of
    whatever their arguments hold: Python dispatches [-], [**], [+], [/],
    [abs] and [<] to the operands, and each may round or raise.  The two
    functions are embedded over an interface of these operations; Python's
    own [int] and [float] are an implementation of it. *)

Module PennyLane.

(** The exceptions of the notebook's functions and of their operations. *)
Inductive error : Type :=
| ZeroDivisionError
| OverflowError
| TypeError
| IndexError
| ValueError.

#[export] Instance error_ret : MRet (sum error) := λ A a, inr a.
#[export] Instance error_bind : MBind (sum error) :=
  λ A B f r, match r with
             | inr a => f a
             | inl e => inl e
             end.

(** The numbers: the values labels and predictions hold, the [int]s the
    functions start from and divide by, and what the operations return.
    [of_int n] is the Python [int] [n], [tolerance] the literal [1e-5],
    [py_pow2 x] is [x ** 2], and a comparison is taken as the truth value
    an [if] reads.  Dividing an [int] by the [int] [0] raises. *)
Class Arithmetic : Type := {
  number : Type;
  of_int : Z → number;
  tolerance : number;
  py_sub : number → number → error + number;
  py_pow2 : number → error + number;
  py_add : number → number → error + number;
  py_truediv : number → number → error + number;
  py_abs : number → error + number;
  py_lt : number → number → error + bool;
  py_le : number → number → error + bool;
  py_eq : number → number → error + bool;
  truediv_by_zero a : py_truediv (of_int a) (of_int 0) = inl ZeroDivisionError;
}.

(** True division of [int]s keeps quotients in the unit interval apart:
    for [0 <= c <= n] and [0 < n <= bound], [c / n] is a number with
    [0 <= c / n <= 1], and [c / n == 1] only for [c = n].  An exact
    quotient has this at every [bound]; a rounded one up to the lengths at
    which rounding cannot reach [1]. *)
Class UnitQuotients `{A : Arithmetic} (bound : Z) : Prop :=
  unit_quotient : ∀ c n : Z,
    (0 ≤ c ≤ n)%Z → (0 < n ≤ bound)%Z →
    ∃ r, py_truediv (of_int c) (of_int n) = inr r
         ∧ py_le (of_int 0) r = inr true
         ∧ py_le r (of_int 1) = inr true
         ∧ (py_eq r (of_int 1) = inr true ↔ c = n).

Section Functions.
Context `{A : Arithmetic}.

(** [len(labels)] *)
Definition len (labels : list number) : Z := Z.of_nat (length labels).

(** The loop of [square_loss]:
    [for l, p in zip(labels, predictions): loss += (l - p) ** 2] *)
Fixpoint square_loss_loop (loss : number) (pairs : list (number * number))
  : error + number :=
  match pairs with
  | [] => inr loss
  | (l, p) :: rest =>
      d ← py_sub l p;
      s ← py_pow2 d;
      loss ← py_add loss s;
      square_loss_loop loss rest
  end.

(** [def square_loss(labels, predictions)] *)
Definition square_loss (labels predictions : list number) : error + number :=
  let loss := of_int 0 in
  loss ← square_loss_loop loss (zip labels predictions);
  py_truediv loss (of_int (len labels)).

(** The loop of [accuracy]; [loss] is an [int] throughout:
    [for l, p in zip(labels, predictions):
         if abs(l - p) < 1e-5: loss += 1] *)
Fixpoint accuracy_loop (loss : Z) (pairs : list (number * number))
  : error + Z :=
  match pairs with
  | [] => inr loss
  | (l, p) :: rest =>
      d ← py_sub l p;
      a ← py_abs d;
      c ← py_lt a tolerance;
      accuracy_loop (if (c : bool) then loss + 1 else loss)%Z rest
  end.

(** [def accuracy(labels, predictions)] *)
Definition accuracy (labels predictions : list number) : error + number :=
  let loss := 0%Z in
  loss ← accuracy_loop loss (zip labels predictions);
  py_truediv (of_int loss) (of_int (len labels)).

(** *** Reference definitions *)

(** [(labels[i] - predictions[i]) ** 2] *)
Definition squared_error_at (labels predictions : list number) (i : nat)
  : error + number :=
  match labels !! i, predictions !! i with
  | Some l, Some p => d ← py_sub l p; py_pow2 d
  | _, _ => inl IndexError
  end.

(** Python's [sum(f(i) for i in indices)] continued from [loss]: the terms
    are computed and added one after the other, in order. *)
Fixpoint sum_from (loss : number) (f : nat → error + number)
    (indices : list nat) : error + number :=
  match indices with
  | [] => inr loss
  | i :: rest =>
      x ← f i;
      loss ← py_add loss x;
      sum_from loss f rest
  end.

(** The sum of the squared differences at the first [n] positions:
    [sum((labels[i] - predictions[i]) ** 2 for i in range(n))]. *)
Definition sum_squared_errors (n : nat) (labels predictions : list number)
  : error + number :=
  sum_from (of_int 0) (squared_error_at labels predictions) (seq 0 n).

(** The mean squared error of [N = len(labels)] labels and as many
    predictions:
    [sum((labels[i] - predictions[i]) ** 2 for i in range(N)) / N]. *)
Definition mean_squared_error (labels predictions : list number)
  : error + number :=
  s ← sum_squared_errors (length labels) labels predictions;
  py_truediv s (of_int (len labels)).

(** A label and a prediction are within the tolerance of each other:
    [|l - p| < 1e-5], as the arithmetic evaluates it. *)
Definition within_tolerance (l p : number) : error + bool :=
  d ← py_sub l p;
  a ← py_abs d;
  py_lt a tolerance.

(** The outcomes of that test on a list of pairs, in order, or the first
    exception. *)
Fixpoint tests (pairs : list (number * number)) : error + list bool :=
  match pairs with
  | [] => inr []
  | (l, p) :: rest =>
      c ← within_tolerance l p;
      cs ← tests rest;
      inr (c :: cs)
  end.

(** The number of tests that held. *)
Definition count_true (cs : list bool) : Z :=
  Z.of_nat (length (filter (λ c, c = true) cs)).

(** Every label has a prediction within the tolerance. *)
Definition all_matched (labels predictions : list number) : Prop :=
  ∀ i l, labels !! i = Some l →
         ∃ p, predictions !! i = Some p ∧ within_tolerance l p = inr true.

End Functions.


(** *** Python's own numbers

    [int] and [float] as CPython implements them: [int]s are exact,
    [float]s are IEEE doubles, an operation on an [int] and a [float]
    converts the [int] first, and a comparison of the two is exact. *)

Inductive object : Type :=
| Int (n : Z)
| Float (x : float).

(** The double nearest to [m * 2 ** e], ties to even; an infinity when it is
    out of range. *)
Definition nearest (m e : Z) : float :=
  SF2Prim (binary_normalize prec emax m e false).

(** [float(n)] raises for an [int] too large for a double. *)
Definition int_to_float (n : Z) : error + float :=
  let x := nearest n 0 in
  if is_infinity x then inl OverflowError else inr x.

(** The operands of a binary operation, after the conversion. *)
Definition coerce (a b : object) : error + (Z * Z + float * float) :=
  match a, b with
  | Int m, Int n => inr (inl (m, n))
  | Int m, Float y => x ← int_to_float m; inr (inr (x, y))
  | Float x, Int n => y ← int_to_float n; inr (inr (x, y))
  | Float x, Float y => inr (inr (x, y))
  end.

Definition object_sub (a b : object) : error + object :=
  ab ← coerce a b;
  match ab with
  | inl (m, n) => inr (Int (m - n))
  | inr (x, y) => inr (Float (x - y))
  end.

Definition object_add (a b : object) : error + object :=
  ab ← coerce a b;
  match ab with
  | inl (m, n) => inr (Int (m + n))
  | inr (x, y) => inr (Float (x + y))
  end.

Definition object_abs (a : object) : error + object :=
  match a with
  | Int n => inr (Int (Z.abs n))
  | Float x => inr (Float (abs x))
  end.

(** [a / b] on [int]s is the double nearest to the exact quotient; its sign
    is kept when [a] is [0]. *)
Definition int_truediv (a b : Z) : error + float :=
  if (b =? 0)%Z then inl ZeroDivisionError
  else if (a =? 0)%Z then inr (if (b <? 0)%Z then neg_zero else zero)
  else
    let k := Z.max 0 (Z.log2 (Z.abs b) - Z.log2 (Z.abs a) + 56) in
    let n := Z.shiftl (Z.abs a) k in
    let q := (n / Z.abs b)%Z in
    let sticky := if (n mod Z.abs b =? 0)%Z then 0%Z else 1%Z in
    let x := nearest (Z.sgn a * Z.sgn b * (2 * q + sticky)) (- k - 1) in
    if is_infinity x then inl OverflowError else inr x.

Definition object_truediv (a b : object) : error + object :=
  ab ← coerce a b;
  match ab with
  | inl (m, n) => x ← int_truediv m n; inr (Float x)
  | inr (x, y) =>
      if is_zero y then inl ZeroDivisionError else inr (Float (x / y))
  end.

(** The order of an [int] and a [float], compared exactly; [None] when the
    [float] is a NaN. *)
Definition compare_int_float (n : Z) (x : float) : option comparison :=
  match Prim2SF x with
  | S754_zero _ => Some (n ?= 0)%Z
  | S754_infinity s => Some (if s then Gt else Lt)
  | S754_nan => None
  | S754_finite s m e =>
      let v := if s then Z.neg m else Z.pos m in
      Some (if (0 <=? e)%Z then (n ?= Z.shiftl v e)%Z
            else (Z.shiftl n (- e) ?= v)%Z)
  end.

Definition object_compare (a b : object) : option comparison :=
  match a, b with
  | Int m, Int n => Some (m ?= n)%Z
  | Int m, Float y => compare_int_float m y
  | Float x, Int n => CompOpp <$> compare_int_float n x
  | Float x, Float y =>
      match (x ?= y)%float with
      | FEq => Some Eq
      | FLt => Some Lt
      | FGt => Some Gt
      | FNotComparable => None
      end
  end.

Definition object_lt (a b : object) : error + bool :=
  inr (bool_decide (object_compare a b = Some Lt)).

Definition object_le (a b : object) : error + bool :=
  inr (bool_decide (object_compare a b = Some Lt
                    ∨ object_compare a b = Some Eq)).

Definition object_eq (a b : object) : error + bool :=
  inr (bool_decide (object_compare a b = Some Eq)).

Section Python.

(** The C library's [pow], which need not round correctly. *)
Variable pow : float → float → float.

(** [x ** 2] on a [float]: [float.__pow__] answers a NaN, an infinity, a
    zero and a base of [1.0] or [-1.0] itself, and hands every other base,
    without its sign, to the C library; an infinite result there is
    raised as an [OverflowError]. *)
Definition float_pow2 (x : float) : error + float :=
  if is_nan x then inr x
  else if is_infinity x then inr infinity
  else if is_zero x then inr zero
  else if (abs x =? 1)%float then inr one
  else
    let y := pow (abs x) 2 in
    if is_infinity y then inl OverflowError else inr y.

Definition object_pow2 (a : object) : error + object :=
  match a with
  | Int n => inr (Int (n * n))
  | Float x => y ← float_pow2 x; inr (Float y)
  end.

Program Definition python : Arithmetic := {|
  number := object;
  of_int := Int;
  tolerance := Float 0x1.4f8b588e368f1p-17;
  py_sub := object_sub;
  py_pow2 := object_pow2;
  py_add := object_add;
  py_truediv := object_truediv;
  py_abs := object_abs;
  py_lt := object_lt;
  py_le := object_le;
  py_eq := object_eq;
|}.
Next Obligation. reflexivity. Qed.

End Python.

(** A C library whose [pow] rounds squares correctly. *)
Definition pow_rounded (x y : float) : float := (x * x)%float.

Definition cpython : Arithmetic := python pow_rounded.

End PennyLane.

(** ** The PennyLane notebook: the variational classifier

    The quantum function of a QNode queues operations on a tape; calling
    the QNode runs the function and hands the tape to the device.  The
    device, NumPy's generator and the optimizer are parameters. *)

Module Classifier.
Import PennyLane.

(** An exception of the notebook's own statements, or one raised inside a
    library call. *)
Inductive exception : Type :=
| Raised (e : error)
| LibraryError.

Inductive observable : Type :=
| PauliZ (wires : nat).

Inductive measurement : Type :=
| expval (op : observable).

Section Circuit.
Context `{A : Arithmetic}.

(** The operations the notebook queues; [wires] as the source passes
    them. *)
Inductive operation : Type :=
| BasisState (x : list number) (wires : list nat)
| Rot (phi theta omega : number) (wires : nat)
| CNOT (wires : nat * nat).

(** A quantum function: it extends the tape and returns a value or raises,
    with the tape as queued so far. *)
Definition Tape (X : Type) : Type :=
  list operation → (exception + X) * list operation.

Definition tape_ret {X : Type} (x : X) : Tape X := λ t, (inr x, t).

Definition tape_raise {X : Type} (e : exception) : Tape X := λ t, (inl e, t).

Definition tape_bind {X Y : Type} (c : Tape X) (f : X → Tape Y) : Tape Y :=
  λ t, match c t with
       | (inr x, t') => f x t'
       | (inl e, t') => (inl e, t')
       end.

#[export] Instance tape_mret : MRet Tape := @tape_ret.
#[export] Instance tape_mbind : MBind Tape := λ X Y f c, tape_bind c f.

(** Instantiating an operation inside a quantum function queues it. *)
Definition queue (op : operation) : Tape unit := λ t, (inr tt, t ++ [op]).

(** [W[i, j]] on a two-dimensional array, for [0 <= i], [0 <= j]. *)
Definition item (W : list (list number)) (i j : nat) : Tape number :=
  match W !! i with
  | Some row =>
      match row !! j with
      | Some w => tape_ret w
      | None => tape_raise (Raised IndexError)
      end
  | None => tape_raise (Raised IndexError)
  end.

(** [qml.Rot(W[i, 0], W[i, 1], W[i, 2], wires=i)]: the arguments are
    evaluated left to right, then the operation is queued. *)
Definition rot_row (W : list (list number)) (i : nat) : Tape unit :=
  phi ← item W i 0;
  theta ← item W i 1;
  omega ← item W i 2;
  queue (Rot phi theta omega i).

(** [def layer(W)] *)
Definition layer (W : list (list number)) : Tape unit :=
  rot_row W 0;;
  rot_row W 1;;
  rot_row W 2;;
  rot_row W 3;;
  queue (CNOT (0, 1));;
  queue (CNOT (1, 2));;
  queue (CNOT (2, 3));;
  queue (CNOT (3, 0)).

(** [def statepreparation(x)] *)
Definition statepreparation (x : list number) : Tape unit :=
  queue (BasisState x [0; 1; 2; 3]).

(** [for W in weights: layer(W)] *)
Fixpoint for_layers (weights : list (list (list number))) : Tape unit :=
  match weights with
  | [] => tape_ret tt
  | W :: rest => layer W;; for_layers rest
  end.

(** The quantum function [circuit(weights, x)]. *)
Definition circuit_function (weights : list (list (list number)))
    (x : list number) : Tape measurement :=
  statepreparation x;;
  for_layers weights;;
  tape_ret (expval (PauliZ 0)).

(** The result of a call of [f] that raises [error]s, as a result of the
    notebook. *)
Definition lift {X : Type} (r : error + X) : exception + X :=
  match r with
  | inr x => inr x
  | inl e => inl (Raised e)
  end.

(** [[f(x) for x in X]], left at the first exception. *)
Fixpoint comprehension {X Y : Type} (f : X → exception + Y) (l : list X)
  : exception + list Y :=
  match l with
  | [] => inr []
  | x :: rest =>
      match f x with
      | inr y =>
          match comprehension f rest with
          | inr ys => inr (y :: ys)
          | inl e => inl e
          end
      | inl e => inl e
      end
  end.

Section Device.
(** Executing a tape on the device [dev] returns the expectation value
    measured, or the device raises. *)
Context (execute : list operation → measurement → option number).

(** Calling the QNode [circuit]: the function is run on an empty tape and
    the tape is executed on the device. *)
Definition circuit (weights : list (list (list number))) (x : list number)
  : exception + number :=
  match circuit_function weights x [] with
  | (inr m, tape) =>
      match execute tape m with
      | Some v => inr v
      | None => inl LibraryError
      end
  | (inl e, _) => inl e
  end.

(** [def variational_classifier(weights, bias, x)] *)
Definition variational_classifier (weights : list (list (list number)))
    (bias : number) (x : list number) : exception + number :=
  match circuit weights x with
  | inr v => lift (py_add v bias)
  | inl e => inl e
  end.

(** [def cost(weights, bias, X, Y)] *)
Definition cost (weights : list (list (list number))) (bias : number)
    (X : list (list number)) (Y : list number) : exception + number :=
  match comprehension (variational_classifier weights bias) X with
  | inr predictions => lift (square_loss Y predictions)
  | inl e => inl e
  end.

End Device.

(** *** Reading a tape *)

(** The rotation angles of an operation, in the order given. *)
Definition angles_of (op : operation) : list number :=
  match op with
  | Rot phi theta omega _ => [phi; theta; omega]
  | _ => []
  end.

(** The wires an operation acts on. *)
Definition wires_of (op : operation) : list nat :=
  match op with
  | BasisState _ wires => wires
  | Rot _ _ _ w => [w]
  | CNOT (c, t) => [c; t]
  end.

(** The operations of one layer on the rows [r0 .. r3]. *)
Definition rot_of (row : list number) (i : nat) : option operation :=
  match row with
  | phi :: theta :: omega :: _ => Some (Rot phi theta omega i)
  | _ => None
  end.

(** The operations [layer(W)] queues, when [W] has the entries it reads:
    the rotations of the first four rows, then the ring of [CNOT]s. *)
Definition layer_operations (W : list (list number))
  : option (list operation) :=
  match W with
  | r0 :: r1 :: r2 :: r3 :: _ =>
      rots ← mapM (λ '(row, i), rot_of row i)
                  [(r0, 0); (r1, 1); (r2, 2); (r3, 3)];
      Some (rots ++ [CNOT (0, 1); CNOT (1, 2); CNOT (2, 3); CNOT (3, 0)])
  | _ => None
  end.

(** The tape of [circuit(weights, x)], when every layer has the entries it
    reads. *)
Definition circuit_tape (weights : list (list (list number)))
    (x : list number) : option (list operation) :=
  layers ← mapM layer_operations weights;
  Some (BasisState x [0; 1; 2; 3] :: concat layers).

(** *** The training cell *)

Definition batch_size : nat := 5.

(** [l[index]] for an array of indices, none of them negative. *)
Definition take_rows {X : Type} (l : list X) (index : list nat)
  : exception + list X :=
  comprehension
    (λ i, match l !! i with
          | Some a => inr a
          | None => inl (Raised IndexError)
          end)
    index.

Section Training.
Context (execute : list operation → measurement → option number).
(** [np.sign] *)
Context (np_sign : number → number).
(** The state of NumPy's global generator and of the optimizer. *)
Context {RandomState Optimizer : Type}.
(** [np.random.randint(low, high, (size,))]: the indices drawn, or NumPy
    raises. *)
Context (randint :
           nat → nat → nat → RandomState → option (list nat) * RandomState).
(** [opt.step(objective, weights, bias, X_batch, Y_batch)]: the new
    weights and bias, or the optimizer raises. *)
Context (opt_step :
           (list (list (list number)) → number → list (list number) →
            list number → exception + number) →
           list (list (list number)) → number → list (list number) →
           list number → Optimizer →
           option (list (list (list number)) * number) * Optimizer).

(** The variables the training cell updates, with the two library
    states. *)
Record training : Type := Training {
  tr_weights : list (list (list number));
  tr_bias : number;
  tr_data : list (nat * number * number);
  tr_random : RandomState;
  tr_opt : Optimizer;
}.

(** The body of [for it in range(25)]. *)
Definition iteration (X : list (list number)) (Y : list number) (it : nat)
    (s : training) : (exception + unit) * training :=
  match randint 0 (length X) batch_size (tr_random s) with
  | (None, g) =>
      (inl LibraryError,
       Training (tr_weights s) (tr_bias s) (tr_data s) g (tr_opt s))
  | (Some batch_index, g) =>
      let s1 := Training (tr_weights s) (tr_bias s) (tr_data s) g (tr_opt s) in
      match take_rows X batch_index with
      | inl e => (inl e, s1)
      | inr X_batch =>
          match take_rows Y batch_index with
          | inl e => (inl e, s1)
          | inr Y_batch =>
              match opt_step (cost execute) (tr_weights s) (tr_bias s)
                             X_batch Y_batch (tr_opt s) with
              | (None, o) =>
                  (inl LibraryError,
                   Training (tr_weights s) (tr_bias s) (tr_data s) g o)
              | (Some (weights, bias), o) =>
                  let s2 := Training weights bias (tr_data s) g o in
                  match comprehension
                          (λ x, match variational_classifier execute weights
                                        bias x with
                                | inr v => inr (np_sign v)
                                | inl e => inl e
                                end)
                          X with
                  | inl e => (inl e, s2)
                  | inr predictions =>
                      match lift (accuracy Y predictions) with
                      | inl e => (inl e, s2)
                      | inr acc =>
                          match cost execute weights bias X Y with
                          | inl e => (inl e, s2)
                          | inr c =>
                              (inr tt,
                               Training weights bias
                                 (tr_data s ++ [(it + 1, c, acc)]) g o)
                          end
                      end
                  end
              end
          end
      end
  end.

(** What one record of [data] holds for the weights and bias [wb]: the
    cost on all of [X] and [Y], and the accuracy of the signs of the
    classifier's outputs. *)
Definition record_of (X : list (list number)) (Y : list number)
    (r : nat * number * number)
    (wb : list (list (list number)) * number) : Prop :=
  cost execute wb.1 wb.2 X Y = inr r.1.2
  ∧ ∃ outputs,
      Forall2 (λ x v, variational_classifier execute wb.1 wb.2 x = inr v)
        X outputs
      ∧ accuracy Y (np_sign <$> outputs) = inr r.2.

(** [next] are the weights and bias one optimizer step on a batch of rows
    of [X] and [Y] returned from [prev]. *)
Definition step_of (X : list (list number)) (Y : list number)
    (prev next : list (list (list number)) * number) : Prop :=
  ∃ batch_index X_batch Y_batch o,
    take_rows X batch_index = inr X_batch
    ∧ take_rows Y batch_index = inr Y_batch
    ∧ (opt_step (cost execute) prev.1 prev.2 X_batch Y_batch o).1
      = Some next.

Fixpoint for_iterations (X : list (list number)) (Y : list number)
    (its : list nat) (s : training) : (exception + unit) * training :=
  match its with
  | [] => (inr tt, s)
  | it :: rest =>
      match iteration X Y it s with
      | (inr _, s') => for_iterations X Y rest s'
      | (inl e, s') => (inl e, s')
      end
  end.

(** The training cell: [weights, bias = weights_init, bias_init],
    [data = []], and the loop. *)
Definition training_cell (weights_init : list (list (list number)))
    (bias_init : number) (X : list (list number)) (Y : list number)
    (g : RandomState) (o : Optimizer) : (exception + unit) * training :=
  for_iterations X Y (seq 0 25) (Training weights_init bias_init [] g o).

End Training.

(** [it, cost, acc = zip( *data )]: the triples of [data] are transposed;
    unpacking needs three sequences, and [zip()] of no argument yields
    none. *)
Definition unzip3 (data : list (nat * number * number))
  : exception + (list nat * list number * list number) :=
  match data with
  | [] => inl (Raised ValueError)
  | _ => inr (data.*1.*1, data.*1.*2, data.*2)
  end.

End Circuit.

End Classifier.

(** * Properties *)

(** ** [np.split] *)

Section NumpyExamples.
Import Numpy.

Example split_6_by_3 :
  split [10; 11; 12; 13; 14; 15] 3 = inr [[10; 11]; [12; 13]; [14; 15]].
Proof. reflexivity. Qed.

Example split_5_by_2 : split [10; 11; 12; 13; 14] 2 = inl ValueError.
Proof. reflexivity. Qed.

Example split_by_0 : split [10; 11] 0 = inl ZeroDivisionError.
Proof. reflexivity. Qed.

Example array_split_5_by_2 :
  array_split [10; 11; 12; 13; 14] 2 = inr [[10; 11; 12]; [13; 14]].
Proof. reflexivity. Qed.

Example split_empty_by_4 : split (@nil nat) 4 = inr [[]; []; []; []].
Proof. reflexivity. Qed.

End NumpyExamples.

Section NumpyFacts.
Import Numpy.
Context {A : Type}.
Implicit Types (ary : list A) (szs : list nat).

(** The running sum at position [i] is the sum of the first [i+1] sizes. *)
Lemma cumsum_from_lookup acc szs i :
  i < length szs →
  cumsum_from acc szs !! i = Some (acc + sum_list (take (S i) szs)).
Proof.
  revert acc i; induction szs as [|x r IH]; intros acc i Hi; simpl in *.
  - lia.
  - destruct i as [|i]; simpl.
    + f_equal; lia.
    + rewrite IH by lia. simpl. f_equal; lia.
Qed.

Lemma div_points_lookup szs i :
  i ≤ length szs →
  cumsum (0 :: szs) !!! i = sum_list (take i szs).
Proof.
  intros Hi. apply list_lookup_total_correct.
  unfold cumsum. rewrite cumsum_from_lookup by (simpl; lia).
  reflexivity.
Qed.

(** Cutting at the running sums of [szs] and gluing the first [k] pieces
    back gives the prefix of that total length. *)
Lemma concat_slices ary szs k :
  k ≤ length szs →
  concat ((λ i, slice ary (cumsum (0 :: szs) !!! i)
                          (cumsum (0 :: szs) !!! (i + 1))) <$> seq 0 k)
  = take (sum_list (take k szs)) ary.
Proof.
  induction k as [|k IH]; intros Hk.
  - simpl. by rewrite take_0.
  - rewrite seq_S, fmap_app, concat_app, IH by lia. simpl.
    rewrite app_nil_r. unfold slice.
    rewrite !div_points_lookup by lia.
    destruct (lookup_lt_is_Some_2 szs k ltac:(lia)) as [x Hx].
    rewrite Nat.add_1_r, (take_S_r _ _ _ Hx), sum_list_with_app.
    set (a := sum_list (take k szs)).
    replace (a + sum_list [x] - a) with x by (simpl; unfold id; lia).
    rewrite take_take_drop. f_equal. simpl; unfold id; lia.
Qed.

(** When [sections] divides the length there are no extras. *)
Lemma section_sizes_equal N sections :
  sections ≠ 0 → N mod sections = 0 →
  section_sizes N sections = 0 :: replicate sections (N / sections).
Proof.
  intros Hs Hm. unfold section_sizes. rewrite Hm. simpl.
  by rewrite Nat.sub_0_r.
Qed.

(** The division points of an equal division. *)
Lemma equal_div_points sections q i :
  i ≤ sections →
  cumsum (0 :: replicate sections q) !!! i = i * q.
Proof.
  intros Hi. rewrite div_points_lookup by (rewrite length_replicate; lia).
  rewrite take_replicate, Nat.min_l by lia. apply sum_list_replicate.
Qed.

(** [np.split] on an equal division, section by section. *)
Lemma split_equal ary sections :
  sections ≠ 0 → length ary mod sections = 0 →
  split ary sections
  = inr ((λ i, take (length ary / sections)
                 (drop (i * (length ary / sections)) ary))
           <$> seq 0 sections).
Proof.
  intros Hs Hm. unfold split, array_split.
  rewrite decide_False by done.
  rewrite (decide_False (P := _ ≠ 0)) by lia.
  rewrite decide_False by done.
  rewrite section_sizes_equal by done. f_equal.
  apply list_fmap_ext. intros k i Hi.
  apply lookup_seq in Hi as [-> Hi]. simpl. unfold slice.
  rewrite !equal_div_points by lia. f_equal. lia.
Qed.

Lemma split_success ary sections xi :
  split ary sections = inr xi →
  sections ≠ 0 ∧ length ary mod sections = 0.
Proof.
  unfold split.
  destruct (decide (sections = 0)); [done|].
  destruct (decide (length ary mod sections ≠ 0)); [done|].
  intros _. split; [done|lia].
Qed.

Lemma split_concatenate_equal ary sections xi :
  split ary sections = inr xi → concatenate xi = ary.
Proof.
  intros Hsplit. destruct (split_success _ _ _ Hsplit) as [Hs Hm].
  unfold split, array_split in Hsplit.
  rewrite decide_False in Hsplit by done.
  rewrite (decide_False (P := _ ≠ 0)) in Hsplit by lia.
  rewrite decide_False in Hsplit by done.
  rewrite section_sizes_equal in Hsplit by done.
  injection Hsplit as <-. unfold concatenate.
  rewrite concat_slices by (rewrite length_replicate; lia).
  rewrite take_replicate, Nat.min_id, sum_list_replicate.
  apply take_ge.
  apply Nat.Div0.div_exact in Hm. lia.
Qed.

(** Every batch of an equal division has the same number of rows. *)
Lemma split_lengths ary sections xi :
  split ary sections = inr xi →
  length xi = sections
  ∧ Forall (λ b, length b = length ary / sections) xi.
Proof.
  intros Hsplit. destruct (split_success _ _ _ Hsplit) as [Hs Hm].
  rewrite split_equal in Hsplit by done. injection Hsplit as <-.
  split; [by rewrite length_fmap, length_seq|].
  apply Forall_fmap, Forall_forall. intros i Hi. simpl.
  apply elem_of_seq in Hi. rewrite length_take, length_drop.
  apply Nat.Div0.div_exact in Hm.
  assert ((i + 1) * (length ary / sections)
          ≤ sections * (length ary / sections))
    by (apply Nat.mul_le_mono_r; lia).
  lia.
Qed.

(** A non-empty array is split into non-empty batches. *)
Lemma split_nonempty ary sections xi :
  split ary sections = inr xi → ary ≠ [] → Forall (λ b, b ≠ []) xi.
Proof.
  intros Hsplit Hne. destruct (split_success _ _ _ Hsplit) as [Hs Hm].
  destruct (split_lengths _ _ _ Hsplit) as [_ Hlen].
  eapply Forall_impl; [exact Hlen|]. intros b Hb ->. simpl in Hb.
  apply Nat.Div0.div_exact in Hm. destruct ary; [done|]. simpl in *. lia.
Qed.

(** C1.  Partition then concatenation is the identity: whenever the number
    of sections divides the number of rows (4 sections and 1000 rows in the
    notebook), [np.split] returns batches and concatenating them in order
    gives back the parameter array. *)
Theorem split_concatenate_roundtrip (parameters : list A) (sections : nat) :
  sections ≠ 0 → length parameters mod sections = 0 →
  ∃ xi, split parameters sections = inr xi ∧ concatenate xi = parameters.
Proof.
  intros Hs Hm. pose proof (split_equal parameters sections Hs Hm) as Hsplit.
  eexists. split; [exact Hsplit|].
  by apply (split_concatenate_equal _ sections).
Qed.

End NumpyFacts.

Section NumpyShapes.
Import Numpy.
Context {B : Type}.
Implicit Types (ary : list (list B)).

(** A section of an equal division has [q] rows, each a row of [ary]. *)
Lemma section_shape ary n m q i :
  has_shape ary n m → (i + 1) * q ≤ n →
  has_shape (take q (drop (i * q) ary)) q m.
Proof.
  intros [Hn Hrows] Hi. split.
  - rewrite length_take, length_drop. lia.
  - by apply Forall_take, Forall_drop.
Qed.

Lemma split_shapes ary sections n m :
  sections ≠ 0 → has_shape ary n m → n mod sections = 0 →
  ∃ xi, split ary sections = inr xi ∧ length xi = sections
        ∧ Forall (λ b, has_shape b (n / sections) m) xi.
Proof.
  intros Hs Hshape Hm. pose proof Hshape as [Hn _].
  eexists. split; [apply split_equal; by rewrite ?Hn|].
  rewrite Hn. split; [by rewrite length_fmap, length_seq|].
  apply Forall_fmap, Forall_forall. intros i Hi. simpl.
  apply elem_of_seq in Hi. apply (section_shape _ n); [done|].
  apply Nat.Div0.div_exact in Hm.
  assert ((i + 1) * (n / sections) ≤ sections * (n / sections))
    by (apply Nat.mul_le_mono_r; lia).
  lia.
Qed.

(** C8.  [np.split] with an integer number of sections has an
    equal-division precondition: on an array of [n] rows it raises
    [ValueError] when the number of sections does not divide [n], and
    otherwise returns that many batches, each of shape
    [(n / sections, n_parameters)]; for the notebook's 4 sections of 1000
    rows every batch has 250 rows. *)
Theorem split_equal_division ary (sections n m : nat) :
  sections ≠ 0 → has_shape ary n m →
  (n mod sections ≠ 0 → split ary sections = inl ValueError)
  ∧ (n mod sections = 0 →
     ∃ xi, split ary sections = inr xi ∧ length xi = sections
           ∧ Forall (λ b, has_shape b (n / sections) m) xi)
  ∧ (sections = 4 → n = 1000 →
     ∃ xi, split ary 4 = inr xi ∧ length xi = 4
           ∧ Forall (λ b, has_shape b 250 m) xi).
Proof.
  intros Hs Hshape. split; [|split].
  - intros Hm. destruct Hshape as [Hn _]. unfold split.
    rewrite decide_False by done. rewrite Hn. by rewrite decide_True.
  - by apply split_shapes.
  - intros -> ->. by apply (split_shapes ary 4 1000 m).
Qed.

End NumpyShapes.

(** ** The kernels *)

Section KernelExamples.
Import Cudaq.

Example rxyz_kernel_4 :
  build_rxyz_kernel 4
  = Kernel 4 [rx 0 0; rx 1 1; rx 2 2; rx 3 3;
              ry 4 0; ry 5 1; ry 6 2; ry 7 3;
              rz 8 0; rz 9 1; rz 10 2; rz 11 3;
              cz 0 1; cz 2 3].
Proof. reflexivity. Qed.

Example rxyz_kernel_3_pairs :
  program (build_rxyz_kernel 3)
  = [rx 0 0; rx 1 1; rx 2 2; ry 3 0; ry 4 1; ry 5 2;
     rz 6 0; rz 7 1; rz 8 2; cz 0 1].
Proof. reflexivity. Qed.

Example rxyz_kernel_4_params : param_count (build_rxyz_kernel 4) = 12.
Proof. reflexivity. Qed.

Example rx_kernel_4_params : param_count (build_rx_kernel 4) = 4.
Proof. reflexivity. Qed.

End KernelExamples.

(** ** Stepping through statements *)

Section MonadFacts.
Import Cudaq.
Context `{V : Vendor}.
Implicit Types (s : state).

Lemma bind_eq {A B : Type} (c : Py A) (f : A → Py B) s :
  (c ≫= f) s
  = match c s with
    | (inr a, s') => f a s'
    | (inl e, s') => (inl e, s')
    end.
Proof. reflexivity. Qed.

Lemma state_eta s :
  State (globals s) (np_random_state s) (runtime s) (trace s) = s.
Proof. by destruct s. Qed.

Lemma assign_eq name v s :
  assign name v s
  = (inr tt,
     State (<[name := v]> (globals s)) (np_random_state s) (runtime s)
           (trace s)).
Proof. reflexivity. Qed.

End MonadFacts.

Ltac py_read H := rewrite !bind_eq; unfold Cudaq.read; simpl; rewrite H; simpl.
Ltac py_index H := rewrite bind_eq; unfold Cudaq.index; rewrite H; simpl.
Ltac py_proj :=
  cbn [fst snd Cudaq.globals Cudaq.np_random_state Cudaq.runtime Cudaq.trace].
Ltac py_proj_all :=
  cbn [fst snd Cudaq.globals Cudaq.np_random_state Cudaq.runtime Cudaq.trace]
    in *.
Ltac py_assign := rewrite bind_eq, assign_eq; py_proj.
Ltac lookup_solve :=
  py_proj; repeat (rewrite lookup_insert_ne by done);
  first [apply lookup_insert_eq | eassumption].

(** ** The submission and collection loops *)

Section DriverFacts.
Import Cudaq.
Context `{V : Vendor}.
Implicit Types (s : state) (k : kernel) (o : spin_op).
Implicit Types (xi : list (list (list float64))).
Implicit Types (js : list (list float64 * nat)).
Implicit Types (hs rs : list AsyncObserveResult) (vs : list float64).
Implicit Types (evs : list event) (w : Runtime).

Lemma submit_job_eq s k o xi b row hs i j :
  submit_env s k o xi → xi !! i = Some b → b !! j = Some row →
  globals s !! "asyncresults" = Some (VHandles hs) →
  submit_job i j s
  = after_dispatch s hs (dispatch_run k o [(row, i)] (runtime s)).
Proof.
  intros (Hk & Ho & Hxi) Hb Hrow Hhs.
  unfold submit_job, read_kernel, read_spin, read_arrays.
  py_read Hk. py_read Ho. py_read Hxi. py_index Hb. py_index Hrow.
  rewrite bind_eq. unfold cudaq_observe_async, call.
  destruct (observe_async k o row i (runtime s)) as [[e|res] w1]; simpl.
  - rewrite app_nil_r, insert_id by done. done.
  - unfold append_handle, read_handles. py_read Hhs. done.
Qed.

Lemma submit_env_insert s k o xi v np w tr :
  submit_env s k o xi →
  submit_env (State (<["asyncresults" := v]> (globals s)) np w tr) k o xi.
Proof.
  intros (Hk & Ho & Hxi). unfold submit_env. simpl.
  by rewrite !lookup_insert_ne.
Qed.

Lemma dispatch_run_app k o js1 js2 w :
  dispatch_run k o (js1 ++ js2) w
  = let '(evs1, err1, w1) := dispatch_run k o js1 w in
    match err1 with
    | Some e => (evs1, Some e, w1)
    | None =>
        let '(evs2, err2, w2) := dispatch_run k o js2 w1 in
        (evs1 ++ evs2, err2, w2)
    end.
Proof.
  revert w; induction js1 as [|[row i] js1 IH]; intros w; simpl.
  - by destruct (dispatch_run k o js2 w) as [[evs2 err2] w2].
  - destruct (observe_async k o row i w) as [[e|res] w1]; [done|].
    rewrite IH.
    destruct (dispatch_run k o js1 w1) as [[evs1 [e|]] w2]; [done|].
    by destruct (dispatch_run k o js2 w2) as [[evs2 err2] w3].
Qed.

(** Running [js1] and then, from the state reached, [js2] is running
    [js1 ++ js2]. *)
Lemma after_dispatch_app s hs k o js1 js2 :
  match after_dispatch s hs (dispatch_run k o js1 (runtime s)) with
  | (inr _, s1) =>
      after_dispatch s1 (hs ++ handles_of (drop (length (trace s)) (trace s1)))
        (dispatch_run k o js2 (runtime s1))
  | (inl e, s1) => (inl e, s1)
  end
  = after_dispatch s hs (dispatch_run k o (js1 ++ js2) (runtime s)).
Proof.
  rewrite dispatch_run_app.
  destruct (dispatch_run k o js1 (runtime s)) as [[evs1 [e|]] w1]; simpl;
    [done|].
  rewrite drop_app_length.
  destruct (dispatch_run k o js2 w1) as [[evs2 err2] w2]; simpl.
  unfold handles_of. rewrite insert_insert_eq, omap_app, !app_assoc. done.
Qed.

(** The inner loop over the rows [a], [a+1], ... of batch [i] dispatches
    those rows in order, each to device [i]. *)
Lemma submit_rows_eq k o xi i b n : ∀ a s hs,
  submit_env s k o xi → xi !! i = Some b → a + n = length b →
  globals s !! "asyncresults" = Some (VHandles hs) →
  for_ (seq a n) (submit_job i) s
  = after_dispatch s hs
      (dispatch_run k o ((λ row, (row, i)) <$> drop a b) (runtime s)).
Proof.
  induction n as [|n IH]; intros a s hs Henv Hb Han Hhs.
  - rewrite drop_ge by lia. simpl.
    by rewrite !app_nil_r, insert_id, state_eta.
  - destruct (lookup_lt_is_Some_2 b a ltac:(lia)) as [row Hrow].
    rewrite (drop_S _ _ _ Hrow), fmap_cons.
    change ((row, i) :: ?l) with ([(row, i)] ++ l).
    rewrite <- after_dispatch_app.
    simpl for_. rewrite bind_eq, (submit_job_eq s k o xi b row hs) by done.
    destruct (after_dispatch s hs (dispatch_run k o [(row, i)] (runtime s)))
      as [[e|[]] s1] eqn:Hstep; [done|].
    assert (∃ res w1, s1 = State (<["asyncresults" := VHandles (hs ++ [res])]>
                                   (globals s)) (np_random_state s) w1
                                 (trace s ++ [EvObserveAsync k o row i (inr res)]))
      as (res & w1 & ->).
    { simpl in Hstep.
      destruct (observe_async k o row i (runtime s)) as [[e|res] w1];
        simpl in Hstep; [done|].
      injection Hstep as <-. eauto. }
    simpl. rewrite drop_app_length. simpl.
    apply IH; [by apply submit_env_insert|done|lia|].
    simpl. by rewrite lookup_insert_eq.
Qed.

Lemma jobs_from_cons a b l :
  jobs_from a (b :: l) = ((λ row, (row, a)) <$> b) ++ jobs_from (S a) l.
Proof.
  unfold jobs_from. rewrite imap_cons. simpl. rewrite Nat.add_0_r.
  f_equal. f_equal. apply imap_ext. intros i x _. simpl.
  apply list_fmap_ext. intros _ row _. f_equal. lia.
Qed.

Lemma jobs_from_0 xi : jobs xi = jobs_from 0 xi.
Proof. reflexivity. Qed.

Lemma submit_batch_eq s k o xi b hs i :
  submit_env s k o xi → xi !! i = Some b →
  globals s !! "asyncresults" = Some (VHandles hs) →
  submit_batch i s
  = after_dispatch s hs
      (dispatch_run k o ((λ row, (row, i)) <$> b) (runtime s)).
Proof.
  intros Henv Hb Hhs. pose proof Henv as (_ & _ & Hxi).
  unfold submit_batch, read_arrays. py_read Hxi. py_index Hb.
  unfold range. by rewrite (submit_rows_eq k o xi i b _ 0 s hs).
Qed.

(** The outer loop over the batches [a], [a+1], ... dispatches their rows
    batch after batch. *)
Lemma submit_batches_eq k o xi n : ∀ a s hs,
  submit_env s k o xi → a + n = length xi →
  globals s !! "asyncresults" = Some (VHandles hs) →
  for_ (seq a n) submit_batch s
  = after_dispatch s hs
      (dispatch_run k o (jobs_from a (drop a xi)) (runtime s)).
Proof.
  induction n as [|n IH]; intros a s hs Henv Han Hhs.
  - rewrite drop_ge by lia. simpl.
    by rewrite !app_nil_r, insert_id, state_eta.
  - destruct (lookup_lt_is_Some_2 xi a ltac:(lia)) as [b Hb].
    rewrite (drop_S _ _ _ Hb), jobs_from_cons, <- after_dispatch_app.
    simpl for_. rewrite bind_eq, (submit_batch_eq s k o xi b hs) by done.
    destruct (dispatch_run k o ((λ row, (row, a)) <$> b) (runtime s))
      as [[evs1 [e|]] w1]; simpl; [done|].
    rewrite drop_app_length.
    apply IH; [by apply submit_env_insert|lia|].
    simpl. by rewrite lookup_insert_eq.
Qed.

(** The submission loop dispatches [jobs xi]. *)
Lemma submit_loop_eq s k o xi hs :
  submit_env s k o xi →
  globals s !! "asyncresults" = Some (VHandles hs) →
  submit_loop s
  = after_dispatch s hs (dispatch_run k o (jobs xi) (runtime s)).
Proof.
  intros Henv Hhs. pose proof Henv as (_ & _ & Hxi).
  unfold submit_loop, read_arrays. py_read Hxi.
  unfold range. by rewrite (submit_batches_eq k o xi _ 0 s hs).
Qed.

Lemma collect_one_eq s vs res :
  globals s !! "expvals" = Some (VFloats vs) →
  collect_one res s = after_collect s vs (collect_run [res] (runtime s)).
Proof.
  intros Hvs. unfold collect_one, res_get, res_expectation_z, call.
  rewrite bind_eq. simpl collect_run.
  destruct (get res (runtime s)) as [[e|r] w1]; simpl.
  { by rewrite app_nil_r, insert_id. }
  rewrite bind_eq. simpl.
  destruct (expectation_z r w1) as [[e|v] w2]; simpl.
  { by rewrite app_nil_r, insert_id, <- app_assoc. }
  unfold append_float, read_floats. py_read Hvs.
  by rewrite <- app_assoc.
Qed.

Lemma collect_run_app rs1 rs2 w :
  collect_run (rs1 ++ rs2) w
  = let '(evs1, err1, w1) := collect_run rs1 w in
    match err1 with
    | Some e => (evs1, Some e, w1)
    | None =>
        let '(evs2, err2, w2) := collect_run rs2 w1 in
        (evs1 ++ evs2, err2, w2)
    end.
Proof.
  revert w; induction rs1 as [|res rs1 IH]; intros w; simpl.
  - by destruct (collect_run rs2 w) as [[evs2 err2] w2].
  - destruct (get res w) as [[e|r] w1]; [done|].
    destruct (expectation_z r w1) as [[e|v] w2]; [done|].
    rewrite IH.
    destruct (collect_run rs1 w2) as [[evs1 [e|]] w3]; [done|].
    by destruct (collect_run rs2 w3) as [[evs2 err2] w4].
Qed.

(** The collection loop blocks on the handles [rs] in order. *)
Lemma collect_each_eq rs : ∀ s vs,
  globals s !! "expvals" = Some (VFloats vs) →
  for_ rs collect_one s = after_collect s vs (collect_run rs (runtime s)).
Proof.
  induction rs as [|res rs IH]; intros s vs Hvs.
  - simpl. by rewrite !app_nil_r, insert_id, state_eta.
  - change (res :: rs) with ([res] ++ rs) at 2. rewrite collect_run_app.
    simpl for_. rewrite bind_eq, (collect_one_eq s vs) by done.
    destruct (collect_run [res] (runtime s)) as [[evs1 [e|]] w1]; simpl;
      [done|].
    rewrite (IH _ (vs ++ values_of evs1)) by (simpl; by rewrite lookup_insert_eq).
    simpl. destruct (collect_run rs w1) as [[evs2 err2] w2]; simpl.
    unfold values_of. by rewrite insert_insert_eq, omap_app, !app_assoc.
Qed.

Lemma collect_loop_eq s hs vs :
  globals s !! "asyncresults" = Some (VHandles hs) →
  globals s !! "expvals" = Some (VFloats vs) →
  collect_loop s = after_collect s vs (collect_run hs (runtime s)).
Proof.
  intros Hhs Hvs. unfold collect_loop, read_handles. py_read Hhs.
  by apply collect_each_eq.
Qed.

Lemma cell_async_eq s k o xi :
  submit_env s k o xi → cell_async s = async_result s k o xi.
Proof.
  intros Henv. unfold cell_async, async_result.
  rewrite bind_eq. simpl.
  rewrite bind_eq, (submit_loop_eq _ k o xi [])
    by (by apply submit_env_insert || (simpl; by rewrite lookup_insert_eq)).
  simpl.
  destruct (dispatch_run k o (jobs xi) (runtime s)) as [[evs1 [e|]] w1]; simpl.
  { by rewrite insert_insert_eq. }
  rewrite bind_eq. simpl.
  rewrite (collect_loop_eq _ (handles_of evs1) []); simpl.
  - destruct (collect_run (handles_of evs1) w1) as [[evs2 err2] w2]; simpl.
    by rewrite !insert_insert_eq, app_assoc.
  - by rewrite lookup_insert_ne, lookup_insert_eq.
  - by rewrite lookup_insert_eq.
Qed.

(** *** What a run of either loop looks like *)

Lemma handles_of_ok_dispatches k o js hs :
  length hs = length js → handles_of (ok_dispatches k o js hs) = hs.
Proof.
  revert hs; induction js as [|j js IH]; intros [|res hs] Hlen;
    simplify_eq/=; [done|].
  f_equal. by apply IH.
Qed.

Lemma jobs_of_ok_dispatches k o js hs :
  length hs = length js → jobs_of (ok_dispatches k o js hs) = js.
Proof.
  revert hs; induction js as [|[row i] js IH]; intros [|res hs] Hlen;
    simplify_eq/=; [done|].
  f_equal. by apply IH.
Qed.

Lemma ok_dispatches_not_failed k o js hs :
  Forall (λ ev, failed ev = false) (ok_dispatches k o js hs).
Proof.
  revert hs; induction js as [|j js IH]; intros [|res hs]; simpl;
    try constructor; [done|apply IH].
Qed.

Lemma blocked_on_ok_dispatches k o js hs :
  blocked_on (ok_dispatches k o js hs) = [].
Proof.
  revert hs; induction js as [|j js IH]; intros [|res hs]; simpl; auto.
Qed.

Lemma handles_of_resolve_events l : handles_of (resolve_events l) = [].
Proof. induction l as [|[[res r] v] l IH]; simpl; auto. Qed.

Lemma blocked_on_resolve_events l : blocked_on (resolve_events l) = l.*1.*1.
Proof. induction l as [|[[res r] v] l IH]; simpl; [done|]. by f_equal. Qed.

Lemma values_of_resolve_events l : values_of (resolve_events l) = l.*2.
Proof. induction l as [|[[res r] v] l IH]; simpl; [done|]. by f_equal. Qed.

Lemma resolve_events_not_failed l :
  Forall (λ ev, failed ev = false) (resolve_events l).
Proof.
  induction l as [|[[res r] v] l IH]; simpl; [constructor|].
  by repeat constructor.
Qed.

Lemma resolve_events_lookup l n res r v :
  l !! n = Some (res, r, v) →
  resolve_events l !! (2 * n) = Some (EvGet res (inr r))
  ∧ resolve_events l !! (2 * n + 1) = Some (EvExpectationZ r (inr v)).
Proof.
  revert n; induction l as [|[[res' r'] v'] l IH]; intros [|n] Hn;
    simplify_eq/=; [done|].
  replace (n + S (n + 0)) with (S (2 * n)) by lia.
  replace (n + S (n + 0) + 1) with (S (2 * n + 1)) by lia.
  by apply IH.
Qed.

(** A run without an error made one successful call per job. *)
Lemma dispatch_run_ok k o js w evs w' :
  dispatch_run k o js w = (evs, None, w') →
  length (handles_of evs) = length js
  ∧ evs = ok_dispatches k o js (handles_of evs).
Proof.
  revert w evs; induction js as [|[row i] js IH]; intros w evs Hrun;
    simpl in Hrun.
  - by simplify_eq.
  - destruct (observe_async k o row i w) as [[e|res] w1]; [done|].
    destruct (dispatch_run k o js w1) as [[evs1 err1] w2] eqn:Hrest.
    simplify_eq. destruct (IH _ _ Hrest) as [Hlen Hevs]. simpl.
    split; [by f_equal|]. unfold ok_dispatches. simpl. by f_equal.
Qed.

(** A run with an error stopped at the first job whose call raised: the
    calls before it returned handles, its call is the last of the run. *)
Lemma dispatch_run_raised k o js w evs e w' :
  dispatch_run k o js w = (evs, Some e, w') →
  ∃ done j rest,
    js = done ++ j :: rest
    ∧ length (handles_of evs) = length done
    ∧ evs = ok_dispatches k o done (handles_of evs)
              ++ [EvObserveAsync k o j.1 j.2 (inl e)].
Proof.
  revert w evs; induction js as [|[row i] js IH]; intros w evs Hrun;
    simpl in Hrun; [done|].
  destruct (observe_async k o row i w) as [[e'|res] w1].
  - simplify_eq. by exists [], (row, i), js.
  - destruct (dispatch_run k o js w1) as [[evs1 err1] w2] eqn:Hrest.
    simplify_eq. destruct (IH _ _ Hrest) as (done & j & rest & -> & Hlen & Hevs).
    exists ((row, i) :: done), j, rest. simpl.
    split; [done|]. split; [by f_equal|].
    unfold ok_dispatches. simpl. f_equal. exact Hevs.
Qed.

Lemma collect_run_ok rs w evs w' :
  collect_run rs w = (evs, None, w') →
  ∃ l, l.*1.*1 = rs ∧ evs = resolve_events l.
Proof.
  revert w evs; induction rs as [|res rs IH]; intros w evs Hrun;
    simpl in Hrun.
  - simplify_eq. by exists [].
  - destruct (get res w) as [[e|r] w1]; [done|].
    destruct (expectation_z r w1) as [[e|v] w2]; [done|].
    destruct (collect_run rs w2) as [[evs1 err1] w3] eqn:Hrest.
    simplify_eq. destruct (IH _ _ Hrest) as (l & <- & ->).
    by exists ((res, r, v) :: l).
Qed.

Lemma collect_run_raised rs w evs e w' :
  collect_run rs w = (evs, Some e, w') →
  ∃ l res rest,
    rs = l.*1.*1 ++ res :: rest
    ∧ (evs = resolve_events l ++ [EvGet res (inl e)]
       ∨ ∃ r, evs = resolve_events l
                      ++ [EvGet res (inr r); EvExpectationZ r (inl e)]).
Proof.
  revert w evs; induction rs as [|res rs IH]; intros w evs Hrun;
    simpl in Hrun; [done|].
  destruct (get res w) as [[e'|r] w1].
  { simplify_eq. exists [], res, rs. split; [done|]. by left. }
  destruct (expectation_z r w1) as [[e'|v] w2].
  { simplify_eq. exists [], res, rs. split; [done|]. right. by exists r. }
  destruct (collect_run rs w2) as [[evs1 err1] w3] eqn:Hrest.
  simplify_eq.
  destruct (IH _ _ Hrest) as (l & res' & rest & -> & Hevs).
  exists ((res, r, v) :: l), res', rest. split; [done|].
  destruct Hevs as [->|[r' ->]]; [by left|right; by exists r'].
Qed.

Lemma length_jobs_from a xi :
  length (jobs_from a xi) = sum_list (length <$> xi).
Proof.
  revert a; induction xi as [|b xi IH]; intros a; [done|].
  rewrite jobs_from_cons, length_app, length_fmap, IH. done.
Qed.

Lemma length_jobs xi : length (jobs xi) = sum_list (length <$> xi).
Proof. rewrite jobs_from_0. apply length_jobs_from. Qed.

(** A run of the cell that ends without an exception: every job was
    dispatched and returned a handle, every handle was resolved, in the same
    order. *)
Lemma cell_async_complete s k o xi s' :
  submit_env s k o xi → cell_async s = (inr tt, s') →
  ∃ hs l,
    length hs = length (jobs xi) ∧ l.*1.*1 = hs
    ∧ trace s' = trace s ++ ok_dispatches k o (jobs xi) hs ++ resolve_events l
    ∧ globals s'
      = <["expvals" := VFloats l.*2]>
          (<["asyncresults" := VHandles hs]> (globals s)).
Proof.
  intros Henv. rewrite (cell_async_eq s k o xi Henv). unfold async_result.
  destruct (dispatch_run k o (jobs xi) (runtime s)) as [[evs1 [e|]] w1]
    eqn:Hsub; [done|].
  destruct (collect_run (handles_of evs1) w1) as [[evs2 [e|]] w2]
    eqn:Hcol; [done|].
  intros [= <-]. simpl.
  destruct (dispatch_run_ok _ _ _ _ _ _ Hsub) as [Hlen Hevs1].
  destruct (collect_run_ok _ _ _ _ Hcol) as (l & Hl & ->).
  exists (handles_of evs1), l. rewrite values_of_resolve_events.
  by rewrite <- Hevs1.
Qed.

(** C2.  When the asynchronous cell ends without an exception, [expvals]
    holds as many expectation values as [asyncresults] holds handles, and
    that is the number of rows of all batches of [xi]. *)
Theorem async_counts s k o xi s' :
  submit_env s k o xi → cell_async s = (inr tt, s') →
  ∃ hs vs,
    globals s' !! "asyncresults" = Some (VHandles hs)
    ∧ globals s' !! "expvals" = Some (VFloats vs)
    ∧ length vs = length hs
    ∧ length hs = sum_list (length <$> xi).
Proof.
  intros Henv Hrun.
  destruct (cell_async_complete s k o xi s' Henv Hrun)
    as (hs & l & Hlen & Hl & _ & Hg).
  exists hs, l.*2. rewrite Hg.
  rewrite lookup_insert_ne, !lookup_insert_eq by done.
  repeat split; [|by rewrite Hlen, length_jobs].
  by rewrite <- Hl, !length_fmap.
Qed.

(** C3.  Results are retrieved in submission order.  When the cell ends
    without an exception its history is the dispatch calls for [jobs xi] in
    order followed by one retrieval per handle in order of [asyncresults]:
    the handles the dispatches returned and the handles the retrievals
    block on are the same list; the [n]-th handle of [asyncresults] is the
    one the [n]-th dispatch call returned, the [n]-th retrieval blocks on
    it, and the [n]-th element of [expvals] is the expectation value that
    retrieval read. *)
Theorem async_submission_order s k o xi s' :
  submit_env s k o xi → cell_async s = (inr tt, s') →
  ∃ hs vs l,
    globals s' !! "asyncresults" = Some (VHandles hs)
    ∧ globals s' !! "expvals" = Some (VFloats vs)
    ∧ l.*1.*1 = hs ∧ l.*2 = vs
    ∧ trace s' = trace s ++ ok_dispatches k o (jobs xi) hs ++ resolve_events l
    ∧ handles_of (ok_dispatches k o (jobs xi) hs ++ resolve_events l) = hs
    ∧ blocked_on (ok_dispatches k o (jobs xi) hs ++ resolve_events l) = hs
    ∧ ∀ n res, hs !! n = Some res →
        ∃ j r v,
          jobs xi !! n = Some j ∧ vs !! n = Some v
          ∧ trace s' !! (length (trace s) + n) = Some (ok_dispatch k o j res)
          ∧ trace s' !! (length (trace s) + length hs + 2 * n)
            = Some (EvGet res (inr r))
          ∧ trace s' !! (length (trace s) + length hs + 2 * n + 1)
            = Some (EvExpectationZ r (inr v)).
Proof.
  intros Henv Hrun.
  destruct (cell_async_complete s k o xi s' Henv Hrun)
    as (hs & l & Hlen & Hl & Htr & Hg).
  exists hs, l.*2, l. rewrite Hg.
  rewrite lookup_insert_ne, !lookup_insert_eq by done.
  do 5 (split; [done|]).
  split.
  { unfold handles_of. rewrite omap_app.
    fold (handles_of (ok_dispatches k o (jobs xi) hs)).
    fold (handles_of (resolve_events l)).
    by rewrite handles_of_ok_dispatches, handles_of_resolve_events, app_nil_r. }
  split.
  { unfold blocked_on. rewrite omap_app.
    fold (blocked_on (ok_dispatches k o (jobs xi) hs)).
    fold (blocked_on (resolve_events l)).
    by rewrite blocked_on_ok_dispatches, blocked_on_resolve_events. }
  intros n res Hn.
  destruct (lookup_lt_is_Some_2 (jobs xi) n) as [j Hj].
  { rewrite <- Hlen. by eapply lookup_lt_Some. }
  assert (∃ r v, l !! n = Some (res, r, v)) as (r & v & Hln).
  { rewrite <- Hl, !list_lookup_fmap in Hn.
    destruct (l !! n) as [[[res' r] v]|]; simplify_eq/=. eauto. }
  assert (length (ok_dispatches k o (jobs xi) hs) = length hs) as Hdl.
  { unfold ok_dispatches. rewrite length_zip_with. lia. }
  exists j, r, v. split; [done|]. split.
  { by rewrite list_lookup_fmap, Hln. }
  rewrite Htr.
  destruct (resolve_events_lookup l n res r v Hln) as [Hget Hexp].
  pose proof (lookup_lt_Some _ _ _ Hn) as Hlt.
  split; [|split].
  - rewrite lookup_app_r, lookup_app_l by (rewrite ?Hdl; lia).
    replace (length (trace s) + n - length (trace s)) with n by lia.
    unfold ok_dispatches. by rewrite lookup_zip_with, Hj, Hn.
  - rewrite lookup_app_r, lookup_app_r by (rewrite ?Hdl; lia).
    rewrite Hdl, <- Hget. f_equal. lia.
  - rewrite lookup_app_r, lookup_app_r by (rewrite ?Hdl; lia).
    rewrite Hdl, <- Hexp. f_equal. lia.
Qed.

(** *** The jobs of a list of batches *)

Lemma jobs_from_lookup a xi i b j row :
  xi !! i = Some b → b !! j = Some row →
  jobs_from a xi !! (sum_list (length <$> take i xi) + j) = Some (row, a + i).
Proof.
  revert a i; induction xi as [|b0 xi IH]; intros a [|i] Hb Hrow;
    simplify_eq/=; rewrite jobs_from_cons.
  - rewrite lookup_app_l by
      (rewrite length_fmap; by eapply lookup_lt_Some).
    by rewrite list_lookup_fmap, Hrow, Nat.add_0_r.
  - rewrite lookup_app_r by (rewrite length_fmap; unfold id; lia).
    rewrite length_fmap.
    replace (id (length b0) + sum_list (length <$> take i xi) + j
             - length b0)
      with (sum_list (length <$> take i xi) + j) by (unfold id; lia).
    rewrite (IH (S a) i) by done. do 2 f_equal. lia.
Qed.

Lemma elem_of_jobs_from a xi row q :
  (row, q) ∈ jobs_from a xi
  ↔ ∃ i b, q = a + i ∧ xi !! i = Some b ∧ row ∈ b.
Proof.
  revert a; induction xi as [|b0 xi IH]; intros a.
  - unfold jobs_from. simpl. split; [by intros ?%elem_of_nil|].
    by intros (i & b & _ & ? & _).
  - rewrite jobs_from_cons, elem_of_app, list_elem_of_fmap, IH. split.
    + intros [(row' & [= <- ->] & Hin)|(i & b & -> & Hb & Hin)].
      * exists 0, b0. by rewrite Nat.add_0_r.
      * exists (S i), b. split; [lia|done].
    + intros ([|i] & b & -> & Hb & Hin); simplify_eq/=.
      * left. exists row. by rewrite Nat.add_0_r.
      * right. exists i, b. split; [lia|done].
Qed.

Lemma elem_of_jobs xi row q :
  (row, q) ∈ jobs xi ↔ ∃ b, xi !! q = Some b ∧ row ∈ b.
Proof.
  rewrite jobs_from_0, elem_of_jobs_from. split.
  - intros (i & b & -> & Hb & Hin). eauto.
  - intros (b & Hb & Hin). by exists q, b.
Qed.

(** The devices the jobs of [xi] name are batch indices; each batch that
    has a row contributes its index. *)
Lemma job_devices xi :
  Forall (λ b, b ≠ []) xi →
  list_to_set (jobs xi).*2 = (set_seq 0 (length xi) : gset nat).
Proof.
  intros Hne. apply set_eq. intros q.
  rewrite elem_of_list_to_set, list_elem_of_fmap, elem_of_set_seq. split.
  - intros ([row q'] & -> & Hin). simpl.
    apply elem_of_jobs in Hin as (b & Hb & _).
    apply lookup_lt_Some in Hb. lia.
  - intros [_ Hq]. destruct (lookup_lt_is_Some_2 xi q) as [b Hb]; [lia|].
    pose proof (Forall_lookup_1 _ _ _ _ Hne Hb) as Hbne.
    destruct b as [|row b]; [done|].
    exists (row, q). split; [done|].
    apply elem_of_jobs. exists (row :: b). split; [done|]. by left.
Qed.

(** C6.  The submission loop partitions the work across device
    identifiers.  When it ends without an exception the jobs it created are
    the rows of [xi] batch by batch, the job made from row [j] of batch [i]
    is tagged with [qpu_id = i], a job tagged [q] carries a row of batch
    [q], and for batches that all have rows, as those [np.split] returns
    for a non-empty parameter array, the device identifiers used are
    exactly [0], ..., [len(xi) - 1]. *)
Theorem submit_loop_devices s k o xi hs0 s' :
  submit_env s k o xi →
  globals s !! "asyncresults" = Some (VHandles hs0) →
  submit_loop s = (inr tt, s') →
  ∃ evs,
    trace s' = trace s ++ evs
    ∧ jobs_of evs = jobs xi
    ∧ (∀ i b j row, xi !! i = Some b → b !! j = Some row →
         jobs_of evs !! (sum_list (length <$> take i xi) + j)
         = Some (row, i))
    ∧ (∀ row q, (row, q) ∈ jobs_of evs → ∃ b, xi !! q = Some b ∧ row ∈ b)
    ∧ (Forall (λ b, b ≠ []) xi →
         list_to_set (jobs_of evs).*2 = (set_seq 0 (length xi) : gset nat))
    ∧ (∀ parameters sections,
         Numpy.split parameters sections = inr xi → parameters ≠ [] →
         list_to_set (jobs_of evs).*2 = (set_seq 0 (length xi) : gset nat)).
Proof.
  intros Henv Hhs. rewrite (submit_loop_eq s k o xi hs0 Henv Hhs).
  destruct (dispatch_run k o (jobs xi) (runtime s)) as [[evs [e|]] w1]
    eqn:Hsub; [done|].
  intros [= <-]. simpl. exists evs. split; [done|].
  destruct (dispatch_run_ok _ _ _ _ _ _ Hsub) as [Hlen Hevs].
  assert (jobs_of evs = jobs xi) as ->.
  { rewrite Hevs. by apply jobs_of_ok_dispatches. }
  split; [done|]. split.
  { intros i b j row Hb Hrow. rewrite jobs_from_0.
    by rewrite (jobs_from_lookup 0 xi i b j row). }
  split; [intros row q; apply elem_of_jobs|].
  split; [apply job_devices|].
  intros parameters sections Hsplit Hne.
  apply job_devices. by eapply split_nonempty.
Qed.

(** C7.  The driver has no recovery of its own.  A run of the
    asynchronous cell raises only when a runtime call raised, and then with
    that call's error; the failing call is the last call made, so nothing
    was retried or skipped over; when a dispatch raised, [asyncresults]
    holds the handles of the dispatches before it and nothing else was
    bound; when a retrieval raised, [expvals] holds the values read before
    it.  A run that ends normally made no failing call. *)
Theorem async_exception_propagates s k o xi r s' :
  submit_env s k o xi → cell_async s = (r, s') →
  ∃ evs,
    trace s' = trace s ++ evs
    ∧ match r with
      | inr _ => Forall (λ ev, failed ev = false) evs
      | inl e =>
          ∃ e0, e = LibraryError e0
          ∧ ((∃ done j rest hs,
                jobs xi = done ++ j :: rest ∧ length hs = length done
                ∧ evs = ok_dispatches k o done hs
                          ++ [EvObserveAsync k o j.1 j.2 (inl e0)]
                ∧ globals s'
                  = <["asyncresults" := VHandles hs]> (globals s))
             ∨ (∃ hs l res rest,
                  length hs = length (jobs xi)
                  ∧ hs = l.*1.*1 ++ res :: rest
                  ∧ (evs = ok_dispatches k o (jobs xi) hs
                             ++ resolve_events l ++ [EvGet res (inl e0)]
                     ∨ ∃ r0,
                         evs = ok_dispatches k o (jobs xi) hs
                                 ++ resolve_events l
                                 ++ [EvGet res (inr r0);
                                     EvExpectationZ r0 (inl e0)])
                  ∧ globals s'
                    = <["expvals" := VFloats l.*2]>
                        (<["asyncresults" := VHandles hs]> (globals s))))
      end.
Proof.
  intros Henv. rewrite (cell_async_eq s k o xi Henv). unfold async_result.
  destruct (dispatch_run k o (jobs xi) (runtime s)) as [[evs1 [e|]] w1]
    eqn:Hsub.
  { intros [= <- <-]. simpl. exists evs1. split; [done|].
    destruct (dispatch_run_raised _ _ _ _ _ _ _ Hsub)
      as (done & j & rest & Hjobs & Hlen & Hevs).
    exists e. split; [done|]. left.
    by exists done, j, rest, (handles_of evs1). }
  destruct (dispatch_run_ok _ _ _ _ _ _ Hsub) as [Hlen Hevs1].
  destruct (collect_run (handles_of evs1) w1) as [[evs2 [e|]] w2] eqn:Hcol.
  - intros [= <- <-]. simpl. exists (evs1 ++ evs2). split; [done|].
    destruct (collect_run_raised _ _ _ _ _ Hcol)
      as (l & res & rest & Hhs & Hevs2).
    exists e. split; [done|]. right.
    exists (handles_of evs1), l, res, rest.
    split; [done|]. split; [done|]. split.
    + rewrite <- Hevs1.
      destruct Hevs2 as [->|[r0 ->]]; [by left|right; by exists r0].
    + f_equal. f_equal.
      destruct Hevs2 as [->|[r0 ->]]; unfold values_of;
        rewrite omap_app; fold (values_of (resolve_events l));
        rewrite values_of_resolve_events; simpl; by rewrite app_nil_r.
  - intros [= <- <-]. simpl. exists (evs1 ++ evs2). split; [done|].
    destruct (collect_run_ok _ _ _ _ Hcol) as (l & _ & ->).
    rewrite Hevs1. apply Forall_app. split.
    + apply ok_dispatches_not_failed.
    + apply resolve_events_not_failed.
Qed.

End DriverFacts.

(** ** Parameter generation *)

Section GenerationFacts.
Import Cudaq.
Context `{V : Vendor}.
Implicit Types (s : state) (g : BitGenerator).

Lemma draw_row_length low high m g : length (draw_row low high m g).1 = m.
Proof.
  revert g; induction m as [|m IH]; intros g; simpl; [done|].
  destruct (uniform low high g) as [x g1]. specialize (IH g1).
  destruct (draw_row low high m g1) as [xs g2]. simpl in *. by f_equal.
Qed.

Lemma draw_rows_shape low high n m g :
  Numpy.has_shape (draw_rows low high n m g).1 n m.
Proof.
  revert g; induction n as [|n IH]; intros g; simpl.
  { split; [done|constructor]. }
  pose proof (draw_row_length low high m g) as Hrow.
  destruct (draw_row low high m g) as [row g1]. specialize (IH g1).
  destruct (draw_rows low high n m g1) as [rows g2]. simpl in *.
  destruct IH as [Hlen Hrows]. split; simpl; [by f_equal|by constructor].
Qed.

Lemma rng_uniform_shape g low high n m :
  Numpy.has_shape (rng_uniform g low high (n, m)) n m.
Proof. apply draw_rows_shape. Qed.

Lemma read_int_eq s name n :
  globals s !! name = Some (VInt n) → read_int name s = (inr n, s).
Proof. intros Hn. unfold read_int. by py_read Hn. Qed.

Lemma gen_parameters_eq s ns np :
  globals s !! "n_samples" = Some (VInt ns) →
  globals s !! "n_parameters" = Some (VInt np) →
  gen_parameters s
  = (inr tt,
     State (<["parameters" :=
               VArray (rng_uniform (default_rng 13) 0 1 (ns, np))]>
              (globals s))
           (np_random_state s) (runtime s) (trace s)).
Proof.
  intros Hns Hnp. unfold gen_parameters.
  rewrite bind_eq, (read_int_eq s _ ns Hns).
  rewrite bind_eq, (read_int_eq s _ np Hnp). done.
Qed.

Lemma gen_rxyz_kernel_eq s name n :
  globals s !! "n_qubits" = Some (VInt n) →
  gen_rxyz_kernel name s
  = (inr tt,
     State (<[name := VKernel (build_rxyz_kernel n)]> (globals s))
           (np_random_state s) (runtime s) (trace s)).
Proof.
  intros Hn. unfold gen_rxyz_kernel. by rewrite bind_eq, (read_int_eq s _ n Hn).
Qed.

Lemma gen_rx_kernel_eq s name n :
  globals s !! "n_qubits" = Some (VInt n) →
  gen_rx_kernel name s
  = (inr tt,
     State (<[name := VKernel (build_rx_kernel n)]> (globals s))
           (np_random_state s) (runtime s) (trace s)).
Proof.
  intros Hn. unfold gen_rx_kernel. by rewrite bind_eq, (read_int_eq s _ n Hn).
Qed.

Lemma np_random_seed_eq seed s :
  np_random_seed seed s
  = (inr tt,
     State (globals s) (Some (legacy_seed seed)) (runtime s) (trace s)).
Proof. reflexivity. Qed.

Lemma scaling_setup_eq s :
  scaling_setup s
  = (inr tt,
     State (scaling_globals (globals s)) (Some (legacy_seed 1)) (runtime s)
           (trace s)).
Proof.
  unfold scaling_setup. do 3 py_assign.
  rewrite bind_eq, (read_int_eq _ _ 20) by lookup_solve.
  py_assign.
  rewrite bind_eq, (gen_parameters_eq _ 1000 60) by lookup_solve. py_proj.
  rewrite bind_eq, np_random_seed_eq. py_proj.
  rewrite (gen_rxyz_kernel_eq _ _ 20) by lookup_solve. done.
Qed.

Lemma cell_hamiltonian_eq s :
  cell_hamiltonian s
  = (inr tt,
     State (hamiltonian_globals (globals s)) (Some (legacy_seed 1))
           (runtime s) (trace s)).
Proof.
  unfold cell_hamiltonian. do 3 py_assign.
  rewrite bind_eq, (read_int_eq _ _ 10) by lookup_solve.
  py_assign.
  rewrite bind_eq, (gen_parameters_eq _ 1000 30) by lookup_solve. py_proj.
  rewrite bind_eq, np_random_seed_eq. py_proj.
  rewrite (gen_rxyz_kernel_eq _ _ 10) by lookup_solve. done.
Qed.

Lemma cell_kernels_eq s :
  cell_kernels s
  = match set_target "nvidia-mgpu" (runtime s) with
    | (inr u, w) =>
        (inr tt,
         State (kernels_globals (globals s)) (Some (legacy_seed 1)) w
               (trace s ++ [EvSetTarget "nvidia-mgpu" (inr u)]))
    | (inl e, w) =>
        (inl (LibraryError e),
         State (globals s) (np_random_state s) w
               (trace s ++ [EvSetTarget "nvidia-mgpu" (inl e)]))
    end.
Proof.
  unfold cell_kernels. rewrite bind_eq. unfold cudaq_set_target, call.
  destruct (set_target "nvidia-mgpu" (runtime s)) as [[e|u] w]; [done|].
  do 3 py_assign.
  rewrite bind_eq, (read_int_eq _ _ 10) by lookup_solve.
  py_assign.
  rewrite bind_eq, (gen_parameters_eq _ 500 10) by lookup_solve. py_proj.
  rewrite bind_eq, np_random_seed_eq. py_proj.
  rewrite bind_eq, (gen_rx_kernel_eq _ _ 10) by lookup_solve. py_proj.
  rewrite (gen_rx_kernel_eq _ _ 10) by lookup_solve. done.
Qed.

(** *** Statements that only call the runtime *)

Lemma emits_comprehension {X Y : Type} (P : event → Prop)
    (Q : gmap string value → Prop) (f : X → Py Y) (l : list X) :
  (∀ x s, Q (globals s) → emits P (f x) s) →
  ∀ s, Q (globals s) → emits P (comprehension l f) s.
Proof.
  intros Hf. induction l as [|x l IH]; intros s HQ.
  { split; [done|]. exists []. by rewrite app_nil_r. }
  destruct (Hf x s HQ) as (Hg1 & evs1 & Htr1 & Hevs1).
  unfold emits. simpl comprehension. rewrite bind_eq.
  destruct (f x s) as [[e|y] s1]; simpl in *.
  { split; [done|]. by exists evs1. }
  destruct (IH s1) as (Hg2 & evs2 & Htr2 & Hevs2); [by rewrite Hg1|].
  rewrite bind_eq.
  destruct (comprehension l f s1) as [[e|ys] s2]; simpl in *.
  all: split; [congruence|]; exists (evs1 ++ evs2);
    rewrite Htr2, Htr1, app_assoc; split; [done|by apply Forall_app].
Qed.

Lemma observe_row_emits k p i s :
  rows_env "kernel" (globals s) k p →
  emits consistent_event (observe_row i) s.
Proof.
  intros ([o Ho] & Hk & Hp & Hrows). unfold emits, observe_row.
  unfold read_kernel, read_spin, read_array.
  py_read Hk. py_read Ho. py_read Hp. rewrite bind_eq. unfold index.
  destruct (p !! i) as [row|] eqn:Hrow; simpl.
  2:{ split; [done|]. exists []. by rewrite app_nil_r. }
  unfold cudaq_observe, call.
  destruct (observe k o row (runtime s)) as [[e|r] w]; simpl.
  all: split; [done|]; eexists; split; [done|]; repeat constructor;
    unfold consistent_event; simpl;
    apply (Forall_lookup_1 _ _ _ _ Hrows Hrow).
Qed.

Lemma observe_async_row_emits kname q k p i s :
  rows_env kname (globals s) k p →
  emits consistent_event (observe_async_row kname q i) s.
Proof.
  intros ([o Ho] & Hk & Hp & Hrows). unfold emits, observe_async_row.
  unfold read_kernel, read_spin, read_array.
  py_read Hk. py_read Ho. py_read Hp. rewrite bind_eq. unfold index.
  destruct (p !! i) as [row|] eqn:Hrow; simpl.
  2:{ split; [done|]. exists []. by rewrite app_nil_r. }
  unfold cudaq_observe_async, call.
  destruct (observe_async k o row q (runtime s)) as [[e|r] w]; simpl.
  all: split; [done|]; eexists; split; [done|]; repeat constructor;
    unfold consistent_event; simpl;
    apply (Forall_lookup_1 _ _ _ _ Hrows Hrow).
Qed.

Lemma observe_all_emits k p s :
  rows_env "kernel" (globals s) k p →
  emits consistent_event observe_all s.
Proof.
  intros Henv. pose proof Henv as (_ & _ & Hp & _).
  unfold emits, observe_all, read_array. py_read Hp.
  apply (emits_comprehension _ (λ m, rows_env "kernel" m k p)); [|done].
  intros i s0. apply observe_row_emits.
Qed.

Lemma observe_async_all_emits kname q k p s :
  rows_env kname (globals s) k p →
  emits consistent_event (observe_async_all kname q) s.
Proof.
  intros Henv. pose proof Henv as (_ & _ & Hp & _).
  unfold emits, observe_async_all, read_array. py_read Hp.
  apply (emits_comprehension _ (λ m, rows_env kname m k p)); [|done].
  intros i s0. apply observe_async_row_emits.
Qed.

Lemma rxyz_20_params : param_count (build_rxyz_kernel 20) = 60.
Proof. vm_compute. reflexivity. Qed.

Lemma rxyz_10_params : param_count (build_rxyz_kernel 10) = 30.
Proof. vm_compute. reflexivity. Qed.

Lemma rx_10_params : param_count (build_rx_kernel 10) = 10.
Proof. vm_compute. reflexivity. Qed.

Lemma seeded_parameters_shape n m :
  Numpy.has_shape (seeded_parameters n m) n m.
Proof. apply rng_uniform_shape. Qed.

Lemma scaling_rows_env (m : gmap string value) :
  rows_env "kernel" (scaling_globals m) (build_rxyz_kernel 20)
    (seeded_parameters 1000 60).
Proof.
  unfold rows_env, scaling_globals. split; [|split; [|split]].
  - exists (spin_z 0). lookup_solve.
  - lookup_solve.
  - lookup_solve.
  - rewrite rxyz_20_params. apply seeded_parameters_shape.
Qed.

(** Whether the dispatches of the 20-qubit cell raise or not, the cell
    leaves [parameters] bound to the array it generated. *)
Lemma cell_scaling_parameters s :
  globals (cell_scaling s).2 !! "parameters"
  = Some (VArray (seeded_parameters 1000 60)).
Proof.
  unfold cell_scaling. rewrite bind_eq, scaling_setup_eq, bind_eq.
  match goal with |- context [observe_all ?s1] =>
    destruct (observe_all_emits _ _ s1 (scaling_rows_env (globals s)))
      as (Hg & _); destruct (observe_all s1) as [[e|vals] s2]
  end; simpl in *; rewrite Hg; unfold scaling_globals; lookup_solve.
Qed.

(** C4.  Parameter generation is deterministic under the fixed seed: two
    runs of the generating statement in any two interpreter states that
    agree on [n_samples] and [n_parameters] bind [parameters] to the same
    array, of shape [(n_samples, n_parameters)]; so do two runs of the
    20-qubit cell and two runs of the 10-qubit cell, whatever the states
    they start in. *)
Theorem parameters_deterministic s1 s2 :
  (∀ ns np,
     globals s1 !! "n_samples" = Some (VInt ns) →
     globals s1 !! "n_parameters" = Some (VInt np) →
     globals s2 !! "n_samples" = Some (VInt ns) →
     globals s2 !! "n_parameters" = Some (VInt np) →
     ∃ p, Numpy.has_shape p ns np
          ∧ (gen_parameters s1).1 = inr tt
          ∧ (gen_parameters s2).1 = inr tt
          ∧ globals (gen_parameters s1).2 !! "parameters" = Some (VArray p)
          ∧ globals (gen_parameters s2).2 !! "parameters" = Some (VArray p))
  ∧ (∃ p, Numpy.has_shape p 1000 60
          ∧ globals (cell_scaling s1).2 !! "parameters" = Some (VArray p)
          ∧ globals (cell_scaling s2).2 !! "parameters" = Some (VArray p))
  ∧ (∃ p, Numpy.has_shape p 1000 30
          ∧ globals (cell_hamiltonian s1).2 !! "parameters" = Some (VArray p)
          ∧ globals (cell_hamiltonian s2).2 !! "parameters"
            = Some (VArray p)).
Proof.
  split; [|split].
  - intros ns np H1s H1p H2s H2p. exists (seeded_parameters ns np).
    rewrite (gen_parameters_eq s1 ns np), (gen_parameters_eq s2 ns np)
      by done.
    simpl. rewrite !lookup_insert_eq.
    split; [apply seeded_parameters_shape|done].
  - exists (seeded_parameters 1000 60).
    split; [apply seeded_parameters_shape|].
    by rewrite !cell_scaling_parameters.
  - exists (seeded_parameters 1000 30).
    split; [apply seeded_parameters_shape|].
    rewrite !cell_hamiltonian_eq. unfold hamiltonian_globals.
    split; lookup_solve.
Qed.

End GenerationFacts.

(** ** Shape consistency of the dispatch calls *)

Section ShapeFacts.
Import Cudaq.
Context `{V : Vendor}.
Implicit Types (s : state) (k : kernel) (o : spin_op).
Implicit Types (xi : list (list (list float64))).

Lemma dispatch_run_consistent k o js w :
  Forall (λ j : list float64 * nat, length j.1 = param_count k) js →
  dispatch_consistent (dispatch_run k o js w).1.1.
Proof.
  revert w; induction js as [|[row i] js IH]; intros w Hjs; simpl.
  { constructor. }
  apply Forall_cons in Hjs as [Hrow Hjs].
  destruct (observe_async k o row i w) as [[e|res] w1]; simpl.
  { by repeat constructor. }
  specialize (IH w1 Hjs).
  destruct (dispatch_run k o js w1) as [[evs err] w2]. simpl in *.
  by constructor.
Qed.

Lemma collect_run_consistent rs w :
  dispatch_consistent (collect_run rs w).1.1.
Proof.
  revert w; induction rs as [|res rs IH]; intros w; simpl.
  { constructor. }
  destruct (get res w) as [[e|r] w1]; simpl.
  { by repeat constructor. }
  destruct (expectation_z r w1) as [[e|v] w2]; simpl.
  { by repeat constructor. }
  specialize (IH w2).
  destruct (collect_run rs w2) as [[evs err] w3]. simpl in *.
  by repeat constructor.
Qed.

Lemma jobs_rows (P : list float64 → Prop) xi :
  Forall (Forall P) xi → Forall (λ j, P j.1) (jobs xi).
Proof.
  intros Hxi. apply Forall_forall. intros [row q] Hin.
  apply elem_of_jobs in Hin as (b & Hb & Hrow). simpl.
  pose proof (Forall_lookup_1 _ _ _ _ Hxi Hb) as Hrows.
  by apply (proj1 (Forall_forall _ _) Hrows).
Qed.

(** The asynchronous cell on batches whose rows fit the kernel. *)
Lemma cell_async_consistent s k o xi :
  submit_env s k o xi →
  Forall (Forall (λ row, length row = param_count k)) xi →
  ∃ evs, trace (cell_async s).2 = trace s ++ evs ∧ dispatch_consistent evs.
Proof.
  intros Henv Hxi. rewrite (cell_async_eq s k o xi Henv).
  unfold async_result.
  pose proof (dispatch_run_consistent k o (jobs xi) (runtime s)
                (jobs_rows _ xi Hxi)) as H1.
  destruct (dispatch_run k o (jobs xi) (runtime s)) as [[evs1 [e|]] w1];
    simpl in *.
  { by exists evs1. }
  pose proof (collect_run_consistent (handles_of evs1) w1) as H2.
  destruct (collect_run (handles_of evs1) w1) as [[evs2 err2] w2];
    simpl in *.
  exists (evs1 ++ evs2). split; [done|]. by apply Forall_app.
Qed.

Lemma cell_split_eq s p xi :
  globals s !! "parameters" = Some (VArray p) →
  Numpy.split p 4 = inr xi →
  cell_split s
  = (inr tt,
     State (<["xi" := VArrays xi]> (globals s)) (np_random_state s)
           (runtime s) (trace s)).
Proof.
  intros Hp Hsplit. unfold cell_split, read_array, read_arrays.
  py_read Hp. py_read Hp. rewrite bind_eq. unfold np_split.
  rewrite Hsplit. simpl. py_assign.
  destruct (split_lengths _ _ _ Hsplit) as [Hlen _].
  destruct xi as [|b xi]; [done|].
  assert (<["xi" := VArrays (b :: xi)]> (globals s) !! "xi"
          = Some (VArrays (b :: xi))) as Hxi by apply lookup_insert_eq.
  py_read Hxi. py_read Hxi. done.
Qed.

(** The batches [np.split] returns keep the rows of the array. *)
Lemma split_rows (P : list float64 → Prop) p sections xi :
  Numpy.split p sections = inr xi → Forall P p → Forall (Forall P) xi.
Proof.
  intros Hsplit Hp. apply Forall_concat.
  by rewrite <- (split_concatenate_equal p sections xi Hsplit) in Hp.
Qed.

(** The 20-qubit cell: its dispatches fit its kernel, and when none raises
    it adds [exp_vals] to the globals of its first statements. *)
Lemma cell_scaling_run s :
  ∃ evs,
    dispatch_consistent evs
    ∧ trace (cell_scaling s).2 = trace s ++ evs
    ∧ ((cell_scaling s).1 = inr tt →
       ∃ vals, globals (cell_scaling s).2
               = <["exp_vals" := VResults vals]>
                   (scaling_globals (globals s))).
Proof.
  unfold cell_scaling. rewrite bind_eq, scaling_setup_eq, bind_eq.
  match goal with |- context [observe_all ?s1] =>
    destruct (observe_all_emits _ _ s1 (scaling_rows_env (globals s)))
      as (Hg & evs & Htr & Hevs);
    destruct (observe_all s1) as [[e|vals] s2]
  end; simpl in *; exists evs.
  - done.
  - split; [done|]. split; [done|]. intros _. exists vals. by rewrite Hg.
Qed.

Lemma first_cells_consistent s :
  ∃ evs,
    trace (run_all [cell_scaling; cell_split; cell_async] s).2
    = trace s ++ evs
    ∧ dispatch_consistent evs.
Proof.
  unfold run_all. simpl for_. rewrite bind_eq.
  destruct (cell_scaling_run s) as (evs1 & Hevs1 & Htr1 & Hg1).
  destruct (cell_scaling s) as [[e|[]] s1]; simpl in *.
  { by exists evs1. }
  destruct (Hg1 eq_refl) as [vals Hg]. clear Hg1.
  pose proof (seeded_parameters_shape 1000 60) as Hshape.
  destruct (split_shapes (seeded_parameters 1000 60) 4 1000 60)
    as (xi & Hsplit & _ & _); [done|done|done|].
  assert (Forall (Forall (λ row, length row = 60)) xi) as Hrows.
  { apply (split_rows _ _ _ _ Hsplit), Hshape. }
  rewrite bind_eq, (cell_split_eq s1 (seeded_parameters 1000 60) xi);
    [|rewrite Hg; unfold scaling_globals; lookup_solve|done].
  rewrite bind_eq.
  match goal with |- context [cell_async ?s2] =>
    destruct (cell_async_consistent s2 (build_rxyz_kernel 20) (spin_z 0) xi)
      as (evs2 & Htr2 & Hevs2);
    [|by rewrite rxyz_20_params|destruct (cell_async s2) as [[e|[]] s3]]
  end.
  { unfold submit_env. py_proj. rewrite Hg. unfold scaling_globals.
    split; [|split]; lookup_solve. }
  all: simpl in *; exists (evs1 ++ evs2);
    rewrite Htr2, Htr1, app_assoc; split; [done|by apply Forall_app].
Qed.

Lemma kernels_rows_env kname (m : gmap string value) :
  kname = "kernel1" ∨ kname = "kernel2" →
  rows_env kname (kernels_globals m) (build_rx_kernel 10)
    (seeded_parameters 500 10).
Proof.
  intros Hk. unfold rows_env, kernels_globals. split; [|split; [|split]].
  - exists (spin_z 0). lookup_solve.
  - destruct Hk as [->| ->]; lookup_solve.
  - lookup_solve.
  - rewrite rx_10_params. apply seeded_parameters_shape.
Qed.

Lemma rows_env_insert kname (m : gmap string value) k p name v :
  name ≠ "h" → name ≠ kname → name ≠ "parameters" →
  rows_env kname m k p → rows_env kname (<[name := v]> m) k p.
Proof.
  intros ? ? ? ([o Ho] & Hk & Hp & Hrows).
  split; [exists o|split; [|split]]; by rewrite ?lookup_insert_ne.
Qed.

Lemma two_kernels_consistent s :
  ∃ evs,
    trace (run_all [cell_kernels; cell_two_kernels] s).2 = trace s ++ evs
    ∧ dispatch_consistent evs.
Proof.
  unfold run_all. simpl for_. rewrite bind_eq, cell_kernels_eq.
  destruct (set_target "nvidia-mgpu" (runtime s)) as [[e|u] w]; simpl.
  { eexists. split; [done|]. by repeat constructor. }
  rewrite bind_eq. unfold cell_two_kernels. rewrite bind_eq.
  match goal with |- context [observe_async_all "kernel1" 0 ?s1] =>
    destruct (observe_async_all_emits "kernel1" 0 _ _ s1
                (kernels_rows_env "kernel1" (globals s) (or_introl eq_refl)))
      as (Hg1 & evs1 & Htr1 & Hevs1);
    destruct (observe_async_all "kernel1" 0 s1) as [[e|hs1] s2]
  end; py_proj_all.
  { exists (EvSetTarget "nvidia-mgpu" (inr u) :: evs1).
    rewrite Htr1, <- app_assoc. split; [done|]. by constructor. }
  py_assign. rewrite bind_eq.
  match goal with |- context [observe_async_all "kernel2" 1 ?s3] =>
    destruct (observe_async_all_emits "kernel2" 1 (build_rx_kernel 10)
                (seeded_parameters 500 10) s3) as (Hg2 & evs2 & Htr2 & Hevs2);
    [|destruct (observe_async_all "kernel2" 1 s3) as [[e|hs2] s4]]
  end.
  { py_proj. rewrite Hg1. apply rows_env_insert; [done..|].
    apply kernels_rows_env. by right. }
  all: py_proj_all; try (rewrite assign_eq; unfold ret; py_proj);
    exists (EvSetTarget "nvidia-mgpu" (inr u) :: evs1 ++ evs2);
    rewrite Htr2, Htr1, <- !app_assoc; split; [done|];
    constructor; [done|by apply Forall_app].
Qed.

(** C5, as amended.  Each generating cell binds a parameter array of shape
    [(n_samples, n_parameters)] whose rows have the declared parameter
    count of the kernels the same cell builds: [3*n_qubits] for the
    rx/ry/rz kernels of the 20-qubit and the 10-qubit cell, [n_qubits] for
    [kernel1] and [kernel2].  Every parameter vector passed to
    [cudaq.observe] by the 20-qubit cell, to [cudaq.observe_async] by the
    asynchronous cell run after it, and to [cudaq.observe_async] by the
    cell dispatching [kernel1] and [kernel2], has the declared parameter
    count of the kernel it is dispatched with. *)
Theorem shape_consistency_by_cell s :
  (array_shape_is (scaling_setup s).2 (λ nq, 3 * nq)
   ∧ kernel_fits (scaling_setup s).2 "kernel")
  ∧ (array_shape_is (cell_hamiltonian s).2 (λ nq, 3 * nq)
     ∧ kernel_fits (cell_hamiltonian s).2 "kernel")
  ∧ ((cell_kernels s).1 = inr tt →
     array_shape_is (cell_kernels s).2 (λ nq, nq)
     ∧ kernel_fits (cell_kernels s).2 "kernel1"
     ∧ kernel_fits (cell_kernels s).2 "kernel2")
  ∧ (∃ evs,
       trace (run_all [cell_scaling; cell_split; cell_async] s).2
       = trace s ++ evs
       ∧ dispatch_consistent evs)
  ∧ (∃ evs,
       trace (run_all [cell_kernels; cell_two_kernels] s).2 = trace s ++ evs
       ∧ dispatch_consistent evs).
Proof.
  split; [|split; [|split; [|split]]].
  - rewrite scaling_setup_eq. py_proj. unfold scaling_globals. split.
    + exists (seeded_parameters 1000 60), 1000, 20.
      repeat split; try lookup_solve; apply seeded_parameters_shape.
    + exists (seeded_parameters 1000 60), (build_rxyz_kernel 20), 1000.
      rewrite rxyz_20_params.
      repeat split; try lookup_solve; apply seeded_parameters_shape.
  - rewrite cell_hamiltonian_eq. py_proj. unfold hamiltonian_globals. split.
    + exists (seeded_parameters 1000 30), 1000, 10.
      repeat split; try lookup_solve; apply seeded_parameters_shape.
    + exists (seeded_parameters 1000 30), (build_rxyz_kernel 10), 1000.
      rewrite rxyz_10_params.
      repeat split; try lookup_solve; apply seeded_parameters_shape.
  - rewrite cell_kernels_eq.
    destruct (set_target "nvidia-mgpu" (runtime s)) as [[e|u] w]; [done|].
    intros _. py_proj. unfold kernels_globals. split; [|split].
    + exists (seeded_parameters 500 10), 500, 10.
      repeat split; try lookup_solve; apply seeded_parameters_shape.
    + exists (seeded_parameters 500 10), (build_rx_kernel 10), 500.
      rewrite rx_10_params.
      repeat split; try lookup_solve; apply seeded_parameters_shape.
    + exists (seeded_parameters 500 10), (build_rx_kernel 10), 500.
      rewrite rx_10_params.
      repeat split; try lookup_solve; apply seeded_parameters_shape.
  - apply first_cells_consistent.
  - apply two_kernels_consistent.
Qed.

End ShapeFacts.

(** ** The notebook, cell after cell *)

Section NotebookFacts.
Import Cudaq.
Context `{V : Vendor}.
Implicit Types (s : state) (k : kernel) (o : spin_op).
Implicit Types (xi : list (list (list float64))).
Implicit Types (m : gmap string value).

Lemma bind_inr {A B : Type} (c : Py A) (f : A → Py B) s b s' :
  (c ≫= f) s = (inr b, s') →
  ∃ a s1, c s = (inr a, s1) ∧ f a s1 = (inr b, s').
Proof. rewrite bind_eq. destruct (c s) as [[e|a] s1]; [done|]. eauto. Qed.

Lemma cell_scaling_inr s s' :
  cell_scaling s = (inr tt, s') →
  scaled (globals s') ∧ ∃ evs, trace s' = trace s ++ evs.
Proof.
  intros Hrun. destruct (cell_scaling_run s) as (evs & _ & Htr & Hg).
  rewrite Hrun in Htr, Hg. simpl in Htr, Hg.
  destruct (Hg eq_refl) as [vals ->]. split; [|by exists evs].
  split.
  - apply rows_env_insert; [done..|]. apply scaling_rows_env.
  - unfold scaling_globals. lookup_solve.
Qed.

Lemma cell_split_scaled s :
  scaled (globals s) →
  ∃ xi, cell_split s
        = (inr tt,
           State (<["xi" := VArrays xi]> (globals s)) (np_random_state s)
                 (runtime s) (trace s))
        ∧ Numpy.split (seeded_parameters 1000 60) 4 = inr xi.
Proof.
  intros [(_ & _ & Hp & _) _].
  destruct (split_shapes (seeded_parameters 1000 60) 4 1000 60)
    as (xi & Hsplit & _ & _); [done|apply seeded_parameters_shape|done|].
  exists xi. split; [|done].
  by apply (cell_split_eq s (seeded_parameters 1000 60)).
Qed.

(** The batches of the notebook: four, of 250 rows of 60 entries. *)
Lemma batches_shape xi :
  Numpy.split (seeded_parameters 1000 60) 4 = inr xi →
  length xi = 4 ∧ Forall (λ b, Numpy.has_shape b 250 60) xi.
Proof.
  intros Hsplit.
  destruct (split_shapes (seeded_parameters 1000 60) 4 1000 60)
    as (xi' & Hsplit' & Hlen & Hshapes);
    [done|apply seeded_parameters_shape|done|].
  rewrite Hsplit in Hsplit'. by simplify_eq.
Qed.

Lemma cell_async_inr s k o xi s' :
  submit_env s k o xi → cell_async s = (inr tt, s') →
  ∃ hs vs evs,
    globals s'
    = <["expvals" := VFloats vs]>
        (<["asyncresults" := VHandles hs]> (globals s))
    ∧ length hs = length (jobs xi)
    ∧ trace s' = trace s ++ ok_dispatches k o (jobs xi) hs ++ evs.
Proof.
  intros Henv Hrun.
  destruct (cell_async_complete s k o xi s' Henv Hrun)
    as (hs & l & Hlen & _ & Htr & Hg).
  by exists hs, l.*2, (resolve_events l).
Qed.

Lemma cell_two_kernels_inr s s' :
  two_kernels (globals s) → cell_two_kernels s = (inr tt, s') →
  ∃ hs1 hs2 evs,
    globals s'
    = <["exp_vals2" := VHandles hs2]>
        (<["exp_vals1" := VHandles hs1]> (globals s))
    ∧ trace s' = trace s ++ evs.
Proof.
  intros (H1 & H2 & _) Hrun. unfold cell_two_kernels in Hrun.
  apply bind_inr in Hrun as (hs1 & s1 & Hrun1 & Hrun).
  destruct (observe_async_all_emits "kernel1" 0 _ _ s H1)
    as (Hg1 & evs1 & Htr1 & _).
  rewrite Hrun1 in Hg1, Htr1. py_proj_all.
  rewrite bind_eq, assign_eq in Hrun. py_proj_all.
  apply bind_inr in Hrun as (hs2 & s2 & Hrun2 & Hrun).
  match type of Hrun2 with observe_async_all _ _ ?s3 = _ =>
    destruct (observe_async_all_emits "kernel2" 1 (build_rx_kernel 10)
                (seeded_parameters 500 10) s3) as (Hg2 & evs2 & Htr2 & _)
  end.
  { py_proj. rewrite Hg1. by apply rows_env_insert. }
  rewrite Hrun2 in Hg2, Htr2. py_proj_all.
  rewrite assign_eq in Hrun. injection Hrun as <-. py_proj.
  exists hs1, hs2, (evs1 ++ evs2).
  by rewrite Hg2, Hg1, Htr2, Htr1, app_assoc.
Qed.

(** A row of a batch of the notebook, dispatched with the kernel rebuilt
    for 10 qubits, is not shape consistent: 60 entries for 30 parameters. *)
Lemma stale_batches_inconsistent xi o hs :
  Numpy.split (seeded_parameters 1000 60) 4 = inr xi →
  length hs = length (jobs xi) →
  ¬ dispatch_consistent (ok_dispatches (build_rxyz_kernel 10) o (jobs xi) hs).
Proof.
  intros Hsplit Hlen Hall.
  destruct (batches_shape xi Hsplit) as [Hxi Hshapes].
  destruct xi as [|b xi]; [done|].
  apply Forall_cons in Hshapes as [[Hb Hrows] _].
  destruct b as [|row b]; [done|].
  apply Forall_cons in Hrows as [Hrow _].
  rewrite jobs_from_0, jobs_from_cons in Hlen, Hall.
  destruct hs as [|res hs]; [done|].
  apply Forall_cons in Hall as [Hbad _].
  unfold consistent_event in Hbad. simpl in Hbad.
  rewrite rxyz_10_params, Hrow in Hbad. done.
Qed.

(** Every run of the whole notebook that ends without an exception breaks
    shape consistency: in the state it reaches the parameter array is
    [(500, 10)] while [3*n_qubits] is 30, and the second asynchronous cell
    has dispatched the rows of the batches cut from the first array, 60
    entries each, with the kernel rebuilt with 30 parameters. *)
Lemma notebook_breaks_shape s s' :
  run_all notebook s = (inr tt, s') →
  ¬ array_shape_is s' (λ nq, 3 * nq) ∧ ¬ dispatch_consistent (trace s').
Proof.
  unfold run_all, notebook. simpl for_. intros Hrun.
  apply bind_inr in Hrun as ([] & s1 & H1 & Hrun).
  apply bind_inr in Hrun as ([] & s2 & H2 & Hrun).
  apply bind_inr in Hrun as ([] & s3 & H3 & Hrun).
  apply bind_inr in Hrun as ([] & s4 & H4 & Hrun).
  apply bind_inr in Hrun as ([] & s5 & H5 & Hrun).
  apply bind_inr in Hrun as ([] & s6 & H6 & Hrun).
  apply bind_inr in Hrun as ([] & s7 & H7 & Hrun).
  apply bind_inr in Hrun as ([] & s8 & H8 & [= <-]).
  apply cell_scaling_inr in H2 as [[Henv2 Hh2] _].
  destruct (cell_split_scaled s2) as (xi & H3' & Hsplit); [done|].
  rewrite H3' in H3. injection H3 as <-.
  apply (cell_async_inr _ (build_rxyz_kernel 20) (spin_z 0) xi) in H4
    as (hs4 & vs4 & _ & Hg4 & _).
  2:{ destruct Henv2 as (_ & Hk & _).
      split; [|split]; lookup_solve. }
  rewrite cell_hamiltonian_eq in H5. injection H5 as <-.
  rewrite cell_kernels_eq in H6. py_proj_all.
  destruct (set_target "nvidia-mgpu" (runtime s4)) as [[e|[]] w6]; [done|].
  injection H6 as <-.
  apply (cell_async_inr _ (build_rxyz_kernel 10) (spin_z 0) xi) in H7
    as (hs7 & vs7 & evs7 & Hg7 & Hlen7 & Htr7).
  2:{ split; [|split]; py_proj; unfold kernels_globals, hamiltonian_globals;
        try lookup_solve.
      rewrite Hg4. py_proj. lookup_solve. }
  py_proj_all.
  apply cell_two_kernels_inr in H8 as (hs1 & hs2 & evs8 & Hg8 & Htr8).
  2:{ rewrite Hg7. split; [|split; [|split]].
      - do 2 (apply rows_env_insert; [done..|]).
        apply kernels_rows_env. by left.
      - do 2 (apply rows_env_insert; [done..|]).
        apply kernels_rows_env. by right.
      - unfold kernels_globals. lookup_solve.
      - unfold kernels_globals. lookup_solve. }
  split.
  - intros (p & ns & nq & Hp & Hns & Hnq & [Hlen Hrows]).
    rewrite Hg8, Hg7 in Hp, Hns, Hnq. unfold kernels_globals in Hp, Hns, Hnq.
    rewrite !lookup_insert_ne in Hp by done.
    rewrite !lookup_insert_ne in Hns by done.
    rewrite !lookup_insert_ne in Hnq by done.
    rewrite lookup_insert_eq in Hp, Hns, Hnq. simplify_eq.
    destruct (seeded_parameters_shape 500 10) as [Hlen' Hrows'].
    destruct (seeded_parameters 500 10) as [|row p]; [done|].
    apply Forall_cons in Hrows as [Hrow _].
    apply Forall_cons in Hrows' as [Hrow' _]. lia.
  - rewrite Htr8, Htr7. intros Hall.
    apply Forall_app in Hall as [Hall _].
    apply Forall_app in Hall as [_ Hall].
    apply Forall_app in Hall as [Hall _].
    by apply (stale_batches_inconsistent xi (spin_z 0) hs7).
Qed.

(** *** On a runtime that never raises the notebook runs to its end *)

Lemma dispatch_run_total k o js w :
  never_raises → ∃ evs w', dispatch_run k o js w = (evs, None, w').
Proof.
  intros (_ & _ & Hasync & _). revert w.
  induction js as [|[row i] js IH]; intros w; simpl; [by eauto|].
  destruct (Hasync k o row i w) as (res & w1 & ->).
  destruct (IH w1) as (evs & w2 & ->). eauto.
Qed.

Lemma collect_run_total rs w :
  never_raises → ∃ evs w', collect_run rs w = (evs, None, w').
Proof.
  intros (_ & _ & _ & Hget & Hexp). revert w.
  induction rs as [|res rs IH]; intros w; simpl; [by eauto|].
  destruct (Hget res w) as (r & w1 & ->).
  destruct (Hexp r w1) as (v & w2 & ->).
  destruct (IH w2) as (evs & w3 & ->). eauto.
Qed.

Lemma cell_async_total s k o xi :
  never_raises → submit_env s k o xi → ∃ s', cell_async s = (inr tt, s').
Proof.
  intros Hok Henv. rewrite (cell_async_eq s k o xi Henv). unfold async_result.
  destruct (dispatch_run_total k o (jobs xi) (runtime s) Hok)
    as (evs1 & w1 & ->).
  destruct (collect_run_total (handles_of evs1) w1 Hok) as (evs2 & w2 & ->).
  simpl. eauto.
Qed.

Lemma comprehension_total {X Y : Type} (f : X → Py Y)
    (Q : gmap string value → Prop) (l : list X) :
  (∀ x s, x ∈ l → Q (globals s) →
     ∃ y s', f x s = (inr y, s') ∧ globals s' = globals s) →
  ∀ s, Q (globals s) →
    ∃ ys s', comprehension l f s = (inr ys, s') ∧ globals s' = globals s.
Proof.
  induction l as [|x l IH]; intros Hf s HQ.
  { exists [], s. done. }
  simpl comprehension. rewrite bind_eq.
  destruct (Hf x s) as (y & s1 & -> & Hg1); [by left|done|].
  rewrite bind_eq.
  destruct (IH (λ x' s0 Hin, Hf x' s0 (list_elem_of_further _ _ _ Hin)) s1)
    as (ys & s2 & -> & Hg2); [by rewrite Hg1|].
  exists (y :: ys), s2. split; [done|congruence].
Qed.

Lemma observe_all_total s k p :
  never_raises → rows_env "kernel" (globals s) k p →
  ∃ vals s', observe_all s = (inr vals, s') ∧ globals s' = globals s.
Proof.
  intros (_ & Hobs & _) Henv. pose proof Henv as (_ & _ & Hp & _).
  unfold observe_all, read_array. py_read Hp.
  apply (comprehension_total _ (λ m, rows_env "kernel" m k p)); [|done].
  intros i s0 Hi ([o Ho] & Hk & Hp0 & _).
  apply elem_of_seq in Hi as [_ Hi].
  destruct (lookup_lt_is_Some_2 p i) as [row Hrow]; [lia|].
  unfold observe_row, read_kernel, read_spin, read_array.
  py_read Hk. py_read Ho. py_read Hp0. py_index Hrow.
  unfold cudaq_observe, call.
  destruct (Hobs k o row (runtime s0)) as (r & w & ->). eauto.
Qed.

Lemma observe_async_all_total kname q s k p :
  never_raises → rows_env kname (globals s) k p →
  ∃ hs s', observe_async_all kname q s = (inr hs, s')
           ∧ globals s' = globals s.
Proof.
  intros (_ & _ & Hasync & _) Henv. pose proof Henv as (_ & _ & Hp & _).
  unfold observe_async_all, read_array. py_read Hp.
  apply (comprehension_total _ (λ m, rows_env kname m k p)); [|done].
  intros i s0 Hi ([o Ho] & Hk & Hp0 & _).
  apply elem_of_seq in Hi as [_ Hi].
  destruct (lookup_lt_is_Some_2 p i) as [row Hrow]; [lia|].
  unfold observe_async_row, read_kernel, read_spin, read_array.
  py_read Hk. py_read Ho. py_read Hp0. py_index Hrow.
  unfold cudaq_observe_async, call.
  destruct (Hasync k o row q (runtime s0)) as (r & w & ->). eauto.
Qed.

Lemma cell_scaling_total s :
  never_raises → ∃ s', cell_scaling s = (inr tt, s').
Proof.
  intros Hok. unfold cell_scaling. rewrite bind_eq, scaling_setup_eq, bind_eq.
  match goal with |- context [observe_all ?s1] =>
    destruct (observe_all_total s1 _ _ Hok (scaling_rows_env (globals s)))
      as (vals & s2 & -> & _)
  end.
  rewrite assign_eq. eauto.
Qed.

Lemma cell_two_kernels_total s :
  never_raises → two_kernels (globals s) →
  ∃ s', cell_two_kernels s = (inr tt, s').
Proof.
  intros Hok (H1 & H2 & _). unfold cell_two_kernels. rewrite bind_eq.
  destruct (observe_async_all_total "kernel1" 0 s _ _ Hok H1)
    as (hs1 & s1 & -> & Hg1).
  py_assign. rewrite bind_eq.
  match goal with |- context [observe_async_all "kernel2" 1 ?s2] =>
    destruct (observe_async_all_total "kernel2" 1 s2 (build_rx_kernel 10)
                (seeded_parameters 500 10) Hok) as (hs2 & s3 & -> & _)
  end.
  { py_proj. rewrite Hg1. by apply rows_env_insert. }
  rewrite assign_eq. eauto.
Qed.

Lemma notebook_completes s :
  never_raises → ∃ s', run_all notebook s = (inr tt, s').
Proof.
  intros Hok. unfold run_all, notebook. simpl for_.
  (* cudaq.set_target('nvidia') *)
  rewrite bind_eq. unfold cell_setup at 1, cudaq_set_target, call.
  destruct Hok as (Htarget & Hrest).
  destruct (Htarget "nvidia" (runtime s)) as (w1 & ->).
  assert (never_raises) as Hok by done. clear Hrest.
  (* the 20-qubit cell *)
  rewrite bind_eq.
  match goal with |- context [cell_scaling ?s1] =>
    destruct (cell_scaling_total s1 Hok) as (s2 & H2)
  end.
  rewrite H2. apply cell_scaling_inr in H2 as [[Henv2 Hh2] _].
  (* the split *)
  rewrite bind_eq.
  destruct (cell_split_scaled s2) as (xi & -> & Hsplit); [done|].
  (* the first asynchronous cell *)
  rewrite bind_eq.
  match goal with |- context [cell_async ?s3] =>
    destruct (cell_async_total s3 (build_rxyz_kernel 20) (spin_z 0) xi Hok)
      as (s4 & H4)
  end.
  { destruct Henv2 as (_ & Hk & _). split; [|split]; lookup_solve. }
  rewrite H4.
  apply (cell_async_inr _ (build_rxyz_kernel 20) (spin_z 0) xi) in H4
    as (hs4 & vs4 & _ & Hg4 & _).
  2:{ destruct Henv2 as (_ & Hk & _). split; [|split]; lookup_solve. }
  py_proj_all.
  (* the 10-qubit cell, the cell of kernel1 and kernel2 *)
  rewrite bind_eq, cell_hamiltonian_eq, bind_eq, cell_kernels_eq. py_proj.
  destruct (Htarget "nvidia-mgpu" (runtime s4)) as (w6 & ->).
  (* the second asynchronous cell *)
  rewrite bind_eq.
  match goal with |- context [cell_async ?s6] =>
    destruct (cell_async_total s6 (build_rxyz_kernel 10) (spin_z 0) xi Hok)
      as (s7 & H7)
  end.
  { split; [|split]; py_proj; unfold kernels_globals, hamiltonian_globals;
      try lookup_solve.
    rewrite Hg4. lookup_solve. }
  rewrite H7.
  apply (cell_async_inr _ (build_rxyz_kernel 10) (spin_z 0) xi) in H7
    as (hs7 & vs7 & _ & Hg7 & _).
  2:{ split; [|split]; py_proj; unfold kernels_globals, hamiltonian_globals;
        try lookup_solve.
      rewrite Hg4. lookup_solve. }
  py_proj_all.
  (* the dispatch of kernel1 and kernel2 *)
  rewrite bind_eq.
  destruct (cell_two_kernels_total s7 Hok) as (s8 & ->).
  { rewrite Hg7. split; [|split; [|split]].
    - do 2 (apply rows_env_insert; [done..|]).
      apply kernels_rows_env. by left.
    - do 2 (apply rows_env_insert; [done..|]).
      apply kernels_rows_env. by right.
    - unfold kernels_globals. lookup_solve.
    - unfold kernels_globals. lookup_solve. }
  by exists s8.
Qed.

End NotebookFacts.

(** ** The kernels *)

Section KernelFacts.
Import Cudaq.

Lemma foldl_k_apply {X : Type} (step : kernel → X → kernel)
    (f : X → instruction) (l : list X) k :
  (∀ k x, step k x = k_apply k (f x)) →
  foldl step k l = Kernel (qalloc k) (program k ++ (f <$> l)).
Proof.
  intros Hstep. revert k; induction l as [|x l IH]; intros k; simpl.
  - rewrite app_nil_r. by destruct k.
  - rewrite IH, Hstep. simpl. by rewrite <- app_assoc.
Qed.

Lemma div2_S_S n : S (S n) / 2 = S (n / 2).
Proof.
  replace (S (S n)) with (n + 1 * 2) by lia.
  rewrite Nat.div_add by done. lia.
Qed.

Lemma every_other_seq n : ∀ a,
  every_other (seq a n) = (λ i, a + 2 * i) <$> seq 0 ((n + 1) / 2).
Proof.
  induction n as [n IH] using lt_wf_ind. intros a.
  destruct n as [|[|n]].
  - done.
  - simpl. f_equal. lia.
  - replace ((S (S n) + 1) / 2) with (S ((n + 1) / 2)).
    2:{ replace (S (S n) + 1) with ((n + 1) + 1 * 2) by lia.
        rewrite Nat.div_add by done. lia. }
    change (seq a (S (S n))) with (a :: S a :: seq (S (S a)) n).
    change (every_other (a :: S a :: ?l)) with (a :: every_other l).
    rewrite (IH n) by lia.
    rewrite <- cons_seq, fmap_cons. f_equal; [lia|].
    rewrite <- fmap_S_seq, <- list_fmap_compose.
    apply list_fmap_ext. intros _ i _. simpl. lia.
Qed.

Lemma zip_fmap_seq {X Y : Type} (f : nat → X) (g : nat → Y) m : ∀ m' b,
  m ≤ m' →
  zip (f <$> seq b m') (g <$> seq b m) = (λ i, (f i, g i)) <$> seq b m.
Proof.
  induction m as [|m IH]; intros [|m'] b Hle; simpl; try done; [lia|].
  f_equal. apply IH. lia.
Qed.

Lemma pairs_of_seq n :
  zip (slice_step2 0 (seq 0 n)) (slice_step2 1 (seq 0 n))
  = (λ i, (2 * i, 2 * i + 1)) <$> seq 0 (n / 2).
Proof.
  unfold slice_step2. rewrite drop_0.
  destruct n as [|n]; [done|].
  simpl drop. rewrite drop_0, !every_other_seq.
  replace (S n + 1) with (S (S n)) by lia. rewrite div2_S_S.
  replace (S n) with (n + 1) by lia.
  assert ((n + 1) / 2 ≤ S (n / 2)) as Hle'.
  { rewrite <- div2_S_S. apply Nat.Div0.div_le_mono. lia. }
  rewrite zip_fmap_seq by done.
  apply list_fmap_ext. intros _ i _. f_equal; lia.
Qed.

Lemma rxyz_program n :
  program (build_rxyz_kernel n)
  = ((λ i, rx i i) <$> seq 0 n)
    ++ ((λ i, ry (i + n) i) <$> seq 0 n)
    ++ ((λ i, rz (i + n * 2) i) <$> seq 0 n)
    ++ ((λ i, cz (2 * i) (2 * i + 1)) <$> seq 0 (n / 2)).
Proof.
  unfold build_rxyz_kernel.
  rewrite (foldl_k_apply (λ k i, k_apply k (rx i i)) (λ i, rx i i)) by done.
  rewrite (foldl_k_apply (λ k i, k_apply k (ry (i + n) i))
             (λ i, ry (i + n) i)) by done.
  rewrite (foldl_k_apply (λ k i, k_apply k (rz (i + n * 2) i))
             (λ i, rz (i + n * 2) i)) by done.
  rewrite (foldl_k_apply _ (λ q, cz q.1 q.2)) by (by intros k [q1 q2]).
  simpl. rewrite pairs_of_seq, <- list_fmap_compose, <- !app_assoc. done.
Qed.







Lemma rx_program n :
  program (build_rx_kernel n) = (λ i, rx i i) <$> seq 0 n.
Proof.
  unfold build_rx_kernel.
  by rewrite (foldl_k_apply (λ k i, k_apply k (rx i i)) (λ i, rx i i)).
Qed.



Lemma omap_fmap_none {X Y Z : Type} (f : Y → option Z) (g : X → Y)
    (l : list X) :
  (∀ x, f (g x) = None) → omap f (g <$> l) = [].
Proof. intros Hf. induction l as [|x l IH]; simpl; [done|]. by rewrite Hf. Qed.

Lemma omap_fmap_some {X Y Z : Type} (f : Y → option Z) (g : X → Y)
    (h : X → Z) (l : list X) :
  (∀ x, f (g x) = Some (h x)) → omap f (g <$> l) = h <$> l.
Proof.
  intros Hf. induction l as [|x l IH]; [done|].
  rewrite !fmap_cons. simpl. rewrite Hf. simpl. by f_equal.
Qed.

Lemma rxyz_cz_pairs n :
  cz_pairs (build_rxyz_kernel n) = (λ i, (2 * i, 2 * i + 1)) <$> seq 0 (n / 2).
Proof.
  unfold cz_pairs. rewrite rxyz_program, !omap_app.
  rewrite !omap_fmap_none by done.
  by rewrite (omap_fmap_some _ _ (λ i, (2 * i, 2 * i + 1))).
Qed.

Lemma pairs_flatten m :
  ((λ i, (2 * i, 2 * i + 1)) <$> seq 0 m) ≫= (λ p, [p.1; p.2])
  = seq 0 (2 * m).
Proof.
  induction m as [|m IH]; [done|].
  rewrite seq_S, fmap_app, bind_app, IH.
  replace (2 * S m) with (2 * m + 2) by lia. rewrite seq_app.
  f_equal. simpl. do 2 f_equal; lia.
Qed.

(** X2: the [cz] loop over [zip(qubits_list[0::2], qubits_list[1::2])]
    entangles the neighbours [(2i, 2i + 1)] for [i < n_qubits // 2], in
    this order: every qubit below [2 * (n_qubits // 2)] is in exactly one
    pair, and for an odd [n_qubits] the last qubit is in none.  [kernel1]
    and [kernel2] have no entangling operation. *)
Theorem rxyz_kernel_entangling n :
  cz_pairs (build_rxyz_kernel n) = (λ i, (2 * i, 2 * i + 1)) <$> seq 0 (n / 2)
  ∧ cz_pairs (build_rxyz_kernel n) ≫= (λ p, [p.1; p.2]) = seq 0 (2 * (n / 2))
  ∧ (∀ q, q ∈ cz_pairs (build_rxyz_kernel n) ≫= (λ p, [p.1; p.2])
          ↔ q < 2 * (n / 2))
  ∧ NoDup (cz_pairs (build_rxyz_kernel n) ≫= (λ p, [p.1; p.2]))
  ∧ (n mod 2 = 1 →
     n - 1 ∉ cz_pairs (build_rxyz_kernel n) ≫= (λ p, [p.1; p.2]))
  ∧ cz_pairs (build_rx_kernel n) = [].
Proof.
  rewrite rxyz_cz_pairs, pairs_flatten.
  split; [done|]. split; [done|]. split; [|split; [|split]].
  - intros q. rewrite elem_of_seq. lia.
  - apply NoDup_seq.
  - intros Hodd. rewrite elem_of_seq.
    pose proof (Nat.div_mod_eq n 2). lia.
  - unfold cz_pairs. rewrite rx_program. by apply omap_fmap_none.
Qed.

Lemma Forall_fmap_seq {X : Type} (P : X → Prop) (f : nat → X) a n :
  (∀ i, a ≤ i < a + n → P (f i)) → Forall P (f <$> seq a n).
Proof.
  intros Hf. apply Forall_fmap, Forall_forall. intros i Hi. simpl.
  apply Hf. by apply elem_of_seq.
Qed.

(** X3: every operation of a kernel acts on qubits it allocated, a [cz]
    on two different ones; the kernel of the 20- and 10-qubit cells has
    [3 * n_qubits + n_qubits // 2] operations, [kernel1] and [kernel2]
    have [n_qubits]. *)
Theorem kernel_qubits_allocated n :
  (qalloc (build_rxyz_kernel n) = n
   ∧ Forall (λ g, Forall (λ q, q < n) (instruction_qubits g))
       (program (build_rxyz_kernel n))
   ∧ Forall (λ p, p.1 ≠ p.2) (cz_pairs (build_rxyz_kernel n))
   ∧ length (program (build_rxyz_kernel n)) = 3 * n + n / 2)
  ∧ (qalloc (build_rx_kernel n) = n
     ∧ Forall (λ g, Forall (λ q, q < n) (instruction_qubits g))
         (program (build_rx_kernel n))
     ∧ length (program (build_rx_kernel n)) = n).
Proof.
  split.
  - split; [|split; [|split]].
    + unfold build_rxyz_kernel.
      rewrite (foldl_k_apply _ (λ q, cz q.1 q.2)) by (by intros k [q1 q2]).
      rewrite (foldl_k_apply (λ k i, k_apply k (rz (i + n * 2) i))
                 (λ i, rz (i + n * 2) i)) by done.
      rewrite (foldl_k_apply (λ k i, k_apply k (ry (i + n) i))
                 (λ i, ry (i + n) i)) by done.
      by rewrite (foldl_k_apply (λ k i, k_apply k (rx i i)) (λ i, rx i i)).
    + rewrite rxyz_program, !Forall_app.
      pose proof (Nat.div_mod_eq n 2).
      repeat split; apply Forall_fmap_seq; intros i Hi; simpl;
        repeat constructor; lia.
    + rewrite rxyz_cz_pairs. apply Forall_fmap_seq. intros i _. simpl. lia.
    + rewrite rxyz_program, !length_app, !length_fmap, !length_seq. lia.
  - split; [|split].
    + unfold build_rx_kernel.
      by rewrite (foldl_k_apply (λ k i, k_apply k (rx i i)) (λ i, rx i i)).
    + rewrite rx_program. apply Forall_fmap_seq. intros i Hi. simpl.
      repeat constructor. lia.
    + by rewrite rx_program, length_fmap, length_seq.
Qed.

End KernelFacts.

(** ** The dispatch statements, cell by cell *)

Section RowFacts.
Import Cudaq.
Context `{V : Vendor}.
Implicit Types (s : state) (k : kernel) (o : spin_op).
Implicit Types (p : list (list float64)).

(** A comprehension over the rows of [p] whose body makes one runtime call
    per row: the calls are made in row order up to the first that raises. *)
Lemma rows_comprehension {R : Type} (body : nat → Py R)
    (fn : list float64 → Runtime → (RuntimeError + R) * Runtime)
    (ev : list float64 → RuntimeError + R → event)
    (Q : gmap string value → Prop) p n :
  (∀ i s row, Q (globals s) → p !! i = Some row →
     body i s = call (fn row) (ev row) s) →
  ∀ a s r s', Q (globals s) → a + n = length p →
    comprehension (seq a n) body s = (r, s') →
    globals s' = globals s
    ∧ np_random_state s' = np_random_state s
    ∧ match r with
      | inr rs =>
          length rs = n
          ∧ trace s' = trace s ++ zip_with (λ row x, ev row (inr x)) (drop a p) rs
      | inl e =>
          ∃ e0 rs row,
            e = LibraryError e0 ∧ p !! (a + length rs) = Some row
            ∧ trace s'
              = trace s ++ zip_with (λ row x, ev row (inr x)) (drop a p) rs
                        ++ [ev row (inl e0)]
      end.
Proof.
  intros Hbody. induction n as [|n IH]; intros a s r s' HQ Han Hrun.
  { simpl in Hrun. injection Hrun as <- <-.
    rewrite drop_ge by lia. simpl. by rewrite app_nil_r. }
  destruct (lookup_lt_is_Some_2 p a ltac:(lia)) as [row Hrow].
  simpl comprehension in Hrun. rewrite bind_eq, (Hbody a s row HQ Hrow) in Hrun.
  unfold call in Hrun.
  destruct (fn row (runtime s)) as [[e0|x] w1].
  { injection Hrun as <- <-. simpl. split; [done|]. split; [done|].
    exists e0, [], row. simpl. rewrite Nat.add_0_r.
    split; [done|]. split; [done|]. by destruct (drop a p). }
  rewrite bind_eq in Hrun.
  match type of Hrun with context [comprehension _ _ ?s1] =>
    destruct (comprehension (seq (S a) n) body s1) as [r1 s2] eqn:Hrest;
    destruct (IH (S a) s1 r1 s2) as (Hg & Hnp & Hr1); [done|lia|done|]
  end.
  simpl in Hg, Hnp, Hr1. rewrite (drop_S _ _ _ Hrow).
  destruct r1 as [e|rs].
  - injection Hrun as <- <-. split; [done|]. split; [done|].
    destruct Hr1 as (e0 & rs & row' & -> & Hrow' & Htr).
    exists e0, (x :: rs), row'. split; [done|]. simpl.
    split; [by rewrite <- Hrow'; f_equal; lia|].
    by rewrite Htr, <- !app_assoc.
  - injection Hrun as <- <-. split; [done|]. split; [done|].
    destruct Hr1 as [Hlen Htr]. simpl. split; [by f_equal|].
    by rewrite Htr, <- app_assoc.
Qed.

Lemma observe_row_call k o p i s row :
  dispatch_env "kernel" (globals s) k o p → p !! i = Some row →
  observe_row i s = call (observe k o row) (EvObserve k o row) s.
Proof.
  intros (Hk & Ho & Hp) Hrow. unfold observe_row.
  unfold read_kernel, read_spin, read_array.
  py_read Hk. py_read Ho. py_read Hp. py_index Hrow. done.
Qed.

Lemma observe_async_row_call kname q k o p i s row :
  dispatch_env kname (globals s) k o p → p !! i = Some row →
  observe_async_row kname q i s
  = call (observe_async k o row q) (EvObserveAsync k o row q) s.
Proof.
  intros (Hk & Ho & Hp) Hrow. unfold observe_async_row.
  unfold read_kernel, read_spin, read_array.
  py_read Hk. py_read Ho. py_read Hp. py_index Hrow. done.
Qed.

Lemma observe_all_outcome k o p s r s' :
  dispatch_env "kernel" (globals s) k o p →
  observe_all s = (r, s') →
  globals s' = globals s
  ∧ np_random_state s' = np_random_state s
  ∧ match r with
    | inr rs => length rs = length p ∧ trace s' = trace s ++ ok_observes k o p rs
    | inl e =>
        ∃ e0 rs row,
          e = LibraryError e0 ∧ p !! length rs = Some row
          ∧ trace s' = trace s ++ ok_observes k o p rs
                               ++ [EvObserve k o row (inl e0)]
    end.
Proof.
  intros Henv. pose proof Henv as (_ & _ & Hp).
  unfold observe_all, read_array. py_read Hp. unfold range. intros Hrun.
  apply (rows_comprehension observe_row (observe k o) (EvObserve k o)
           (λ m, dispatch_env "kernel" m k o p) p (length p)
           (λ i s0 row, observe_row_call k o p i s0 row) 0 s r s' Henv eq_refl)
    in Hrun.
  by rewrite drop_0 in Hrun.
Qed.

Lemma ok_dispatches_jobs_on k o q p hs :
  zip_with (λ row x, EvObserveAsync k o row q (inr x)) p hs
  = ok_dispatches k o (jobs_on q p) hs.
Proof.
  unfold ok_dispatches, jobs_on. by rewrite zip_with_fmap_l.
Qed.

Lemma observe_async_all_outcome kname q k o p s r s' :
  dispatch_env kname (globals s) k o p →
  observe_async_all kname q s = (r, s') →
  globals s' = globals s
  ∧ np_random_state s' = np_random_state s
  ∧ match r with
    | inr hs =>
        length hs = length p
        ∧ trace s' = trace s ++ ok_dispatches k o (jobs_on q p) hs
    | inl e =>
        ∃ e0 hs row,
          e = LibraryError e0 ∧ p !! length hs = Some row
          ∧ trace s' = trace s ++ ok_dispatches k o (jobs_on q p) hs
                               ++ [EvObserveAsync k o row q (inl e0)]
    end.
Proof.
  intros Henv. pose proof Henv as (_ & _ & Hp).
  unfold observe_async_all, read_array. py_read Hp. unfold range. intros Hrun.
  apply (rows_comprehension (observe_async_row kname q)
           (λ row, observe_async k o row q)
           (λ row, EvObserveAsync k o row q)
           (λ m, dispatch_env kname m k o p) p (length p)
           (λ i s0 row, observe_async_row_call kname q k o p i s0 row)
           0 s r s' Henv eq_refl)
    in Hrun.
  rewrite drop_0 in Hrun. destruct Hrun as (Hg & Hnp & Hr).
  split; [done|]. split; [done|].
  destruct r as [e|hs].
  - destruct Hr as (e0 & hs & row & -> & Hrow & Htr).
    exists e0, hs, row. by rewrite <- ok_dispatches_jobs_on.
  - by rewrite <- ok_dispatches_jobs_on.
Qed.

Lemma observe_statement_outcome s k o p r s' :
  dispatch_env "kernel" (globals s) k o p →
  observe_statement s = (r, s') →
  np_random_state s' = np_random_state s
  ∧ match r with
    | inr _ =>
        ∃ rs,
          globals s' = <["exp_vals" := VResults rs]> (globals s)
          ∧ length rs = length p
          ∧ trace s' = trace s ++ ok_observes k o p rs
    | inl e =>
        ∃ e0 rs row,
          e = LibraryError e0 ∧ p !! length rs = Some row
          ∧ trace s' = trace s ++ ok_observes k o p rs
                               ++ [EvObserve k o row (inl e0)]
          ∧ globals s' = globals s
    end.
Proof.
  intros Henv Hrun. unfold observe_statement in Hrun. rewrite bind_eq in Hrun.
  destruct (observe_all s) as [[e1|rs] s1] eqn:Hall.
  - injection Hrun as <- <-.
    destruct (observe_all_outcome k o p s _ _ Henv Hall)
      as (Hg & Hnp & e0 & rs & row & -> & Hrow & Htr).
    split; [done|]. by exists e0, rs, row.
  - destruct (observe_all_outcome k o p s _ _ Henv Hall)
      as (Hg & Hnp & Hlen & Htr).
    rewrite assign_eq in Hrun. injection Hrun as <- <-. py_proj.
    split; [done|]. exists rs. by rewrite Hg.
Qed.

(** X4: when the comprehension
    [exp_vals = [cudaq.observe(kernel, h, parameters[i]) for i in ...]]
    completes, it has called [cudaq.observe] once per row of [parameters],
    in row order and with no other runtime call in between, [exp_vals] is
    bound to one result per row, the [i]-th being the result of the call
    for row [i], and no other variable has changed. *)
Theorem observe_statement_completes s k o p s' :
  dispatch_env "kernel" (globals s) k o p →
  observe_statement s = (inr tt, s') →
  ∃ rs,
    globals s' = <["exp_vals" := VResults rs]> (globals s)
    ∧ length rs = length p
    ∧ trace s' = trace s ++ ok_observes k o p rs
    ∧ ∀ i row, p !! i = Some row →
        ∃ r, rs !! i = Some r
             ∧ trace s' !! (length (trace s) + i)
               = Some (EvObserve k o row (inr r)).
Proof.
  intros Henv Hrun.
  destruct (observe_statement_outcome s k o p _ _ Henv Hrun)
    as (_ & rs & Hg & Hlen & Htr).
  exists rs. split; [done|]. split; [done|]. split; [done|].
  intros i row Hrow.
  destruct (lookup_lt_is_Some_2 rs i) as [r Hr].
  { rewrite Hlen. by eapply lookup_lt_Some. }
  exists r. split; [done|].
  rewrite Htr, lookup_app_r by lia.
  replace (length (trace s) + i - length (trace s)) with i by lia.
  unfold ok_observes. by rewrite lookup_zip_with, Hrow, Hr.
Qed.

(** X5: when a call of [cudaq.observe] raises inside the comprehension,
    the statement raises that error after the calls for the rows before,
    no call is made for a later row, and [exp_vals] is not bound: the
    results obtained so far are lost. *)
Theorem observe_statement_raises s k o p e s' :
  dispatch_env "kernel" (globals s) k o p →
  observe_statement s = (inl e, s') →
  ∃ e0 rs row,
    e = LibraryError e0
    ∧ p !! length rs = Some row
    ∧ trace s' = trace s ++ ok_observes k o p rs
                         ++ [EvObserve k o row (inl e0)]
    ∧ globals s' = globals s.
Proof.
  intros Henv Hrun.
  by destruct (observe_statement_outcome s k o p _ _ Henv Hrun) as [_ H].
Qed.

Lemma cell_scaling_statements :
  cell_scaling = (scaling_setup ≫= λ _, observe_statement).
Proof. reflexivity. Qed.

Lemma dispatch_env_insert kname (m : gmap string value) k o p name v :
  name ≠ kname → name ≠ "h" → name ≠ "parameters" →
  dispatch_env kname m k o p → dispatch_env kname (<[name := v]> m) k o p.
Proof.
  intros ? ? ? (Hk & Ho & Hp). unfold dispatch_env.
  by rewrite !lookup_insert_ne.
Qed.

Lemma blocked_on_app (evs1 evs2 : list event) :
  blocked_on (evs1 ++ evs2) = blocked_on evs1 ++ blocked_on evs2.
Proof. apply omap_app. Qed.

Lemma jobs_of_app (evs1 evs2 : list event) :
  jobs_of (evs1 ++ evs2) = jobs_of evs1 ++ jobs_of evs2.
Proof. apply omap_app. Qed.

Lemma cell_two_kernels_outcome s k1 k2 o p r s' :
  dispatch_env "kernel1" (globals s) k1 o p →
  dispatch_env "kernel2" (globals s) k2 o p →
  cell_two_kernels s = (r, s') →
  match r with
  | inr _ =>
      ∃ hs1 hs2,
        globals s'
        = <["exp_vals2" := VHandles hs2]>
            (<["exp_vals1" := VHandles hs1]> (globals s))
        ∧ length hs1 = length p ∧ length hs2 = length p
        ∧ trace s' = trace s ++ ok_dispatches k1 o (jobs_on 0 p) hs1
                             ++ ok_dispatches k2 o (jobs_on 1 p) hs2
  | inl e =>
      ∃ e0 hs row,
        e = LibraryError e0 ∧ p !! length hs = Some row
        ∧ ((globals s' = globals s
            ∧ trace s' = trace s ++ ok_dispatches k1 o (jobs_on 0 p) hs
                                 ++ [EvObserveAsync k1 o row 0 (inl e0)])
           ∨ (∃ hs1,
                length hs1 = length p
                ∧ globals s' = <["exp_vals1" := VHandles hs1]> (globals s)
                ∧ trace s' = trace s ++ ok_dispatches k1 o (jobs_on 0 p) hs1
                                     ++ ok_dispatches k2 o (jobs_on 1 p) hs
                                     ++ [EvObserveAsync k2 o row 1 (inl e0)]))
  end.
Proof.
  intros H1 H2 Hrun. unfold cell_two_kernels in Hrun. rewrite bind_eq in Hrun.
  destruct (observe_async_all "kernel1" 0 s) as [[e1|hs1] s1] eqn:Hrun1.
  { injection Hrun as <- <-.
    destruct (observe_async_all_outcome _ _ _ _ _ _ _ _ H1 Hrun1)
      as (Hg1 & _ & e0 & hs & row & -> & Hrow & Htr).
    exists e0, hs, row. split; [done|]. split; [done|]. by left. }
  destruct (observe_async_all_outcome _ _ _ _ _ _ _ _ H1 Hrun1)
    as (Hg1 & _ & Hlen1 & Htr1).
  rewrite bind_eq, assign_eq in Hrun. py_proj_all. rewrite bind_eq in Hrun.
  match type of Hrun with context [observe_async_all _ _ ?s3] =>
    assert (dispatch_env "kernel2" (globals s3) k2 o p) as H3
      by (py_proj; rewrite Hg1; by apply dispatch_env_insert);
    destruct (observe_async_all "kernel2" 1 s3) as [[e2|hs2] s2] eqn:Hrun2
  end.
  - destruct (observe_async_all_outcome _ _ _ _ _ _ _ _ H3 Hrun2)
      as (Hg2 & _ & e0 & hs & row & -> & Hrow & Htr2).
    injection Hrun as <- <-. py_proj_all.
    exists e0, hs, row. split; [done|]. split; [done|]. right.
    exists hs1. split; [done|]. rewrite Hg2, Hg1. split; [done|].
    by rewrite Htr2, Htr1, <- !app_assoc.
  - destruct (observe_async_all_outcome _ _ _ _ _ _ _ _ H3 Hrun2)
      as (Hg2 & _ & Hlen2 & Htr2).
    rewrite assign_eq in Hrun. injection Hrun as <- <-. py_proj_all.
    exists hs1, hs2. rewrite Hg2, Hg1, Htr2, Htr1, <- app_assoc. done.
Qed.

Lemma values_of_ok_dispatches k o js hs :
  values_of (ok_dispatches k o js hs) = [].
Proof.
  revert hs; induction js as [|j js IH]; intros [|h hs]; simpl; done.
Qed.

(** X6: when the cell dispatching [kernel1] and [kernel2] completes, it
    has submitted every row of [parameters] with [kernel1] to device 0 and
    then every row with [kernel2] to device 1, in row order; [exp_vals1]
    and [exp_vals2] hold one handle per row, and no handle was blocked
    on and no expectation value read: the cell only submits. *)
Theorem two_kernels_dispatch s k1 k2 o p s' :
  dispatch_env "kernel1" (globals s) k1 o p →
  dispatch_env "kernel2" (globals s) k2 o p →
  cell_two_kernels s = (inr tt, s') →
  ∃ hs1 hs2 evs,
    globals s'
    = <["exp_vals2" := VHandles hs2]>
        (<["exp_vals1" := VHandles hs1]> (globals s))
    ∧ length hs1 = length p ∧ length hs2 = length p
    ∧ trace s' = trace s ++ evs
    ∧ evs = ok_dispatches k1 o (jobs_on 0 p) hs1
              ++ ok_dispatches k2 o (jobs_on 1 p) hs2
    ∧ jobs_of evs = jobs_on 0 p ++ jobs_on 1 p
    ∧ handles_of evs = hs1 ++ hs2
    ∧ blocked_on evs = []
    ∧ values_of evs = [].
Proof.
  intros H1 H2 Hrun.
  destruct (cell_two_kernels_outcome s k1 k2 o p _ _ H1 H2 Hrun)
    as (hs1 & hs2 & Hg & Hlen1 & Hlen2 & Htr).
  exists hs1, hs2, (ok_dispatches k1 o (jobs_on 0 p) hs1
                    ++ ok_dispatches k2 o (jobs_on 1 p) hs2).
  assert (length hs1 = length (jobs_on 0 p)) as Hl1
    by (unfold jobs_on; by rewrite length_fmap).
  assert (length hs2 = length (jobs_on 1 p)) as Hl2
    by (unfold jobs_on; by rewrite length_fmap).
  do 5 (split; [done|]).
  split; [|split; [|split]].
  - by rewrite jobs_of_app, !jobs_of_ok_dispatches.
  - unfold handles_of. rewrite omap_app.
    fold (handles_of (ok_dispatches k1 o (jobs_on 0 p) hs1)).
    fold (handles_of (ok_dispatches k2 o (jobs_on 1 p) hs2)).
    by rewrite !handles_of_ok_dispatches.
  - by rewrite blocked_on_app, !blocked_on_ok_dispatches.
  - unfold values_of. rewrite omap_app.
    fold (values_of (ok_dispatches k1 o (jobs_on 0 p) hs1)).
    fold (values_of (ok_dispatches k2 o (jobs_on 1 p) hs2)).
    by rewrite !values_of_ok_dispatches.
Qed.

(** X7: when a submission of that cell raises, either it was one of
    [kernel1] to device 0, and neither list is bound, or it was one of
    [kernel2] to device 1 after all of [kernel1]'s, and [exp_vals1] is
    bound and [exp_vals2] is not. *)
Theorem two_kernels_raises s k1 k2 o p e s' :
  dispatch_env "kernel1" (globals s) k1 o p →
  dispatch_env "kernel2" (globals s) k2 o p →
  cell_two_kernels s = (inl e, s') →
  ∃ e0 hs row,
    e = LibraryError e0 ∧ p !! length hs = Some row
    ∧ ((globals s' = globals s
        ∧ trace s' = trace s ++ ok_dispatches k1 o (jobs_on 0 p) hs
                             ++ [EvObserveAsync k1 o row 0 (inl e0)])
       ∨ (∃ hs1,
            length hs1 = length p
            ∧ globals s' = <["exp_vals1" := VHandles hs1]> (globals s)
            ∧ trace s' = trace s ++ ok_dispatches k1 o (jobs_on 0 p) hs1
                                 ++ ok_dispatches k2 o (jobs_on 1 p) hs
                                 ++ [EvObserveAsync k2 o row 1 (inl e0)])).
Proof.
  intros H1 H2 Hrun.
  exact (cell_two_kernels_outcome s k1 k2 o p _ _ H1 H2 Hrun).
Qed.

(** X8: the cell [xi = np.split(parameters, 4)] raises [NameError] when
    [parameters] is unbound and NumPy's [ValueError] when its number of
    rows is not a multiple of 4, leaving the variables as they were;
    otherwise it binds [xi] to 4 batches of a quarter of the rows each,
    which concatenate to [parameters], and changes nothing else. *)
Theorem cell_split_outcomes s :
  (globals s !! "parameters" = None →
   cell_split s = (inl (NameError "parameters"), s))
  ∧ (∀ p, globals s !! "parameters" = Some (VArray p) →
          length p mod 4 ≠ 0 →
          cell_split s = (inl (NumpyError Numpy.ValueError), s))
  ∧ (∀ p, globals s !! "parameters" = Some (VArray p) →
          length p mod 4 = 0 →
          ∃ xi,
            cell_split s
            = (inr tt,
               State (<["xi" := VArrays xi]> (globals s)) (np_random_state s)
                     (runtime s) (trace s))
            ∧ length xi = 4
            ∧ Forall (λ b, length b = length p / 4) xi
            ∧ Numpy.concatenate xi = p).
Proof.
  split; [|split].
  - intros Hp. unfold cell_split, read_array. by py_read Hp.
  - intros p Hp Hmod. unfold cell_split, read_array. py_read Hp. py_read Hp.
    rewrite bind_eq. unfold np_split, Numpy.split.
    rewrite decide_False, decide_True by done. done.
  - intros p Hp Hmod.
    pose proof (split_equal p 4 ltac:(done) Hmod) as Hsplit.
    eexists. split; [by apply (cell_split_eq s p)|].
    destruct (split_lengths _ _ _ Hsplit) as [Hlen Hrows].
    split; [done|]. split; [done|].
    by apply (split_concatenate_equal p 4).
Qed.

End RowFacts.

Section FrameFacts.
Import Cudaq.
Context `{V : Vendor}.
Implicit Types (s : state) (names : list string).

Lemma writes_ret {A : Type} names (a : A) : writes names (ret a).
Proof. by intros s name _. Qed.

Lemma writes_mret {A : Type} names (a : A) : writes names (mret a : Py A).
Proof. by intros s name _. Qed.

Lemma writes_raise {A : Type} names e : writes names (raise e : Py A).
Proof. by intros s name _. Qed.

Lemma writes_bind {A B : Type} names (c : Py A) (f : A → Py B) :
  writes names c → (∀ a, writes names (f a)) → writes names (c ≫= f).
Proof.
  intros Hc Hf s name Hname. rewrite bind_eq.
  specialize (Hc s name Hname).
  destruct (c s) as [[e|a] s1]; simpl in *; [done|].
  by rewrite (Hf a s1 name Hname).
Qed.

Lemma writes_read names x : writes names (read x).
Proof. intros s name _. unfold read. by destruct (globals s !! x). Qed.

Lemma writes_assign names x v : x ∈ names → writes names (assign x v).
Proof.
  intros Hx s name Hname. simpl. apply lookup_insert_ne.
  intros ->. done.
Qed.

Lemma writes_call {A : Type} names
    (f : Runtime → (RuntimeError + A) * Runtime) ev :
  writes names (call f ev).
Proof.
  intros s name _. unfold call.
  by destruct (f (runtime s)) as [[e|a] w].
Qed.

Lemma writes_index {A : Type} names (l : list A) i : writes names (index l i).
Proof. intros s name _. unfold index. by destruct (l !! i). Qed.

Lemma writes_for {X : Type} names (l : list X) (body : X → Py unit) :
  (∀ x, writes names (body x)) → writes names (for_ l body).
Proof.
  intros Hbody. induction l as [|x l IH]; [apply writes_ret|].
  simpl for_. apply writes_bind; [apply Hbody|]. by intros _.
Qed.

Lemma writes_comprehension {X Y : Type} names (l : list X) (f : X → Py Y) :
  (∀ x, writes names (f x)) → writes names (comprehension l f).
Proof.
  intros Hf. induction l as [|x l IH]; [apply writes_ret|].
  simpl comprehension. apply writes_bind; [apply Hf|]. intros y.
  apply writes_bind; [apply IH|]. intros ys. apply writes_ret.
Qed.

Lemma writes_np_random_seed names seed : writes names (np_random_seed seed).
Proof. by intros s name _. Qed.

Lemma writes_run_all names (cells : list (Py unit)) :
  Forall (writes names) cells → writes names (run_all cells).
Proof.
  intros Hcells. unfold run_all.
  induction Hcells as [|c cells Hc _ IH]; [apply writes_ret|].
  simpl for_. apply writes_bind; [done|]. by intros _.
Qed.

Lemma writes_mono {A : Type} names names' (c : Py A) :
  names ⊆ names' → writes names c → writes names' c.
Proof.
  intros Hsub Hc s name Hname. apply Hc. intros Hin. by apply Hname, Hsub.
Qed.

End FrameFacts.

Ltac writes_step :=
  first
    [ apply writes_bind; [|intros ?]
    | apply writes_for; intros ?
    | apply writes_comprehension; intros ?
    | apply writes_read
    | apply writes_call
    | apply writes_index
    | apply writes_ret
    | apply writes_mret
    | apply writes_raise
    | apply writes_assign; set_solver
    | apply writes_np_random_seed
    | match goal with
      | |- Cudaq.writes _ (match ?v with _ => _ end) => destruct v
      end ].

Ltac writes_solve := repeat writes_step.

Section CellFrames.
Import Cudaq.
Context `{V : Vendor}.
Implicit Types (s : state) (names : list string).

Ltac writes_unfold :=
  unfold cell_setup, cell_scaling, scaling_setup, observe_all, observe_row,
    cell_split, cell_async, submit_loop, submit_batch, submit_job,
    collect_loop, collect_one, cell_hamiltonian, cell_kernels,
    cell_two_kernels, observe_async_all, observe_async_row,
    gen_parameters, gen_rxyz_kernel, gen_rx_kernel, np_split,
    append_handle, append_float, read_int, read_kernel, read_spin,
    read_array, read_arrays, read_handles, read_floats, as_int, as_kernel,
    as_spin, as_array, as_arrays, as_handles, as_floats, cudaq_set_target,
    cudaq_observe, cudaq_observe_async, res_get, res_expectation_z.

Lemma writes_rebinds {A : Type} names (c : Py A) :
  writes names c → rebinds names c.
Proof. intros Hc s name _ Hname. by apply Hc. Qed.

(** X9: which of the shared variables each cell rebinds.  No cell after
    the split rebinds [xi]: the second asynchronous cell dispatches the
    batches cut from the first parameter array, although [parameters] and
    [kernel] have been rebound since. *)
Theorem cells_rebind :
  rebinds [] cell_setup
  ∧ rebinds ["n_qubits"; "n_samples"; "h"; "n_parameters"; "parameters";
             "kernel"; "exp_vals"] cell_scaling
  ∧ rebinds ["xi"] cell_split
  ∧ rebinds ["asyncresults"; "expvals"] cell_async
  ∧ rebinds ["n_qubits"; "n_samples"; "hamiltonian"; "n_parameters";
             "parameters"; "kernel"] cell_hamiltonian
  ∧ rebinds ["n_qubits"; "n_samples"; "h"; "n_parameters"; "parameters";
             "kernel1"; "kernel2"] cell_kernels
  ∧ rebinds ["exp_vals1"; "exp_vals2"] cell_two_kernels
  ∧ ∀ s, globals (run_all [cell_async; cell_hamiltonian; cell_kernels;
                           cell_async; cell_two_kernels] s).2 !! "xi"
         = globals s !! "xi".
Proof.
  assert (writes ["asyncresults"; "expvals"] cell_async) as Hasync
    by (writes_unfold; writes_solve).
  assert (writes ["n_qubits"; "n_samples"; "hamiltonian"; "n_parameters";
                  "parameters"; "kernel"] cell_hamiltonian) as Hham
    by (writes_unfold; writes_solve).
  assert (writes ["n_qubits"; "n_samples"; "h"; "n_parameters"; "parameters";
                  "kernel1"; "kernel2"] cell_kernels) as Hker
    by (writes_unfold; writes_solve).
  assert (writes ["exp_vals1"; "exp_vals2"] cell_two_kernels) as Htwo
    by (writes_unfold; writes_solve).
  repeat split; try (by apply writes_rebinds);
    try (apply writes_rebinds; writes_unfold; writes_solve).
  intros s.
  apply (writes_run_all
           ["asyncresults"; "expvals"; "n_qubits"; "n_samples"; "hamiltonian";
            "h"; "n_parameters"; "parameters"; "kernel"; "kernel1"; "kernel2";
            "exp_vals1"; "exp_vals2"]).
  - repeat constructor;
      (eapply writes_mono; [|eassumption]);
      intros x; rewrite !elem_of_cons, !elem_of_nil; tauto.
  - rewrite !elem_of_cons, elem_of_nil. by intros [|[|[|[|[|[|[|[|[|[|[|[|[|]]]]]]]]]]]]].
Qed.

End CellFrames.


Section ObservableFacts.
Import Cudaq.
Context `{V : Vendor}.
Implicit Types (s : state) (k : kernel) (o : spin_op).
Implicit Types (m : gmap string value).

Lemma cell_spec_nil P Inv : cell_spec P Inv Inv (run_all []).
Proof. intros s HI. exists []. by rewrite app_nil_r. Qed.

Lemma cell_spec_cons P Pre Mid Post c cs :
  cell_spec P Pre Mid c → cell_spec P Mid Post (run_all cs) →
  cell_spec P Pre Post (run_all (c :: cs)).
Proof.
  intros Hc Hcs s Hpre. unfold cell_spec, run_all in *. simpl for_.
  rewrite bind_eq.
  destruct (Hc s Hpre) as (evs1 & Htr1 & Hevs1 & Hmid).
  destruct (c s) as [[e|[]] s1]; simpl in *.
  { by exists evs1. }
  destruct (Hcs s1 (Hmid eq_refl)) as (evs2 & Htr2 & Hevs2 & Hpost).
  exists (evs1 ++ evs2). rewrite Htr2, Htr1, app_assoc.
  split; [done|]. split; [by apply Forall_app|done].
Qed.

Lemma ok_observes_z0 k rows rs :
  Forall observes_z0 (ok_observes k (spin_z 0) rows rs).
Proof.
  revert rs; induction rows as [|row rows IH]; intros [|r rs]; simpl;
    try constructor; [done|apply IH].
Qed.

Lemma ok_dispatches_z0 k js hs :
  Forall observes_z0 (ok_dispatches k (spin_z 0) js hs).
Proof.
  revert hs; induction js as [|j js IH]; intros [|r hs]; simpl;
    try constructor; [done|apply IH].
Qed.

Lemma dispatch_run_z0 k js w :
  Forall observes_z0 (dispatch_run k (spin_z 0) js w).1.1.
Proof.
  revert w; induction js as [|[row i] js IH]; intros w; simpl.
  { constructor. }
  destruct (observe_async k (spin_z 0) row i w) as [[e|res] w1]; simpl.
  { by repeat constructor. }
  specialize (IH w1).
  destruct (dispatch_run k (spin_z 0) js w1) as [[evs err] w2]. simpl in *.
  by constructor.
Qed.

Lemma collect_run_z0 rs w : Forall observes_z0 (collect_run rs w).1.1.
Proof.
  revert w; induction rs as [|res rs IH]; intros w; simpl.
  { constructor. }
  destruct (get res w) as [[e|r] w1]; simpl.
  { by repeat constructor. }
  destruct (expectation_z r w1) as [[e|v] w2]; simpl.
  { by repeat constructor. }
  specialize (IH w2).
  destruct (collect_run rs w2) as [[evs err] w3]. simpl in *.
  by repeat constructor.
Qed.

Lemma cell_setup_spec Inv : cell_spec observes_z0 Inv Inv cell_setup.
Proof.
  intros s HI. unfold cell_setup, cudaq_set_target, call.
  destruct (set_target "nvidia" (runtime s)) as [[e|[]] w]; simpl;
    eexists; (split; [done|]); split; by repeat constructor.
Qed.

Lemma cell_scaling_spec : cell_spec observes_z0 (λ _, True) scaled cell_scaling.
Proof.
  intros s _. rewrite cell_scaling_statements, bind_eq, scaling_setup_eq.
  match goal with |- context [observe_statement ?s1] =>
    assert (dispatch_env "kernel" (globals s1) (build_rxyz_kernel 20)
              (spin_z 0) (seeded_parameters 1000 60)) as Henv
      by (unfold dispatch_env, scaling_globals; split; [|split]; lookup_solve);
    destruct (observe_statement s1) as [[e|[]] s2] eqn:Hrun;
    destruct (observe_statement_outcome _ _ _ _ _ _ Henv Hrun) as [_ Hout]
  end.
  - destruct Hout as (e0 & rs & row & _ & _ & Htr & _).
    eexists. split; [exact Htr|]. split; [|done].
    apply Forall_app. split; [apply ok_observes_z0|by repeat constructor].
  - destruct Hout as (rs & Hg & _ & Htr).
    eexists. split; [exact Htr|]. split; [apply ok_observes_z0|].
    intros _. simpl. rewrite Hg. py_proj. split.
    + apply rows_env_insert; [done..|]. apply scaling_rows_env.
    + unfold scaling_globals. lookup_solve.
Qed.

Lemma cell_split_spec : cell_spec observes_z0 scaled split_done cell_split.
Proof.
  intros s Hs. destruct (cell_split_scaled s Hs) as (xi & -> & _).
  exists []. rewrite app_nil_r. split; [done|]. split; [constructor|].
  intros _. simpl. destruct Hs as [(_ & Hk & _) Hh].
  split; [|split]; [|eexists|eexists]; lookup_solve.
Qed.

Lemma cell_async_spec (Inv : gmap string value → Prop) :
  (∀ m, Inv m → split_done m) →
  (∀ m v, Inv m → Inv (<["asyncresults" := v]> m)) →
  (∀ m v, Inv m → Inv (<["expvals" := v]> m)) →
  cell_spec observes_z0 Inv Inv cell_async.
Proof.
  intros Hsplit Ha He s HI.
  destruct (Hsplit _ HI) as (Hh & [k Hk] & [xi Hxi]).
  rewrite (cell_async_eq s k (spin_z 0) xi) by done. unfold async_result.
  pose proof (dispatch_run_z0 k (jobs xi) (runtime s)) as H1.
  destruct (dispatch_run k (spin_z 0) (jobs xi) (runtime s))
    as [[evs1 [e|]] w1]; simpl in *.
  { by exists evs1. }
  pose proof (collect_run_z0 (handles_of evs1) w1) as H2.
  destruct (collect_run (handles_of evs1) w1) as [[evs2 err2] w2];
    simpl in *.
  exists (evs1 ++ evs2). split; [done|]. split; [by apply Forall_app|].
  intros _. by apply He, Ha.
Qed.

Lemma cell_hamiltonian_spec :
  cell_spec observes_z0 split_done hamiltonian_done cell_hamiltonian.
Proof.
  intros s (Hh & [k Hk] & [xi Hxi]). rewrite cell_hamiltonian_eq. simpl.
  exists []. rewrite app_nil_r. split; [done|]. split; [constructor|].
  intros _. unfold hamiltonian_globals.
  split; [split; [|split]|]; [|eexists|eexists|]; lookup_solve.
Qed.

Lemma cell_kernels_spec :
  cell_spec observes_z0 hamiltonian_done kernels_done cell_kernels.
Proof.
  intros s ((Hh & [k Hk] & [xi Hxi]) & Hham). rewrite cell_kernels_eq.
  destruct (set_target "nvidia-mgpu" (runtime s)) as [[e|u] w]; simpl.
  { eexists. split; [done|]. split; [by repeat constructor|done]. }
  eexists. split; [done|]. split; [by repeat constructor|].
  intros _. unfold kernels_globals.
  split; [split; [split; [|split]|]|]; [|eexists|eexists| |];
    try lookup_solve.
  do 3 eexists. split; [|split]; lookup_solve.
Qed.

Lemma cell_two_kernels_spec :
  cell_spec observes_z0 kernels_done hamiltonian_done cell_two_kernels.
Proof.
  intros s (Hdone & k1 & k2 & p & Hk1 & Hk2 & Hp).
  pose proof Hdone as ((Hh & [k Hk] & [xi Hxi]) & Hham).
  assert (dispatch_env "kernel1" (globals s) k1 (spin_z 0) p) as H1 by done.
  assert (dispatch_env "kernel2" (globals s) k2 (spin_z 0) p) as H2 by done.
  destruct (cell_two_kernels s) as [[e|[]] s'] eqn:Hrun; simpl;
    pose proof (cell_two_kernels_outcome _ _ _ _ _ _ _ H1 H2 Hrun) as Hout;
    simpl in Hout.
  - destruct Hout
      as (e0 & hs & row & _ & _ & [[_ Htr]|(hs1 & _ & _ & Htr)]);
      (eexists; split; [exact Htr|]); (split; [|done]);
      rewrite ?Forall_app; repeat split;
      try apply ok_dispatches_z0; by repeat constructor.
  - destruct Hout as (hs1 & hs2 & Hg & _ & _ & Htr).
    eexists. split; [exact Htr|]. split.
    { apply Forall_app. split; apply ok_dispatches_z0. }
    intros _. rewrite Hg.
    split; [split; [|split]|]; [|eexists|eexists|]; lookup_solve.
Qed.

Lemma split_done_insert m name v :
  name ≠ "h" → name ≠ "kernel" → name ≠ "xi" →
  split_done m → split_done (<[name := v]> m).
Proof.
  intros ? ? ? (Hh & [k Hk] & [xi Hxi]).
  split; [|split]; [|exists k|exists xi]; by rewrite lookup_insert_ne.
Qed.

Lemma kernels_done_insert m name v :
  name ≠ "h" → name ≠ "kernel" → name ≠ "xi" → name ≠ "hamiltonian" →
  name ≠ "kernel1" → name ≠ "kernel2" → name ≠ "parameters" →
  kernels_done m → kernels_done (<[name := v]> m).
Proof.
  intros ? ? ? ? ? ? ? ((Hs & Hham) & k1 & k2 & p & Hk1 & Hk2 & Hp).
  split; [split|].
  - by apply split_done_insert.
  - by rewrite lookup_insert_ne.
  - exists k1, k2, p. by rewrite !lookup_insert_ne.
Qed.

Lemma notebook_spec :
  cell_spec observes_z0 (λ _, True) hamiltonian_done (run_all notebook).
Proof.
  unfold notebook.
  apply (cell_spec_cons _ _ (λ _, True)); [apply cell_setup_spec|].
  apply (cell_spec_cons _ _ scaled); [apply cell_scaling_spec|].
  apply (cell_spec_cons _ _ split_done); [apply cell_split_spec|].
  apply (cell_spec_cons _ _ split_done).
  { apply cell_async_spec; [done|..]; intros m v Hm;
      by apply split_done_insert. }
  apply (cell_spec_cons _ _ hamiltonian_done); [apply cell_hamiltonian_spec|].
  apply (cell_spec_cons _ _ kernels_done); [apply cell_kernels_spec|].
  apply (cell_spec_cons _ _ kernels_done).
  { apply cell_async_spec; [by intros m [[Hm _] _]|..]; intros m v Hm;
      by apply kernels_done_insert. }
  apply (cell_spec_cons _ _ hamiltonian_done); [apply cell_two_kernels_spec|].
  apply cell_spec_nil.
Qed.

Lemma observes_z0_not_hamiltonian ev :
  observes_z0 ev → observable_of ev ≠ Some hamiltonian_expr.
Proof.
  unfold observes_z0. destruct (observable_of ev) as [o|]; [|done].
  by intros -> [=].
Qed.

(** X10: the observable [hamiltonian] the 10-qubit cell builds is never
    passed to the runtime: in every run of the notebook, complete or not
    and on any runtime, each call of [cudaq.observe] and
    [cudaq.observe_async] is given [h = spin.z(0)]; a complete run ends
    with [hamiltonian] bound and unused. *)
Theorem hamiltonian_never_dispatched s :
  ∃ evs,
    trace (run_all notebook s).2 = trace s ++ evs
    ∧ Forall (λ ev, ∀ o, observable_of ev = Some o → o = spin_z 0) evs
    ∧ Forall (λ ev, observable_of ev ≠ Some hamiltonian_expr) evs
    ∧ (completed (run_all notebook s).1 = true →
       globals (run_all notebook s).2 !! "hamiltonian"
       = Some (VSpin hamiltonian_expr)
       ∧ globals (run_all notebook s).2 !! "h" = Some (VSpin (spin_z 0))).
Proof.
  destruct (notebook_spec s I) as (evs & Htr & Hevs & Hpost).
  exists evs. split; [done|]. split; [|split].
  - eapply Forall_impl; [exact Hevs|]. intros ev Hev o Ho.
    unfold observes_z0 in Hev. by rewrite Ho in Hev.
  - eapply Forall_impl; [exact Hevs|]. apply observes_z0_not_hamiltonian.
  - intros Hdone. destruct (Hpost Hdone) as [(Hh & _) Hham]. done.
Qed.

End ObservableFacts.

(** ** [square_loss] and [accuracy] *)

Section PennyLaneFacts.
Import PennyLane.
Context `{A : Arithmetic}.

Lemma sum_from_ext (f g : nat → error + number) indices loss :
  (∀ i, i ∈ indices → f i = g i) →
  sum_from loss f indices = sum_from loss g indices.
Proof.
  revert loss. induction indices as [|i rest IH]; intros loss Hfg; [done|].
  simpl. rewrite (Hfg i) by left.
  destruct (g i) as [e|x]; simpl; [done|].
  destruct (py_add loss x) as [e|loss']; simpl; [done|].
  apply IH. intros j Hj. apply Hfg. by right.
Qed.

Lemma sum_from_fmap (h : nat → nat) (f : nat → error + number) indices loss :
  sum_from loss f (h <$> indices) = sum_from loss (f ∘ h) indices.
Proof.
  revert loss. induction indices as [|i rest IH]; intros loss; [done|].
  simpl. destruct (f (h i)) as [e|x]; simpl; [done|].
  destruct (py_add loss x) as [e|loss']; simpl; [done|].
  apply IH.
Qed.

(** The loop over the zipped pairs is the sum over the positions both
    lists have, added in the same order. *)
Lemma square_loss_loop_sum labels predictions loss :
  square_loss_loop loss (zip labels predictions)
  = sum_from loss (squared_error_at labels predictions)
      (seq 0 (length labels `min` length predictions)).
Proof.
  revert predictions loss.
  induction labels as [|l labels IH]; intros [|p predictions] loss; try done.
  change (length (l :: labels) `min` length (p :: predictions))
    with (S (length labels `min` length predictions)).
  rewrite <- cons_seq, <- fmap_S_seq.
  change (zip (l :: labels) (p :: predictions))
    with ((l, p) :: zip labels predictions).
  cbn [square_loss_loop sum_from].
  change (squared_error_at (l :: labels) (p :: predictions) 0)
    with (d ← py_sub l p; py_pow2 d).
  destruct (py_sub l p) as [e|d]; simpl; [done|].
  destruct (py_pow2 d) as [e|s]; simpl; [done|].
  destruct (py_add loss s) as [e|loss']; simpl; [done|].
  rewrite IH, sum_from_fmap. by apply sum_from_ext.
Qed.

Lemma sum_squared_errors_app n labels extra predictions :
  n ≤ length labels →
  sum_squared_errors n (labels ++ extra) predictions
  = sum_squared_errors n labels predictions.
Proof.
  intros Hn. apply sum_from_ext. intros i Hi.
  apply elem_of_seq in Hi. unfold squared_error_at.
  rewrite lookup_app_l by lia. done.
Qed.

(** C9: [square_loss(labels, predictions)] is the sum of the
    [(l - p) ** 2] over the positions the two sequences share, added in
    order from [0], divided by [len(labels)]: the same value, or the same
    exception, in whatever arithmetic the arguments bring.  For sequences
    of equal length this is the mean squared error.  When [predictions] is
    not longer than [labels], the sum runs over the positions
    [predictions] has and the divisor is still [len(labels)]: labels
    without a prediction add nothing to the sum and one each to the
    divisor.  Without labels the division raises [ZeroDivisionError]. *)
Theorem square_loss_spec (labels predictions : list number) :
  square_loss labels predictions
  = (s ← sum_squared_errors (length labels `min` length predictions)
           labels predictions;
     py_truediv s (of_int (len labels)))
  ∧ (length predictions = length labels →
     square_loss labels predictions = mean_squared_error labels predictions)
  ∧ (length predictions ≤ length labels →
     square_loss labels predictions
     = (s ← sum_squared_errors (length predictions) labels predictions;
        py_truediv s (of_int (len labels)))
     ∧ ∀ unmatched,
         square_loss (labels ++ unmatched) predictions
         = (s ← sum_squared_errors (length predictions) labels predictions;
            py_truediv s (of_int (len labels + len unmatched))))
  ∧ (labels = [] →
     square_loss labels predictions = inl ZeroDivisionError).
Proof.
  assert (Hsum : ∀ labels,
    square_loss labels predictions
    = (s ← sum_squared_errors (length labels `min` length predictions)
             labels predictions;
       py_truediv s (of_int (len labels)))).
  { intros ls. unfold square_loss. by rewrite square_loss_loop_sum. }
  split; [apply Hsum|]. split; [|split].
  - intros Hlen. rewrite Hsum, Hlen, Nat.min_id.
    done.
  - intros Hlen. split.
    + by rewrite Hsum, Nat.min_r.
    + intros unmatched. rewrite Hsum, length_app, Nat.min_r by lia.
      rewrite sum_squared_errors_app by done.
      unfold len. by rewrite length_app, Nat2Z.inj_add.
  - intros ->. unfold square_loss. simpl. apply truediv_by_zero.
Qed.


Lemma count_true_cons c cs :
  count_true (c :: cs)
  = ((if c then 1 else 0) + count_true cs)%Z.
Proof.
  unfold count_true. rewrite filter_cons.
  destruct c; case_decide; try done; simpl length; lia.
Qed.

Lemma count_true_bounds cs : (0 ≤ count_true cs ≤ Z.of_nat (length cs))%Z.
Proof.
  induction cs as [|c cs IH]; [done|].
  rewrite count_true_cons. simpl length. destruct c; lia.
Qed.

Lemma count_true_all cs :
  count_true cs = Z.of_nat (length cs) ↔ Forall (λ c, c = true) cs.
Proof.
  induction cs as [|c cs IH]; [by split; [constructor|]|].
  rewrite count_true_cons, Forall_cons. simpl length.
  pose proof (count_true_bounds cs). destruct c.
  - rewrite <- IH. lia.
  - split; [lia|]. by intros [? _].
Qed.

Lemma accuracy_loop_tests pairs loss :
  accuracy_loop loss pairs
  = (cs ← tests pairs; inr (loss + count_true cs)%Z).
Proof.
  revert loss. induction pairs as [|[l p] pairs IH]; intros loss; simpl.
  - unfold count_true. simpl. f_equal. lia.
  - unfold within_tolerance.
    destruct (py_sub l p) as [e|d]; simpl; [done|].
    destruct (py_abs d) as [e|a]; simpl; [done|].
    destruct (py_lt a tolerance) as [e|c]; simpl; [done|].
    rewrite IH. destruct (tests pairs) as [e|cs]; simpl; [done|].
    rewrite count_true_cons. f_equal. destruct c; lia.
Qed.

Lemma tests_lookup pairs cs :
  tests pairs = inr cs →
  length cs = length pairs
  ∧ ∀ i l p, pairs !! i = Some (l, p) →
             ∃ c, cs !! i = Some c ∧ within_tolerance l p = inr c.
Proof.
  revert cs. induction pairs as [|[l p] pairs IH]; intros cs; simpl.
  - intros [= <-]. split; [done|]. by intros i l p.
  - destruct (within_tolerance l p) as [e|c] eqn:Hc; simpl; [done|].
    destruct (tests pairs) as [e|cs'] eqn:Hcs; simpl; [done|].
    intros [= <-]. destruct (IH cs' eq_refl) as [Hlen Hcs'].
    split; [by simpl; rewrite Hlen|].
    intros [|i] l' p'; simpl.
    + intros [= <- <-]. by exists c.
    + apply Hcs'.
Qed.

(** With every test evaluated, all labels are matched exactly when no
    label is left without a prediction and every test held. *)
Lemma all_matched_tests labels predictions cs :
  tests (zip labels predictions) = inr cs →
  all_matched labels predictions
  ↔ count_true cs = len labels.
Proof.
  intros Hcs. destruct (tests_lookup _ _ Hcs) as [Hlen Hlookup].
  rewrite length_zip in Hlen. pose proof (count_true_bounds cs) as Hb.
  unfold len. split.
  - intros Hall.
    assert (length labels ≤ length predictions) as Hle.
    { destruct labels as [|l0 labels0] eqn:Hl using rev_ind; [simpl; lia|].
      destruct (Hall (length labels0) l0) as (p & Hp & _).
      { by rewrite lookup_app_r, Nat.sub_diag by lia. }
      apply lookup_lt_Some in Hp. rewrite length_app. simpl. lia. }
    rewrite <- (Nat.min_l _ _ Hle), <- Hlen. apply count_true_all.
    apply Forall_lookup. intros i c Hi.
    assert (i < length labels) as Hil.
    { apply lookup_lt_Some in Hi. lia. }
    destruct (lookup_lt_is_Some_2 labels i Hil) as [l Hl].
    destruct (Hall i l Hl) as (p & Hp & Htest).
    destruct (Hlookup i l p) as (c' & Hc' & Htest').
    { rewrite lookup_zip_with, Hl, Hp. done. }
    congruence.
  - intros Hcount.
    assert (length cs = length labels) as Hfull by lia.
    assert (Forall (λ c, c = true) cs) as Htrue.
    { apply count_true_all. lia. }
    intros i l Hl.
    assert (is_Some (predictions !! i)) as [p Hp].
    { apply lookup_lt_is_Some. apply lookup_lt_Some in Hl. lia. }
    exists p. split; [done|].
    destruct (Hlookup i l p) as (c & Hc & Htest).
    { rewrite lookup_zip_with, Hl, Hp. done. }
    rewrite Forall_lookup in Htrue. by rewrite (Htrue i c Hc) in Htest.
Qed.

(** C10: [accuracy(labels, predictions)] makes the test
    [abs(l - p) < 1e-5] on the zipped pairs in order; an exception of a
    test is the exception of the call.  Otherwise it returns
    [count / len(labels)], [count] the number of tests that held, with
    [0 <= count <= len(labels)], and [count = len(labels)] exactly when
    every label has a prediction that passes the test.  Without labels the
    division raises [ZeroDivisionError]; for at least one and at most
    [bound] labels, [bound] a length up to which division keeps the
    quotients of the unit interval apart ([2 ** 53] for Python's [int]
    and [float], by [python_unit_quotients]), the result [r] has [0 <= r],
    [r <= 1], and [r == 1] exactly when every label is matched. *)
Theorem accuracy_spec (bound : Z) `{!UnitQuotients bound}
    (labels predictions : list number) :
  match tests (zip labels predictions) with
  | inl e => accuracy labels predictions = inl e
  | inr cs =>
      let count := count_true cs in
      accuracy labels predictions
      = py_truediv (of_int count) (of_int (len labels))
      ∧ (0 ≤ count ≤ len labels)%Z
      ∧ (count = len labels ↔ all_matched labels predictions)
      ∧ (labels = [] →
         accuracy labels predictions = inl ZeroDivisionError)
      ∧ (labels ≠ [] → (len labels ≤ bound)%Z →
         ∃ r, accuracy labels predictions = inr r
              ∧ py_le (of_int 0) r = inr true
              ∧ py_le r (of_int 1) = inr true
              ∧ (py_eq r (of_int 1) = inr true
                 ↔ all_matched labels predictions))
  end.
Proof.
  unfold accuracy. rewrite accuracy_loop_tests.
  destruct (tests (zip labels predictions)) as [e|cs] eqn:Hcs; simpl; [done|].
  rewrite Z.add_0_l.
  destruct (tests_lookup _ _ Hcs) as [Hlen _]. rewrite length_zip in Hlen.
  pose proof (count_true_bounds cs) as Hb.
  pose proof (all_matched_tests _ _ _ Hcs) as Hall.
  assert (0 ≤ count_true cs ≤ len labels)%Z as Hcount by (unfold len; lia).
  split; [done|]. split; [done|]. split; [done|]. split.
  - intros ->. assert (count_true cs = 0)%Z as -> by (unfold len in *; simpl in *; lia).
    apply truediv_by_zero.
  - intros Hne Hbound.
    destruct (unit_quotient (count_true cs) (len labels)) as (r & Hr & H0 & H1 & Heq);
      [done| |].
    { split; [|done]. destruct labels; [done|]. unfold len. simpl length. lia. }
    exists r. by rewrite Hall.
Qed.

End PennyLaneFacts.

(** ** Python's [int / int] on counts

    The quotient of a count by a length is the double nearest to it; the
    lemmas follow the rounding of [binary_normalize] on the 57 or 58 bits
    [int_truediv] hands it. *)

Section FloatFacts.
Import PennyLane.
Local Open Scope Z_scope.

Lemma digits2_pos_log2 (p : positive) :
  Z.pos (digits2_pos p) = Z.log2 (Z.pos p) + 1.
Proof.
  assert (∀ q, digits2_pos q = Pos.size q) as Hsize.
  { induction q as [q IH|q IH|]; simpl; by rewrite ?IH. }
  rewrite Hsize. destruct p as [p|p|]; simpl; lia.
Qed.

Lemma digits2_pos_unique (p : positive) (d : Z) :
  2 ^ (d - 1) ≤ Z.pos p < 2 ^ d → 0 < d → Z.pos (digits2_pos p) = d.
Proof.
  intros Hp Hd. rewrite digits2_pos_log2.
  assert (Z.log2 (Z.pos p) = d - 1) as ->; [|lia].
  apply Z.log2_unique; [lia|].
  replace (Z.succ (d - 1)) with d by lia. exact Hp.
Qed.

Lemma shr_1_nonneg m r s :
  0 ≤ m →
  shr_1 {| shr_m := m; shr_r := r; shr_s := s |}
  = {| shr_m := Z.div2 m; shr_r := Z.odd m; shr_s := r || s |}.
Proof. intros Hm. destruct m as [|[p|p|]|p]; try done; lia. Qed.


Lemma shr_1_steps (m : Z) (r s : bool) :
  0 ≤ m →
  shr_1 {| shr_m := m; shr_r := r; shr_s := s |}
  = {| shr_m := m / 2; shr_r := negb (m mod 2 =? 0); shr_s := r || s |}.
Proof.
  intros Hm. rewrite shr_1_nonneg by done. rewrite Z.div2_div. f_equal.
  rewrite Zmod_odd. by destruct (Z.odd m).
Qed.

Lemma shr_4 (m : Z) :
  0 ≤ m →
  SpecFloat.iter_pos shr_1 4 {| shr_m := m; shr_r := false; shr_s := false |}
  = {| shr_m := m / 16;
       shr_r := 8 <=? m mod 16;
       shr_s := negb (m mod 8 =? 0) |}.
Proof.
  intros Hm. cbn [SpecFloat.iter_pos].
  rewrite !shr_1_steps by (Z.div_mod_to_equations; lia).
  f_equal.
  - Z.div_mod_to_equations; lia.
  - destruct (Z.eqb_spec (m / 2 / 2 / 2 mod 2) 0),
      (Z.leb_spec 8 (m mod 16)); simpl; try done;
      exfalso; Z.div_mod_to_equations; lia.
  - destruct (Z.eqb_spec (m / 2 / 2 mod 2) 0),
      (Z.eqb_spec (m / 2 mod 2) 0), (Z.eqb_spec (m mod 2) 0),
      (Z.eqb_spec (m mod 8) 0); simpl; try done;
      exfalso; Z.div_mod_to_equations; lia.
Qed.

Lemma shr_5 (m : Z) :
  0 ≤ m →
  SpecFloat.iter_pos shr_1 5 {| shr_m := m; shr_r := false; shr_s := false |}
  = {| shr_m := m / 32;
       shr_r := 16 <=? m mod 32;
       shr_s := negb (m mod 16 =? 0) |}.
Proof.
  intros Hm. cbn [SpecFloat.iter_pos].
  rewrite !shr_1_steps by (Z.div_mod_to_equations; lia).
  f_equal.
  - Z.div_mod_to_equations; lia.
  - destruct (Z.eqb_spec (m / 2 / 2 / 2 / 2 mod 2) 0),
      (Z.leb_spec 16 (m mod 32)); simpl; try done;
      exfalso; Z.div_mod_to_equations; lia.
  - destruct (Z.eqb_spec (m / 2 / 2 / 2 mod 2) 0),
      (Z.eqb_spec (m / 2 / 2 mod 2) 0),
      (Z.eqb_spec (m / 2 mod 2) 0), (Z.eqb_spec (m mod 2) 0),
      (Z.eqb_spec (m mod 16) 0); simpl; try done;
      exfalso; Z.div_mod_to_equations; lia.
Qed.


(** Rounding a mantissa of [53 + sh] bits to 53: the shifted mantissa
    [M1] is kept or goes one up; at [2 ^ 53] the exponent steps. *)
Lemma binary_round_aux_shift (m : positive) (e : Z) (sh : positive)
    (M1 : Z) (r st : bool) :
  Z.pos (digits2_pos m) = 53 + Z.pos sh →
  Z.pos sh ≤ 64 →
  -1000 ≤ e ≤ 900 →
  SpecFloat.iter_pos shr_1 sh
    {| shr_m := Z.pos m; shr_r := false; shr_s := false |}
  = {| shr_m := M1; shr_r := r; shr_s := st |} →
  2 ^ 52 ≤ M1 < 2 ^ 53 →
  let M2 := round_nearest_even M1
              (loc_of_shr_record {| shr_m := M1; shr_r := r; shr_s := st |}) in
  binary_round_aux prec emax false (Z.pos m) e loc_Exact
  = if M2 <? 2 ^ 53 then S754_finite false (Z.to_pos M2) (e + Z.pos sh)
    else S754_finite false (2 ^ 52) (e + Z.pos sh + 1).
Proof.
  intros Hd Hsh He Hshr HM1 M2.
  assert (M1 ≤ M2 ≤ M1 + 1) as HM2.
  { subst M2. destruct r, st; simpl; try lia. destruct (Z.even M1); lia. }
  unfold binary_round_aux, shr_fexp at 1.
  cbn [Zdigits2 shr_record_of_loc]. rewrite Hd.
  unfold fexp at 1, emin, prec, emax.
  rewrite Z.max_l by lia.
  replace (53 + Z.pos sh + e - 53 - e) with (Z.pos sh) by lia.
  cbn [shr]. rewrite Hshr. cbn [shr_m]. fold M2. clearbody M2.
  unfold shr_fexp, fexp, emin.
  destruct (Z.ltb_spec M2 (2 ^ 53)) as [Hlt|Hge].
  - destruct M2 as [|p|p]; try lia.
    cbn [Zdigits2 shr_record_of_loc Z.to_pos].
    rewrite (digits2_pos_unique p 53) by lia.
    rewrite Z.max_l by lia.
    replace (53 + (e + Z.pos sh) - 53 - (e + Z.pos sh)) with 0 by lia.
    cbn [shr shr_m].
    destruct (Z.leb_spec (e + Z.pos sh) (1024 - 53)); [done|lia].
  - assert (M2 = 2 ^ 53) as -> by lia.
    change (Zdigits2 (2 ^ 53)) with 54.
    rewrite Z.max_l by lia.
    replace (54 + (e + Z.pos sh) - 53 - (e + Z.pos sh)) with 1 by lia.
    cbn [shr shr_record_of_loc SpecFloat.iter_pos].
    change (shr_1 {| shr_m := 2 ^ 53; shr_r := false; shr_s := false |})
      with {| shr_m := 2 ^ 52; shr_r := false; shr_s := false |}.
    cbn [shr_m]. change (2 ^ 52) with (Z.pos (2 ^ 52)).
    cbv iota beta.
    destruct (Z.leb_spec (e + Z.pos sh + 1) (1024 - 53)); [done|lia].
Qed.


Lemma binary_normalize_shift (m : positive) (e : Z) (sh : positive)
    (M1 : Z) (r st : bool) :
  Z.pos (digits2_pos m) = 53 + Z.pos sh →
  Z.pos sh ≤ 64 →
  -1000 ≤ e ≤ 900 →
  SpecFloat.iter_pos shr_1 sh
    {| shr_m := Z.pos m; shr_r := false; shr_s := false |}
  = {| shr_m := M1; shr_r := r; shr_s := st |} →
  2 ^ 52 ≤ M1 < 2 ^ 53 →
  let M2 := round_nearest_even M1
              (loc_of_shr_record {| shr_m := M1; shr_r := r; shr_s := st |}) in
  binary_normalize prec emax (Z.pos m) e false
  = if M2 <? 2 ^ 53 then S754_finite false (Z.to_pos M2) (e + Z.pos sh)
    else S754_finite false (2 ^ 52) (e + Z.pos sh + 1).
Proof.
  intros Hd Hsh He Hshr HM1.
  unfold binary_normalize, binary_round, shl_align.
  rewrite Hd. unfold fexp at 1, emin, prec, emax.
  rewrite Z.max_l by lia.
  replace (53 + Z.pos sh + e - 53 - e) with (Z.pos sh) by lia.
  cbv iota beta. by apply binary_round_aux_shift.
Qed.

(** A finite double read back from its mantissa and exponent. *)
Lemma Prim2SF_finite (M : positive) (E : Z) :
  2 ^ 52 ≤ Z.pos M < 2 ^ 53 → -1074 ≤ E ≤ 971 →
  Prim2SF (SF2Prim (S754_finite false M E)) = S754_finite false M E.
Proof.
  intros HM HE. apply Prim2SF_SF2Prim.
  unfold valid_binary, bounded, canonical_mantissa.
  rewrite (digits2_pos_unique M 53) by lia.
  unfold fexp, emin, prec, emax. rewrite Z.max_l by lia.
  apply andb_true_iff. split; [apply Z.eqb_eq|apply Z.leb_le]; lia.
Qed.

Lemma is_infinity_finite (M : positive) (E : Z) :
  2 ^ 52 ≤ Z.pos M < 2 ^ 53 → -1074 ≤ E ≤ 971 →
  is_infinity (SF2Prim (S754_finite false M E)) = false.
Proof.
  intros HM HE. unfold is_infinity.
  rewrite FloatAxioms.eqb_spec, FloatAxioms.abs_spec, Prim2SF_finite by done. reflexivity.
Qed.

Lemma compare_int_float_finite (n : Z) (M : positive) (E : Z) :
  2 ^ 52 ≤ Z.pos M < 2 ^ 53 → -1074 ≤ E < 0 →
  compare_int_float n (SF2Prim (S754_finite false M E))
  = Some (n * 2 ^ (- E) ?= Z.pos M).
Proof.
  intros HM HE. unfold compare_int_float.
  rewrite Prim2SF_finite by lia.
  destruct (Z.leb_spec 0 E); [lia|].
  by rewrite Z.shiftl_mul_pow2 by lia.
Qed.


Lemma pow2_split (k : Z) :
  56 ≤ k →
  ∃ Y, 2 ^ (k + 1) = 64 * Y ∧ 2 ^ (k - 3) = 4 * Y ∧ 2 ^ (k - 4) = 2 * Y
       ∧ 2 ^ (k - 5) = Y ∧ 2 ^ 51 ≤ Y
       ∧ (k = 56 → Y = 2 ^ 51) ∧ (k = 57 → Y = 2 ^ 52)
       ∧ (58 ≤ k → 2 ^ 53 ≤ Y).
Proof.
  intros Hk. exists (2 ^ (k - 5)).
  replace (k + 1) with (k - 5 + 6) by lia.
  replace (k - 3) with (k - 5 + 2) by lia.
  replace (k - 4) with (k - 5 + 1) by lia.
  rewrite !Z.pow_add_r by lia.
  repeat split; try lia.
  - apply Z.pow_le_mono_r; lia.
  - by intros ->.
  - by intros ->.
  - intros Hk'. apply Z.pow_le_mono_r; lia.
Qed.

Lemma rounded_unit (M2 E : Z) :
  2 ^ 52 ≤ M2 ≤ 2 ^ 53 → -1000 ≤ E ≤ -2 →
  let x := SF2Prim (if M2 <? 2 ^ 53 then S754_finite false (Z.to_pos M2) E
                    else S754_finite false (2 ^ 52) (E + 1)) in
  is_infinity x = false
  ∧ compare_int_float 0 x = Some Lt
  ∧ compare_int_float 1 x
    = Some (if M2 <? 2 ^ 53 then 2 ^ (- E) ?= M2
            else 2 ^ (- E - 1) ?= 2 ^ 52).
Proof.
  intros HM2 HE x. subst x.
  destruct (Z.ltb_spec M2 (2 ^ 53)) as [Hlt|Hge].
  - assert (Z.pos (Z.to_pos M2) = M2) as Hpos by (apply Z2Pos.id; lia).
    rewrite is_infinity_finite, !compare_int_float_finite by lia.
    rewrite Hpos, Z.mul_0_l, Z.mul_1_l. repeat split.
    f_equal. apply Z.compare_lt_iff. lia.
  - rewrite is_infinity_finite, !compare_int_float_finite by lia.
    rewrite Z.mul_0_l, Z.mul_1_l. repeat split.
    by replace (- (E + 1)) with (- E - 1) by lia.
Qed.

Lemma nearest_unit (m : positive) (k : Z) :
  56 ≤ k ≤ 109 → 2 ^ 56 ≤ Z.pos m < 2 ^ 58 → Z.pos m ≤ 2 ^ (k + 1) →
  let x := nearest (Z.pos m) (- k - 1) in
  let half := if Z.pos m <? 2 ^ 57 then 8 else 16 in
  is_infinity x = false
  ∧ compare_int_float 0 x = Some Lt
  ∧ compare_int_float 1 x
    = Some (if 2 ^ (k + 1) <=? Z.pos m + half then Eq else Gt).
Proof.
  intros Hk Hm HT x half.
  destruct (pow2_split k) as (Y & HT64 & HT4 & HT2 & HT1 & HY & H56 & H57 & H58);
    [lia|].
  rewrite HT64 in *. clear HT64.
  subst x half. unfold nearest.
  destruct (Z.ltb_spec (Z.pos m) (2 ^ 57)) as [Hlt|Hge].
  - rewrite (binary_normalize_shift m (- k - 1) 4 _ _ _
               (digits2_pos_unique m 57 ltac:(lia) ltac:(lia))
               ltac:(lia) ltac:(lia) (shr_4 (Z.pos m) ltac:(lia)))
      by (Z.div_mod_to_equations; lia).
    set (M1 := Z.pos m / 16).
    set (M2 := round_nearest_even _ _).
    assert (M2 = if (Z.pos m mod 16 <? 8)
                    || ((Z.pos m mod 16 =? 8) && Z.even M1)
                 then M1 else M1 + 1) as HM2.
    { subst M2.
      destruct (Z.leb_spec 8 (Z.pos m mod 16)),
        (Z.eqb_spec (Z.pos m mod 8) 0),
        (Z.ltb_spec (Z.pos m mod 16) 8),
        (Z.eqb_spec (Z.pos m mod 16) 8); simpl; try done;
        exfalso; Z.div_mod_to_equations; lia. }
    clearbody M2.
    replace (- k - 1 + 4 + 1) with (- k - 1 + 4 + 1) by lia.
    destruct (rounded_unit M2 (- k - 1 + 4)) as (Hinf & H0 & H1).
    { destruct (Z.even M1), (Z.ltb_spec (Z.pos m mod 16) 8),
        (Z.eqb_spec (Z.pos m mod 16) 8); simpl in HM2;
        subst M1; Z.div_mod_to_equations; lia. }
    { lia. }
    split; [done|]. split; [done|]. rewrite H1. f_equal.
    replace (- (- k - 1 + 4)) with (k - 3) by lia.
    replace (k - 3 - 1) with (k - 4) by lia.
    rewrite HT4, HT2.
    pose proof (Zmod_even M1) as Heven.
    assert (k = 56 ∨ k = 57 ∨ 58 ≤ k) as [Hk'|[Hk'|Hk']] by lia;
      [specialize (H56 Hk')|specialize (H57 Hk')|specialize (H58 Hk')];
      destruct (Z.ltb_spec M2 (2 ^ 53)), (Z.leb_spec (64 * Y) (Z.pos m + 8));
      rewrite ?Z.compare_eq_iff, ?Z.compare_gt_iff;
      destruct (Z.even M1), (Z.ltb_spec (Z.pos m mod 16) 8),
        (Z.eqb_spec (Z.pos m mod 16) 8); simpl in HM2;
      subst M1; Z.div_mod_to_equations; lia.
  - rewrite (binary_normalize_shift m (- k - 1) 5 _ _ _
               (digits2_pos_unique m 58 ltac:(lia) ltac:(lia))
               ltac:(lia) ltac:(lia) (shr_5 (Z.pos m) ltac:(lia)))
      by (Z.div_mod_to_equations; lia).
    set (M1 := Z.pos m / 32).
    set (M2 := round_nearest_even _ _).
    assert (M2 = if (Z.pos m mod 32 <? 16)
                    || ((Z.pos m mod 32 =? 16) && Z.even M1)
                 then M1 else M1 + 1) as HM2.
    { subst M2.
      destruct (Z.leb_spec 16 (Z.pos m mod 32)),
        (Z.eqb_spec (Z.pos m mod 16) 0),
        (Z.ltb_spec (Z.pos m mod 32) 16),
        (Z.eqb_spec (Z.pos m mod 32) 16); simpl; try done;
        exfalso; Z.div_mod_to_equations; lia. }
    clearbody M2.
    destruct (rounded_unit M2 (- k - 1 + 5)) as (Hinf & H0 & H1).
    { destruct (Z.even M1), (Z.ltb_spec (Z.pos m mod 32) 16),
        (Z.eqb_spec (Z.pos m mod 32) 16); simpl in HM2;
        subst M1; Z.div_mod_to_equations; lia. }
    { lia. }
    split; [done|]. split; [done|]. rewrite H1. f_equal.
    replace (- (- k - 1 + 5)) with (k - 4) by lia.
    replace (k - 4 - 1) with (k - 5) by lia.
    rewrite HT2, HT1.
    pose proof (Zmod_even M1) as Heven.
    assert (k = 56 ∨ k = 57 ∨ 58 ≤ k) as [Hk'|[Hk'|Hk']] by lia;
      [specialize (H56 Hk')|specialize (H57 Hk')|specialize (H58 Hk')];
      destruct (Z.ltb_spec M2 (2 ^ 53)), (Z.leb_spec (64 * Y) (Z.pos m + 16));
      rewrite ?Z.compare_eq_iff, ?Z.compare_gt_iff;
      destruct (Z.even M1), (Z.ltb_spec (Z.pos m mod 32) 16),
        (Z.eqb_spec (Z.pos m mod 32) 16); simpl in HM2;
      subst M1; Z.div_mod_to_equations; lia.
Qed.


(** The scaled quotient [int_truediv] rounds, for [0 < c <= n <= 2 ** 53]:
    it has 57 or 58 bits, does not exceed [1], and stays away from [1] by
    more than half a unit of the last place unless [c = n]. *)
Lemma scaled_quotient (c n : Z) :
  0 < c ≤ n → n ≤ 2 ^ 53 →
  let k := Z.log2 n - Z.log2 c + 56 in
  let q := c * 2 ^ k / n in
  let sticky := if (c * 2 ^ k) mod n =? 0 then 0 else 1 in
  let m := 2 * q + sticky in
  56 ≤ k ≤ 109
  ∧ 2 ^ 56 ≤ m < 2 ^ 58
  ∧ m ≤ 2 ^ (k + 1)
  ∧ (c = n → m = 2 ^ (k + 1))
  ∧ (c < n → m + (if m <? 2 ^ 57 then 8 else 16) < 2 ^ (k + 1)).
Proof.
  intros Hc Hn k q sticky m.
  pose proof (Z.log2_spec c ltac:(lia)) as Hlc.
  pose proof (Z.log2_spec n ltac:(lia)) as Hln.
  pose proof (Z.log2_nonneg c) as Hlc0.
  pose proof (Z.log2_le_mono c n ltac:(lia)) as Hle.
  assert (Z.log2 n ≤ 53) as Hln53.
  { rewrite <- (Z.log2_pow2 53) by lia. apply Z.log2_le_mono. lia. }
  assert (56 ≤ k ≤ 109) as Hk by (subst k; lia).
  set (a := 2 ^ Z.log2 c) in *. set (b := 2 ^ Z.log2 n) in *.
  rewrite <- !Z.add_1_r in Hlc, Hln.
  rewrite !Z.pow_add_r in Hlc, Hln by lia.
  change (2 ^ 1) with 2 in *. fold a in Hlc. fold b in Hln.
  set (P := 2 ^ k) in *. set (D := 2 ^ (k - 53)).
  assert (0 < a) as Ha by (apply Z.pow_pos_nonneg; lia).
  assert (0 < P) as HP by (apply Z.pow_pos_nonneg; lia).
  assert (P = 2 ^ 53 * D) as HPD.
  { subst P D. rewrite <- Z.pow_add_r by lia. f_equal. lia. }
  assert (8 ≤ D) as HD.
  { subst D. change 8 with (2 ^ 3). apply Z.pow_le_mono_r; lia. }
  assert (k = 56 ∨ 16 ≤ D) as HD'.
  { destruct (decide (k = 56)) as [|Hne]; [by left|right].
    subst D. change 16 with (2 ^ 4). apply Z.pow_le_mono_r; lia. }
  assert (k = 56 → D = 8) as HD56.
  { intros Hk56. subst D. by rewrite Hk56. }
  assert (a * P = 2 ^ 56 * b) as HaP.
  { subst a P b k. rewrite <- !Z.pow_add_r by lia. f_equal. lia. }
  assert (2 ^ (k + 1) = 2 * P) as ->.
  { subst P. rewrite Z.pow_add_r by lia. lia. }
  pose proof (Z.div_mod (c * P) n ltac:(lia)) as Hdiv.
  pose proof (Z.mod_pos_bound (c * P) n ltac:(lia)) as Hmod.
  fold q in Hdiv.
  assert (sticky = 0 ∧ (c * P) mod n = 0 ∨ sticky = 1 ∧ (c * P) mod n ≠ 0)
    as Hsticky.
  { subst sticky. destruct (Z.eqb_spec ((c * P) mod n) 0); [by left|by right]. }
  clearbody sticky.
  assert (a * P ≤ c * P) as HaP' by (apply Z.mul_le_mono_nonneg_r; lia).
  assert (c * P < 2 * a * P) as HcP by (apply Z.mul_lt_mono_pos_r; lia).
  assert (c * P ≤ n * P) as HcP' by (apply Z.mul_le_mono_nonneg_r; lia).
  assert (n * D ≤ 2 ^ 53 * D) as HnD by (apply Z.mul_le_mono_nonneg_r; lia).
  assert (2 ^ 55 ≤ q) as Hq55.
  { apply Z.div_le_lower_bound; lia. }
  assert (q ≤ P) as HqP.
  { apply Z.div_le_upper_bound; lia. }
  assert (q < 2 ^ 57) as Hq57.
  { apply Z.div_lt_upper_bound; lia. }
  assert (q = P → sticky = 0) as HqP0.
  { intros HqP'. rewrite HqP' in Hdiv. lia. }
  split; [done|]. split; [subst m; lia|].
  split; [subst m; destruct (decide (q = P)); lia|]. split.
  - intros Hcn. assert (q = P) as HqP'; [|subst m; lia].
    subst q. rewrite Hcn, Z.mul_comm. apply Z.div_mul. lia.
  - intros Hcn.
    assert (c * P ≤ (n - 1) * P) as HcP''
      by (apply Z.mul_le_mono_nonneg_r; lia).
    assert (q ≤ P - D) as HqD.
    { apply Z.div_le_upper_bound; lia. }
    subst m. destruct (Z.ltb_spec (2 * q + sticky) (2 ^ 57)); [lia|].
    destruct HD' as [Hk56|HD']; [|lia].
    specialize (HD56 Hk56). subst P. rewrite Hk56 in *. lia.
Qed.


(** Python's [c / n] for [0 <= c <= n], [0 < n <= 2 ** 53]. *)
Lemma int_truediv_unit (c n : Z) :
  0 ≤ c ≤ n → 0 < n ≤ 2 ^ 53 →
  ∃ x, int_truediv c n = inr x
       ∧ (compare_int_float 0 x = Some Lt ∨ compare_int_float 0 x = Some Eq)
       ∧ (compare_int_float 1 x = Some Gt ∨ compare_int_float 1 x = Some Eq)
       ∧ (compare_int_float 1 x = Some Eq ↔ c = n).
Proof.
  intros Hc Hn. unfold int_truediv.
  destruct (Z.eqb_spec n 0) as [|_]; [lia|].
  destruct (Z.eqb_spec c 0) as [->|Hc0].
  - destruct (Z.ltb_spec n 0) as [|_]; [lia|].
    exists zero. split; [done|]. split; [by right|]. split; [by left|].
    split; [done|lia].
  - destruct (scaled_quotient c n) as (Hk & Hm & HT & Heq & Hlt); [lia|lia|].
    rewrite !Z.abs_eq, !Z.sgn_pos, Z.max_r, Z.shiftl_mul_pow2 by lia.
    set (k := Z.log2 n - Z.log2 c + 56) in *.
    set (m := 2 * (c * 2 ^ k / n)
              + (if (c * 2 ^ k) mod n =? 0 then 0 else 1)) in *.
    replace (1 * 1 * m) with m by lia. clearbody m.
    destruct m as [|m|m]; try lia.
    destruct (nearest_unit m k) as (Hinf & H0 & H1); [done..|].
    rewrite Hinf. eexists. split; [done|]. rewrite H0, H1.
    split; [by left|].
    destruct (Z.leb_spec (2 ^ (k + 1))
                (Z.pos m + (if Z.pos m <? 2 ^ 57 then 8 else 16)))
      as [Hle|Hgt].
    + split; [by right|]. split; [|done]. intros _.
      destruct (decide (c = n)) as [|Hne]; [done|].
      specialize (Hlt ltac:(lia)). lia.
    + split; [by left|]. split; [done|]. intros Hcn.
      specialize (Heq Hcn).
      destruct (Z.pos m <? 2 ^ 57); lia.
Qed.

End FloatFacts.

Section PythonLaw.
Import PennyLane.
Variable pow : float → float → float.

(** Python's [int]s and [float]s keep the quotients of up to [2 ** 53]
    labels in the unit interval apart. *)
Lemma python_unit_quotients : @UnitQuotients (python pow) (2 ^ 53).
Proof.
  intros c n Hc Hn.
  destruct (int_truediv_unit c n) as (x & Hx & H0 & H1 & Heq); [done..|].
  exists (Float x).
  change (@py_truediv (python pow)) with object_truediv.
  change (@py_le (python pow)) with object_le.
  change (@py_eq (python pow)) with object_eq.
  change (@of_int (python pow)) with Int.
  unfold object_truediv, object_le, object_eq. simpl. rewrite Hx. simpl.
  split; [done|]. split; [|split].
  - f_equal. by apply bool_decide_eq_true_2.
  - f_equal. apply bool_decide_eq_true_2.
    destruct H1 as [-> | ->]; [by left|by right].
  - rewrite <- Heq. split.
    + intros [= Hd]. apply bool_decide_eq_true_1 in Hd.
      destruct (compare_int_float 1 x) as [[]|]; simpl in Hd; congruence.
    + intros ->. done.
Qed.

End PythonLaw.

(** ** [square_loss] and [accuracy] on Python's numbers *)

Section PythonNumbers.
Import PennyLane.
Variable pow : float → float → float.

Lemma object_lt_floats (a b : float) :
  object_lt (Float a) (Float b) = inr (a <? b)%float.
Proof.
  unfold object_lt, object_compare. f_equal.
  rewrite FloatAxioms.compare_spec, FloatAxioms.ltb_spec. unfold SFltb.
  destruct (SFcompare (Prim2SF a) (Prim2SF b)) as [[]|]; done.
Qed.

Lemma tests_floats (ls ps : list float) :
  @tests (python pow) (zip (Float <$> ls) (Float <$> ps))
  = inr ((λ lp, (abs (lp.1 - lp.2) <? 0x1.4f8b588e368f1p-17)%float)
           <$> zip ls ps).
Proof.
  revert ps. induction ls as [|l ls IH]; intros [|p ps]; try done.
  rewrite !fmap_cons.
  change (zip (Float l :: (Float <$> ls)) (Float p :: (Float <$> ps)))
    with ((Float l, Float p) :: zip (Float <$> ls) (Float <$> ps)).
  cbn [tests]. rewrite IH.
  change (@within_tolerance (python pow) (Float l) (Float p))
    with (object_lt (Float (abs (l - p))) (Float 0x1.4f8b588e368f1p-17)).
  by rewrite object_lt_floats.
Qed.

(** X15: on lists of Python floats [accuracy] raises only without labels
    ([ZeroDivisionError]): a NaN or an infinity among the entries fails
    the test without raising.  For 1 to [2 ** 53] labels it returns a
    float [x] with [0 <= x <= 1], and [x == 1] exactly when no label lacks
    a prediction and every test [abs(l - p) < 1e-5] holds in double
    arithmetic. *)
Theorem accuracy_of_floats (ls ps : list float) :
  let labels := Float <$> ls in
  let predictions := Float <$> ps in
  let matched (lp : float * float) :=
    (abs (lp.1 - lp.2) <? 0x1.4f8b588e368f1p-17)%float in
  (ls = [] →
   @accuracy (python pow) labels predictions = inl ZeroDivisionError)
  ∧ (ls ≠ [] → (Z.of_nat (length ls) ≤ 2 ^ 53)%Z →
     ∃ x, @accuracy (python pow) labels predictions = inr (Float x)
          ∧ object_le (Int 0) (Float x) = inr true
          ∧ object_le (Float x) (Int 1) = inr true
          ∧ (object_eq (Float x) (Int 1) = inr true
             ↔ length ls ≤ length ps
               ∧ Forall (λ lp, matched lp = true) (zip ls ps))).
Proof.
  intros labels predictions matched. split.
  - intros ->. reflexivity.
  - intros Hne Hlen.
    set (cs := matched <$> zip ls ps).
    pose proof (count_true_bounds cs) as Hb.
    assert (length cs = length ls `min` length ps) as Hcs
      by (subst cs; by rewrite length_fmap, length_zip).
    destruct (python_unit_quotients pow (count_true cs)
                (Z.of_nat (length ls))) as (r & Hr & H0 & H1 & Heq).
    { lia. }
    { split; [|done]. destruct ls; [done|]. simpl length. lia. }
    assert (@accuracy (python pow) labels predictions = inr r) as Hacc.
    { unfold accuracy. rewrite accuracy_loop_tests.
      subst labels predictions. rewrite tests_floats. fold matched. fold cs.
      cbn [mbind error_bind]. rewrite Z.add_0_l.
      unfold len. rewrite length_fmap. exact Hr. }
    destruct r as [n|x].
    { change (@py_truediv (python pow)) with object_truediv in Hr.
      unfold object_truediv in Hr. simpl in Hr.
      by destruct (int_truediv _ _). }
    exists x. split; [done|]. split; [done|]. split; [done|].
    etransitivity; [exact Heq|].
    split.
    + intros Hcount.
      assert (length cs = length ls) as Hfull by lia.
      split; [lia|].
      assert (Forall (λ c, c = true) cs) as Hall
        by (apply count_true_all; lia).
      subst cs. by apply Forall_fmap in Hall.
    + intros [Hle Hall]. rewrite <- (Nat.min_l _ _ Hle), <- Hcs.
      apply count_true_all. subst cs. by apply Forall_fmap.
Qed.


Lemma square_loss_loop_ints (ls ps : list Z) (loss : Z) :
  @square_loss_loop (python pow) (Int loss) (zip (Int <$> ls) (Int <$> ps))
  = inr (Int (loss + foldr Z.add 0%Z
                       ((λ lp, (lp.1 - lp.2) * (lp.1 - lp.2))%Z
                          <$> zip ls ps))).
Proof.
  revert ps loss. induction ls as [|l ls IH]; intros [|p ps] loss;
    try (simpl; do 2 f_equal; lia).
  rewrite !fmap_cons.
  change (zip (Int l :: (Int <$> ls)) (Int p :: (Int <$> ps)))
    with ((Int l, Int p) :: zip (Int <$> ls) (Int <$> ps)).
  change (zip (l :: ls) (p :: ps)) with ((l, p) :: zip ls ps).
  cbn [square_loss_loop]. cbn. rewrite IH. do 2 f_equal. lia.
Qed.

Lemma within_tolerance_ints (l p : Z) :
  @within_tolerance (python pow) (Int l) (Int p)
  = inr (bool_decide (l = p)).
Proof.
  change (@within_tolerance (python pow) (Int l) (Int p))
    with (object_lt (Int (Z.abs (l - p))) (Float 0x1.4f8b588e368f1p-17)).
  unfold object_lt, object_compare, compare_int_float.
  change (Prim2SF 0x1.4f8b588e368f1p-17)
    with (S754_finite false 5902958103587057 (-69)).
  cbn iota beta. change (0 <=? -69)%Z with false. cbn iota.
  change (- -69)%Z with 69%Z.
  rewrite Z.shiftl_mul_pow2 by lia. f_equal.
  apply bool_decide_ext. split.
  - intros [= H]. rewrite Z.compare_lt_iff in H. lia.
  - intros ->. f_equal. apply Z.compare_lt_iff. lia.
Qed.

Lemma accuracy_loop_ints (ls ps : list Z) (loss : Z) :
  @accuracy_loop (python pow) loss (zip (Int <$> ls) (Int <$> ps))
  = inr (loss + Z.of_nat (length (filter (λ lp, lp.1 = lp.2) (zip ls ps))))%Z.
Proof.
  rewrite accuracy_loop_tests.
  assert (@tests (python pow) (zip (Int <$> ls) (Int <$> ps))
          = inr ((λ lp, bool_decide (lp.1 = lp.2)) <$> zip ls ps)) as ->.
  { revert ps. induction ls as [|l ls IH]; intros [|p ps]; try done.
    rewrite !fmap_cons.
    change (zip (Int l :: (Int <$> ls)) (Int p :: (Int <$> ps)))
      with ((Int l, Int p) :: zip (Int <$> ls) (Int <$> ps)).
    cbn [tests]. by rewrite IH, within_tolerance_ints. }
  cbn [mbind error_bind]. do 3 f_equal. unfold count_true. f_equal.
  induction (zip ls ps) as [|[l p] lps IH]; [done|].
  rewrite fmap_cons, !filter_cons. simpl.
  destruct (decide (l = p)) as [Heq|Hne].
  - rewrite bool_decide_eq_true_2 by done. rewrite decide_True by done.
    simpl. by rewrite IH.
  - rewrite bool_decide_eq_false_2 by done. by rewrite decide_False by done.
Qed.

(** X16: on Python ints nothing rounds before the final division:
    [square_loss] is the double nearest to the exact sum of the squared
    differences divided by [len(labels)], the test [abs(l - p) < 1e-5] is
    [l == p], and [accuracy] is the double nearest to the share of equal
    pairs. *)
Theorem loss_and_accuracy_of_ints (ls ps : list Z) :
  let labels := Int <$> ls in
  let predictions := Int <$> ps in
  let squares := (λ lp, (lp.1 - lp.2) * (lp.1 - lp.2))%Z <$> zip ls ps in
  let equal := filter (λ lp, lp.1 = lp.2) (zip ls ps) in
  @square_loss (python pow) labels predictions
  = (x ← int_truediv (foldr Z.add 0%Z squares) (Z.of_nat (length ls));
     inr (Float x))
  ∧ @accuracy (python pow) labels predictions
    = (x ← int_truediv (Z.of_nat (length equal)) (Z.of_nat (length ls));
       inr (Float x))
  ∧ ∀ l p, @within_tolerance (python pow) (Int l) (Int p)
           = inr (bool_decide (l = p)).
Proof.
  intros labels predictions squares equal. split; [|split].
  - unfold square_loss. subst labels predictions.
    change (@of_int (python pow) 0) with (Int 0).
    rewrite square_loss_loop_ints. cbn [mbind error_bind].
    rewrite Z.add_0_l. unfold len. by rewrite length_fmap.
  - unfold accuracy. subst labels predictions.
    rewrite accuracy_loop_ints. cbn [mbind error_bind].
    rewrite Z.add_0_l. unfold len. by rewrite length_fmap.
  - apply within_tolerance_ints.
Qed.

End PythonNumbers.

(** ** The variational classifier *)

Section ClassifierFacts.
Import PennyLane Classifier.
Context `{A : Arithmetic}.
Context (execute : list operation → measurement → option number).
Implicit Types (W : list (list number)) (weights : list (list (list number))).
Implicit Types (t : list operation) (x : list number).

Lemma tape_bind_eq {X Y : Type} (c : Tape X) (f : X → Tape Y) t :
  (c ≫= f) t
  = match c t with
    | (inr a, t') => f a t'
    | (inl e, t') => (inl e, t')
    end.
Proof. reflexivity. Qed.

(** A row that is read: three entries or an [IndexError]. *)
Lemma rot_row_eq W i t :
  rot_row W i t
  = match W !! i ≫= (λ row, rot_of row i) with
    | Some op => (inr tt, t ++ [op])
    | None => (inl (Raised IndexError), t)
    end.
Proof.
  unfold rot_row. rewrite !tape_bind_eq. unfold item.
  destruct (W !! i) as [[|phi [|theta [|omega row]]]|]; reflexivity.
Qed.

Lemma layer_eq W t :
  match layer_operations W with
  | Some ops => layer W t = (inr tt, t ++ ops)
  | None => (layer W t).1 = inl (Raised IndexError)
  end.
Proof.
  unfold layer, layer_operations.
  destruct W as [|r0 [|r1 [|r2 [|r3 W]]]];
    repeat first
      [ done
      | rewrite tape_bind_eq, rot_row_eq; cbn [lookup list_lookup mbind option_bind]
      | match goal with
        | |- context [rot_of ?r ?i] =>
            destruct r as [|? [|? [|? ?]]]; cbn [rot_of]
        end ].
  all: cbn; unfold queue; rewrite ?tape_bind_eq; cbn; by rewrite <- ?app_assoc.
Qed.


Lemma layer_operations_Some W ops :
  layer_operations W = Some ops →
  length ops = 8
  ∧ ops ≫= wires_of = [0; 1; 2; 3; 0; 1; 1; 2; 2; 3; 3; 0]
  ∧ ops ≫= angles_of = take 4 W ≫= take 3.
Proof.
  unfold layer_operations.
  destruct W as [|[|a0 [|b0 [|c0 r0]]] [|[|a1 [|b1 [|c1 r1]]]
                 [|[|a2 [|b2 [|c2 r2]]] [|[|a3 [|b3 [|c3 r3]]] W]]]];
    try done.
  intros [= <-]. done.
Qed.

Lemma layer_operations_is_Some W :
  is_Some (layer_operations W)
  ↔ 4 ≤ length W ∧ Forall (λ row, 3 ≤ length row) (take 4 W).
Proof.
  unfold layer_operations. split.
  - intros [ops Hops].
    destruct W as [|[|a0 [|b0 [|c0 r0]]] [|[|a1 [|b1 [|c1 r1]]]
                   [|[|a2 [|b2 [|c2 r2]]] [|[|a3 [|b3 [|c3 r3]]] W]]]];
      try done.
    split; [simpl; lia|]. cbn [take].
    repeat (apply Forall_cons; split; [simpl; lia|]). apply Forall_nil_2.
  - intros [Hlen Hrows].
    destruct W as [|r0 [|r1 [|r2 [|r3 W]]]]; simpl in Hlen; try lia.
    cbn [take] in Hrows.
    repeat match goal with
           | H : Forall _ (_ :: _) |- _ => apply Forall_cons in H as [? H]
           end.
    repeat match goal with
           | H : 3 ≤ length ?r |- _ =>
               destruct r as [|? [|? [|? ?]]]; simpl in H; try lia; clear H
           end.
    by eexists.
Qed.

(** X11: [layer(W)] queues eight operations, [Rot] on the wires 0 to 3
    with the first three entries of the first four rows of [W] as angles,
    in order, then [CNOT] on the ring (0,1), (1,2), (2,3), (3,0); it
    raises [IndexError] exactly when [W] has fewer than four rows or one of
    the first four has fewer than three entries. *)
Theorem layer_outcome W t :
  match layer_operations W with
  | Some ops =>
      layer W t = (inr tt, t ++ ops)
      ∧ length ops = 8
      ∧ ops ≫= wires_of = [0; 1; 2; 3; 0; 1; 1; 2; 2; 3; 3; 0]
      ∧ ops ≫= angles_of = take 4 W ≫= take 3
  | None => (layer W t).1 = inl (Raised IndexError)
  end
  ∧ (is_Some (layer_operations W)
     ↔ 4 ≤ length W ∧ Forall (λ row, 3 ≤ length row) (take 4 W)).
Proof.
  split; [|apply layer_operations_is_Some].
  pose proof (layer_eq W t) as Hl.
  destruct (layer_operations W) as [ops|] eqn:Hops; [|done].
  split; [done|]. by apply layer_operations_Some.
Qed.

Lemma for_layers_eq weights : ∀ t,
  match mapM layer_operations weights with
  | Some layers => for_layers weights t = (inr tt, t ++ concat layers)
  | None => (for_layers weights t).1 = inl (Raised IndexError)
  end.
Proof.
  induction weights as [|W weights IH]; intros t.
  - simpl. by rewrite app_nil_r.
  - cbn [mapM for_layers]. rewrite tape_bind_eq.
    pose proof (layer_eq W t) as Hl.
    destruct (layer_operations W) as [ops|]; cbn.
    + rewrite Hl. specialize (IH (t ++ ops)).
      destruct (mapM layer_operations weights) as [layers|]; cbn.
      * by rewrite IH, app_assoc.
      * done.
    + destruct (layer W t) as [[e|[]] t']; simpl in *; congruence.
Qed.

Lemma circuit_function_eq weights x :
  match circuit_tape weights x with
  | Some tape =>
      circuit_function weights x [] = (inr (expval (PauliZ 0)), tape)
  | None => (circuit_function weights x []).1 = inl (Raised IndexError)
  end.
Proof.
  unfold circuit_function, circuit_tape, statepreparation.
  rewrite tape_bind_eq. unfold queue at 1. cbn iota beta.
  rewrite tape_bind_eq.
  pose proof (for_layers_eq weights [BasisState x [0; 1; 2; 3]]) as Hl.
  destruct (mapM layer_operations weights) as [layers|]; cbn.
  - by rewrite Hl.
  - rewrite tape_bind_eq.
    destruct (for_layers weights _) as [[e|[]] t']; simpl in *; congruence.
Qed.

Lemma mapM_layer_operations weights :
  Forall (λ W, Numpy.has_shape W 4 3) weights →
  ∃ layers, mapM layer_operations weights = Some layers
            ∧ length (concat layers) = 8 * length weights
            ∧ concat layers ≫= angles_of = concat (concat weights)
            ∧ Forall (λ op, Forall (λ w, w < 4) (wires_of op))
                (concat layers).
Proof.
  induction 1 as [|W weights [Hlen Hrows] _ (layers & Hl & Hn & Ha & Hw)].
  { exists []. repeat split; constructor. }
  destruct (proj2 (layer_operations_is_Some W)) as [ops Hops].
  { split; [lia|]. rewrite take_ge by lia.
    eapply Forall_impl; [exact Hrows|]. intros row ->. done. }
  destruct (layer_operations_Some W ops Hops) as (Hn' & Hw' & Ha').
  exists (ops :: layers). cbn [mapM]. rewrite Hops, Hl. cbn.
  split; [done|]. split; [|split].
  - rewrite length_app, Hn, Hn'. lia.
  - rewrite bind_app, Ha, Ha', take_ge by lia.
    change (concat (W :: weights)) with (W ++ concat weights).
    rewrite concat_app. f_equal.
    clear -Hrows. induction Hrows as [|row W Hrow _ IH]; [done|].
    rewrite bind_cons, IH, take_ge by lia. done.
  - apply Forall_app. split; [|done].
    apply Forall_forall. intros op Hop. apply Forall_forall. intros w Hw0.
    assert (w ∈ ops ≫= wires_of) as Hin
      by (apply list_elem_of_bind; eauto).
    rewrite Hw' in Hin. rewrite !elem_of_cons, elem_of_nil in Hin. lia.
Qed.

(** X12: calling the QNode [circuit(weights, x)] executes on the device
    the tape [BasisState(x, wires=[0, 1, 2, 3])] followed by the
    operations of [layer(W)] for each [W] of [weights] in order, measuring
    [expval(PauliZ(0))]; when a layer raises [IndexError] the device is
    not run.  For weights of shape [(n, 4, 3)] the tape has [1 + 8 * n]
    operations, its rotation angles are the entries of [weights] in
    row-major order, each used once, and every wire is below 4.
    [variational_classifier] adds [bias] to the device's result. *)
Theorem circuit_outcome weights x :
  match circuit_tape weights x with
  | Some tape =>
      circuit execute weights x
      = match execute tape (expval (PauliZ 0)) with
        | Some v => inr v
        | None => inl LibraryError
        end
  | None => circuit execute weights x = inl (Raised IndexError)
  end
  ∧ (Forall (λ W, Numpy.has_shape W 4 3) weights →
     ∃ tape, circuit_tape weights x
             = Some (BasisState x [0; 1; 2; 3] :: tape)
             ∧ length tape = 8 * length weights
             ∧ tape ≫= angles_of = concat (concat weights)
             ∧ Forall (λ op, Forall (λ w, w < 4) (wires_of op)) tape)
  ∧ (∀ bias,
       variational_classifier execute weights bias x
       = match circuit execute weights x with
         | inr v => lift (py_add v bias)
         | inl e => inl e
         end).
Proof.
  split; [|split].
  - unfold circuit. pose proof (circuit_function_eq weights x) as Hc.
    destruct (circuit_tape weights x) as [tape|].
    + by rewrite Hc.
    + destruct (circuit_function weights x []) as [[e|m] t'];
        simpl in *; congruence.
  - intros Hshape.
    destruct (mapM_layer_operations weights Hshape)
      as (layers & Hl & Hn & Ha & Hw).
    exists (concat layers). unfold circuit_tape. rewrite Hl. done.
  - done.
Qed.

Lemma comprehension_ok {X Y : Type} (f : X → exception + Y) (l : list X)
    (ys : list Y) :
  Forall2 (λ a b, f a = inr b) l ys → comprehension f l = inr ys.
Proof.
  induction 1 as [|a b l ys Hab _ IH]; simpl; [done|].
  by rewrite Hab, IH.
Qed.

Lemma comprehension_raises {X Y : Type} (f : X → exception + Y)
    (l1 : list X) (a : X) (l2 : list X) e :
  Forall (λ a', ∃ b, f a' = inr b) l1 → f a = inl e →
  comprehension f (l1 ++ a :: l2) = inl e.
Proof.
  intros Hl1 Ha. induction Hl1 as [|a' l1 [b Hb] _ IH]; simpl.
  - by rewrite Ha.
  - by rewrite Hb, IH.
Qed.

Lemma zip_take_length {X Y : Type} (l : list X) (k : list Y) :
  zip l (take (length l) k) = zip l k.
Proof.
  revert k. induction l as [|a l IH]; intros [|b k]; simpl; try done.
  by rewrite IH.
Qed.

(** X13: [cost(weights, bias, X, Y)] evaluates the classifier on every
    row of [X] in order and raises what the first failing evaluation
    raises; otherwise it is [square_loss(Y, predictions)]: with no labels
    it raises [ZeroDivisionError] although every prediction was computed,
    and predictions beyond [len(Y)] do not enter the loss. *)
Theorem cost_outcomes weights bias (X : list (list number))
    (Y : list number) :
  (∀ predictions,
     Forall2 (λ x p, variational_classifier execute weights bias x = inr p)
       X predictions →
     cost execute weights bias X Y = lift (square_loss Y predictions)
     ∧ (Y = [] →
        cost execute weights bias X Y = inl (Raised ZeroDivisionError))
     ∧ cost execute weights bias X Y
       = lift (square_loss Y (take (length Y) predictions)))
  ∧ (∀ X1 x X2 e,
       X = X1 ++ x :: X2 →
       Forall (λ x', ∃ p,
                 variational_classifier execute weights bias x' = inr p) X1 →
       variational_classifier execute weights bias x = inl e →
       cost execute weights bias X Y = inl e).
Proof.
  split.
  - intros predictions Hps.
    assert (cost execute weights bias X Y = lift (square_loss Y predictions))
      as Hcost.
    { unfold cost. by rewrite (comprehension_ok _ X predictions). }
    split; [done|]. split.
    + intros ->. rewrite Hcost.
      destruct (square_loss_spec [] predictions) as (_ & _ & _ & ->); done.
    + rewrite Hcost. f_equal.
      unfold square_loss. by rewrite zip_take_length.
  - intros X1 x X2 e -> HX1 Hx. unfold cost.
    by rewrite (comprehension_raises _ X1 x X2 e).
Qed.

End ClassifierFacts.

Section TrainingFacts.
Import PennyLane Classifier.
Context `{A : Arithmetic}.
Context (execute : list operation → measurement → option number).
Context (np_sign : number → number).
Context {RandomState Optimizer : Type}.
Context (randint :
           nat → nat → nat → RandomState → option (list nat) * RandomState).
Context (opt_step :
           (list (list (list number)) → number → list (list number) →
            list number → exception + number) →
           list (list (list number)) → number → list (list number) →
           list number → Optimizer →
           option (list (list (list number)) * number) * Optimizer).
Implicit Types (X : list (list number)) (Y : list number).
Implicit Types (s : @training A RandomState Optimizer).

Lemma comprehension_inr {B C : Type} (f : B → exception + C) (l : list B)
    (ys : list C) :
  comprehension f l = inr ys → Forall2 (λ a b, f a = inr b) l ys.
Proof.
  revert ys. induction l as [|a l IH]; intros ys; simpl.
  - intros [= <-]. constructor.
  - destruct (f a) as [e|b] eqn:Hb; [done|].
    destruct (comprehension f l) as [e|bs]; [done|].
    intros [= <-]. constructor; [done|]. by apply IH.
Qed.

Lemma accuracy_no_labels predictions :
  accuracy [] predictions = inl ZeroDivisionError.
Proof. unfold accuracy. simpl. apply truediv_by_zero. Qed.

(** One pass of the loop body that ends without an exception appends one
    record to [data]. *)
Lemma iteration_inr X Y it s s' :
  iteration execute np_sign randint opt_step X Y it s = (inr tt, s') →
  ∃ c acc,
    tr_data s' = tr_data s ++ [(it + 1, c, acc)]
    ∧ record_of execute np_sign X Y (it + 1, c, acc)
        (tr_weights s', tr_bias s')
    ∧ step_of execute opt_step X Y (tr_weights s, tr_bias s)
        (tr_weights s', tr_bias s')
    ∧ Y ≠ [].
Proof.
  unfold iteration.
  destruct (randint 0 (length X) batch_size (tr_random s))
    as [[batch_index|] g]; [|done].
  destruct (take_rows X batch_index) as [e|X_batch] eqn:HX; [done|].
  destruct (take_rows Y batch_index) as [e|Y_batch] eqn:HY; [done|].
  destruct (opt_step _ _ _ X_batch Y_batch (tr_opt s))
    as [[[weights bias]|] o] eqn:Hstep; [|done].
  destruct (comprehension _ X) as [e|predictions] eqn:Hps; [done|].
  destruct (accuracy Y predictions) as [e|acc] eqn:Hacc; [done|]. simpl.
  destruct (cost execute weights bias X Y) as [e|c] eqn:Hc; [done|].
  intros [= <-]. simpl. exists c, acc. split; [done|].
  split; [|split].
  - split; [done|]. simpl.
    apply comprehension_inr in Hps.
    assert (∃ outputs,
              Forall2 (λ x v, variational_classifier execute weights bias x
                              = inr v) X outputs
              ∧ predictions = np_sign <$> outputs) as (outputs & Ho & ->).
    { clear -Hps. induction Hps as [|x p X ps Hp _ (outputs & Ho & ->)].
      - exists []. split; [constructor|done].
      - destruct (variational_classifier execute weights bias x) as [e|v]
          eqn:Hv; [done|].
        injection Hp as <-. exists (v :: outputs).
        split; [by constructor|done]. }
    by exists outputs.
  - exists batch_index, X_batch, Y_batch, (tr_opt s).
    simpl. by rewrite Hstep.
  - intros ->. by rewrite accuracy_no_labels in Hacc.
Qed.

Lemma for_iterations_inr X Y its : ∀ s s',
  for_iterations execute np_sign randint opt_step X Y its s = (inr tt, s') →
  ∃ l steps,
    tr_data s' = tr_data s ++ l
    ∧ l.*1.*1 = S <$> its
    ∧ Forall2 (record_of execute np_sign X Y) l steps
    ∧ Forall (λ pn, step_of execute opt_step X Y pn.1 pn.2)
        (zip ((tr_weights s, tr_bias s) :: steps) steps)
    ∧ last ((tr_weights s, tr_bias s) :: steps)
      = Some (tr_weights s', tr_bias s')
    ∧ (its ≠ [] → Y ≠ []).
Proof.
  induction its as [|it its IH]; intros s s' Hrun; simpl in Hrun.
  { injection Hrun as <-. exists [], []. rewrite app_nil_r.
    repeat split; try done; constructor. }
  destruct (iteration execute np_sign randint opt_step X Y it s)
    as [[e|[]] s1] eqn:Hit; [done|].
  destruct (iteration_inr _ _ _ _ _ Hit) as (c & acc & Hdata & Hrec & Hstep & Hne).
  destruct (IH s1 s' Hrun) as (l & steps & Hl & Hits & Hrecs & Hsteps & Hlast & _).
  exists ((S it, c, acc) :: l), ((tr_weights s1, tr_bias s1) :: steps).
  rewrite Hl, Hdata, <- app_assoc.
  replace (it + 1) with (S it) in * by lia.
  split; [done|]. split; [by rewrite !fmap_cons, Hits|].
  split; [by constructor|]. split; [|split; [|done]].
  - by constructor.
  - by rewrite last_cons_cons.
Qed.


(** A pass that raises leaves [data] as it was. *)
Lemma iteration_inl X Y it s e s' :
  iteration execute np_sign randint opt_step X Y it s = (inl e, s') →
  tr_data s' = tr_data s.
Proof.
  unfold iteration.
  destruct (randint 0 (length X) batch_size (tr_random s))
    as [[batch_index|] g]; [|by intros [= <- <-]].
  destruct (take_rows X batch_index) as [e1|X_batch]; [by intros [= <- <-]|].
  destruct (take_rows Y batch_index) as [e1|Y_batch]; [by intros [= <- <-]|].
  destruct (opt_step _ _ _ X_batch Y_batch (tr_opt s))
    as [[[weights bias]|] o]; [|by intros [= <- <-]].
  destruct (comprehension _ X) as [e1|predictions]; [by intros [= <- <-]|].
  destruct (lift (accuracy Y predictions)) as [e1|acc]; [by intros [= <- <-]|].
  destruct (cost execute weights bias X Y) as [e1|c]; [by intros [= <- <-]|].
  done.
Qed.

Lemma for_iterations_inl X Y its : ∀ s e s',
  for_iterations execute np_sign randint opt_step X Y its s = (inl e, s') →
  ∃ l steps,
    tr_data s' = tr_data s ++ l
    ∧ l.*1.*1 = S <$> take (length l) its
    ∧ length l < length its
    ∧ Forall2 (record_of execute np_sign X Y) l steps
    ∧ Forall (λ pn, step_of execute opt_step X Y pn.1 pn.2)
        (zip ((tr_weights s, tr_bias s) :: steps) steps).
Proof.
  induction its as [|it its IH]; intros s e s' Hrun; simpl in Hrun; [done|].
  destruct (iteration execute np_sign randint opt_step X Y it s)
    as [[e1|[]] s1] eqn:Hit.
  - injection Hrun as <- <-. exists [], [].
    rewrite app_nil_r, (iteration_inl _ _ _ _ _ _ Hit). simpl.
    split; [done|]. split; [done|]. split; [lia|]. split; constructor.
  - destruct (iteration_inr _ _ _ _ _ Hit)
      as (c & acc & Hdata & Hrec & Hstep & Hne).
    destruct (IH s1 e s' Hrun) as (l & steps & Hl & Hits & Hlen & Hrecs & Hsteps).
    exists ((S it, c, acc) :: l), ((tr_weights s1, tr_bias s1) :: steps).
    rewrite Hl, Hdata, <- app_assoc.
    replace (it + 1) with (S it) in * by lia.
    split; [done|]. split; [rewrite !fmap_cons; simpl; by rewrite Hits|].
    split; [simpl; lia|]. split; by constructor.
Qed.

(** X14: the training cell appends one record per completed pass of its
    loop, numbered from 1: the cost on all of [X] and [Y] and the
    accuracy of the signs of the classifier's outputs, both at the weights
    and bias the pass's [opt.step] returned from those of the pass before
    on a batch of rows of [X] and [Y] taken at the same indices.  A
    complete run leaves 25 records, the weights of the last step, needs
    at least one label, and [zip( *data )] unpacks; a run that raises
    leaves fewer than 25 records, and unpacking no record raises
    [ValueError]. *)
Theorem training_log weights_init bias_init X Y g o :
  let run := training_cell execute np_sign randint opt_step weights_init
               bias_init X Y g o in
  let data := tr_data run.2 in
  ∃ steps,
    data.*1.*1 = seq 1 (length data)
    ∧ Forall2 (record_of execute np_sign X Y) data steps
    ∧ Forall (λ pn, step_of execute opt_step X Y pn.1 pn.2)
        (zip ((weights_init, bias_init) :: steps) steps)
    ∧ match run.1 with
      | inr _ =>
          length data = 25
          ∧ last steps = Some (tr_weights run.2, tr_bias run.2)
          ∧ Y ≠ []
          ∧ unzip3 data = inr (seq 1 25, data.*1.*2, data.*2)
      | inl _ =>
          length data < 25
          ∧ (data = [] → unzip3 data = inl (Raised ValueError))
      end.
Proof.
  intros run data. subst data run. unfold training_cell.
  destruct (for_iterations _ _ _ _ X Y (seq 0 25) _) as [[e|[]] s'] eqn:Hrun.
  - destruct (for_iterations_inl _ _ _ _ _ _ Hrun)
      as (l & steps & Hl & Hits & Hlen & Hrecs & Hsteps).
    simpl in Hl, Hsteps. cbn [fst snd]. rewrite Hl.
    rewrite length_seq in Hlen.
    exists steps. split; [|split; [done|split; [done|]]].
    + rewrite Hits, take_seq, fmap_S_seq. f_equal. lia.
    + split; [done|]. by intros ->.
  - destruct (for_iterations_inr _ _ _ _ _ Hrun)
      as (l & steps & Hl & Hits & Hrecs & Hsteps & Hlast & Hne).
    simpl in Hl, Hsteps, Hlast. cbn [fst snd]. rewrite Hl.
    rewrite fmap_S_seq in Hits.
    assert (length l = 25) as Hlen.
    { rewrite <- (length_fmap fst), <- (length_fmap fst), Hits.
      by rewrite length_seq. }
    exists steps. split; [by rewrite Hits, Hlen|].
    split; [done|]. split; [done|]. split; [done|]. split; [|split].
    + destruct steps as [|wb steps]; [|by rewrite last_cons_cons in Hlast].
      apply Forall2_length in Hrecs. simpl in Hrecs. lia.
    + by apply Hne.
    + unfold unzip3. rewrite Hits. by destruct l.
Qed.

End TrainingFacts.

Section PythonExamples.
Import PennyLane.

(** Three labels and two predictions: the sum of two squares, [4], over
    three labels, rounded to a double. *)
Example square_loss_rounds :
  @square_loss cpython [Int 1; Int (-1); Int 1] [Int 1; Int 1]
  = inr (Float 0x1.5555555555555p+0).
Proof. vm_compute. reflexivity. Qed.

(** [(1e200 - (-1e200)) ** 2] is out of range. *)
Example square_loss_overflows :
  @square_loss cpython [Float 0x1.4e718d7d7625ap+664]
                       [Float (-0x1.4e718d7d7625ap+664)]
  = inl OverflowError.
Proof. vm_compute. reflexivity. Qed.

Example square_loss_no_labels :
  @square_loss cpython [] [Float 1] = inl ZeroDivisionError.
Proof. vm_compute. reflexivity. Qed.

(** The literal [1e-5] is the double above [1/100000] ... *)
Example tolerance_double :
  Prim2SF 0x1.4f8b588e368f1p-17 = S754_finite false 5902958103587057 (-69)
  ∧ (100000 * 5902958103587057 > 2 ^ 69)%Z.
Proof. split; [vm_compute; reflexivity|lia]. Qed.

(** ... and the test is made on the rounded difference: for this label
    [l] and prediction [p] the exact [l - p] is below [1/100000], the
    computed one is the double [1e-5], and the label counts as unmatched. *)
Example accuracy_boundary :
  Prim2SF 0x1.4f8b588e368f0p-17 = S754_finite false 5902958103587056 (-69)
  ∧ Prim2SF (-0x1.03eb46f0c8fcfp-70)
    = S754_finite true 4572544305500111 (-122)
  ∧ (100000 * (5902958103587056 * 2 ^ 53 + 4572544305500111) < 2 ^ 122)%Z
  ∧ @accuracy cpython [Float 0x1.4f8b588e368f0p-17]
                      [Float (-0x1.03eb46f0c8fcfp-70)]
    = inr (Float 0).
Proof. repeat split; vm_compute; reflexivity. Qed.

Example accuracy_two_thirds :
  @accuracy cpython [Float 1; Float (-1); Float 1]
                    [Float 1; Float (-1); Float (-1)]
  = inr (Float 0x1.5555555555555p-1).
Proof. vm_compute. reflexivity. Qed.

End PythonExamples.

Section ClassifierExamples.
Import PennyLane Classifier.

Let basis := @BasisState cpython.
Let rot := @Rot cpython.
Let cnot := @CNOT cpython.

(** The tape of two layers of weights. *)
Example circuit_tape_two_layers :
  @circuit_tape cpython
    [[[Int 1; Int 2; Int 3]; [Int 4; Int 5; Int 6];
      [Int 7; Int 8; Int 9]; [Int 10; Int 11; Int 12]];
     [[Int 13; Int 14; Int 15]; [Int 16; Int 17; Int 18];
      [Int 19; Int 20; Int 21]; [Int 22; Int 23; Int 24]]]
    [Int 0; Int 0; Int 0; Int 1]
  = Some [basis [Int 0; Int 0; Int 0; Int 1] [0; 1; 2; 3];
          rot (Int 1) (Int 2) (Int 3) 0; rot (Int 4) (Int 5) (Int 6) 1;
          rot (Int 7) (Int 8) (Int 9) 2; rot (Int 10) (Int 11) (Int 12) 3;
          cnot (0, 1); cnot (1, 2); cnot (2, 3); cnot (3, 0);
          rot (Int 13) (Int 14) (Int 15) 0; rot (Int 16) (Int 17) (Int 18) 1;
          rot (Int 19) (Int 20) (Int 21) 2; rot (Int 22) (Int 23) (Int 24) 3;
          cnot (0, 1); cnot (1, 2); cnot (2, 3); cnot (3, 0)].
Proof. reflexivity. Qed.

(** A layer of three rows: the fourth rotation raises after three were
    queued. *)
Example layer_three_rows :
  @layer cpython [[Int 1; Int 2; Int 3]; [Int 4; Int 5; Int 6];
                  [Int 7; Int 8; Int 9]] []
  = (inl (Raised IndexError),
     [rot (Int 1) (Int 2) (Int 3) 0; rot (Int 4) (Int 5) (Int 6) 1;
      rot (Int 7) (Int 8) (Int 9) 2]).
Proof. reflexivity. Qed.

(** Two samples, one label: both are classified, one enters the loss. *)
Example cost_one_label :
  @cost cpython (λ _ _, Some (Float 0.5)) [] (Float 0.25)
    [[Int 0; Int 0; Int 0; Int 1]; [Int 0; Int 0; Int 1; Int 1]] [Float 1]
  = inr (Float 0.0625).
Proof. vm_compute. reflexivity. Qed.

End ClassifierExamples.

Section PythonRuns.
Import PennyLane.

Lemma square_loss_spec_witness :
  @square_loss cpython [Int 1; Float (-1); Int 1] [Float 1; Int 1]
  = (s ← @sum_squared_errors cpython 2
           [Int 1; Float (-1); Int 1] [Float 1; Int 1];
     @py_truediv cpython s (Int 3))
  ∧ @square_loss cpython [Int 1; Float (-1); Int 1] [Float 1; Int 1]
    = inr (Float 0x1.5555555555555p+0).
Proof.
  split.
  - exact (proj1 (@square_loss_spec cpython
                    [Int 1; Float (-1); Int 1] [Float 1; Int 1])).
  - vm_compute. reflexivity.
Defined.

Lemma accuracy_spec_witness :
  ∃ r, @accuracy cpython [Float 1; Float (-1); Int 1]
                         [Float 1; Int (-1); Float 1; Float 5] = inr r
       ∧ @py_le cpython (Int 0) r = inr true
       ∧ @py_le cpython r (Int 1) = inr true
       ∧ (@py_eq cpython r (Int 1) = inr true
          ↔ @all_matched cpython [Float 1; Float (-1); Int 1]
                                 [Float 1; Int (-1); Float 1; Float 5]).
Proof.
  pose proof (@accuracy_spec cpython (2 ^ 53)
                (python_unit_quotients pow_rounded)
                [Float 1; Float (-1); Int 1]
                [Float 1; Int (-1); Float 1; Float 5]) as H.
  change (@tests cpython
            (zip [Float 1; Float (-1); Int 1]
                 [Float 1; Int (-1); Float 1; Float 5]))
    with (@inr error _ [true; true; true]) in H.
  destruct H as (_ & _ & _ & _ & H).
  apply H; [done|]. unfold len. simpl. lia.
Defined.

End PythonRuns.

(** ** Runs on the reference vendor *)

Section Runs.
Import Cudaq Sim.

Lemma ideal_never_raises : @never_raises ideal.
Proof. repeat split; intros; simpl; eauto. Qed.

(** C5, as stated, fails on the notebook.  On a runtime that accepts
    every call the notebook runs to its end; in the state it reaches the
    parameter array is [(500, 10)] with [n_qubits = 10], not
    [(n_samples, 3*n_qubits)], and the second asynchronous cell has
    dispatched vectors of 60 entries with a kernel of 30 parameters. *)
Lemma notebook_breaks_shape_consistency :
  completed ideal_run.1 = true
  ∧ ¬ @array_shape_is ideal ideal_run.2 (λ nq, 3 * nq)
  ∧ ¬ @dispatch_consistent ideal (@trace ideal ideal_run.2)
  ∧ ¬ @shape_consistency ideal ideal_run.2.
Proof.
  destruct (@notebook_completes ideal (@fresh ideal 0) ideal_never_raises)
    as [s' Hrun].
  unfold ideal_run. rewrite Hrun.
  destruct (@notebook_breaks_shape ideal _ _ Hrun) as [Ha Hd].
  split; [done|]. split; [done|]. split; [done|].
  intros [H _]. by apply Ha.
Qed.

(** *** The theorems at concrete inputs *)

Lemma split_concatenate_roundtrip_witness :
  4 ≠ 0 ∧ length sim_parameters mod 4 = 0
  ∧ ∃ xi, Numpy.split sim_parameters 4 = inr xi
          ∧ Numpy.concatenate xi = sim_parameters.
Proof.
  assert (4 ≠ 0) as H4 by lia.
  assert (length sim_parameters mod 4 = 0) as Hm by (vm_compute; reflexivity).
  split; [exact H4|]. split; [exact Hm|].
  exact (split_concatenate_roundtrip sim_parameters 4 H4 Hm).
Defined.

Lemma split_equal_division_witness :
  4 ≠ 0 ∧ Numpy.has_shape sim_parameters 1000 60
  ∧ (1000 mod 4 ≠ 0 → Numpy.split sim_parameters 4 = inl Numpy.ValueError)
  ∧ (1000 mod 4 = 0 →
     ∃ xi, Numpy.split sim_parameters 4 = inr xi ∧ length xi = 4
           ∧ Forall (λ b, Numpy.has_shape b (1000 / 4) 60) xi)
  ∧ (4 = 4 → 1000 = 1000 →
     ∃ xi, Numpy.split sim_parameters 4 = inr xi ∧ length xi = 4
           ∧ Forall (λ b, Numpy.has_shape b 250 60) xi).
Proof.
  assert (4 ≠ 0) as H4 by lia.
  assert (Numpy.has_shape sim_parameters 1000 60) as Hshape.
  { apply (bool_decide_eq_true_1 (Numpy.has_shape sim_parameters 1000 60)).
    vm_compute. reflexivity. }
  split; [exact H4|]. split; [exact Hshape|].
  exact (split_equal_division sim_parameters 4 1000 60 H4 Hshape).
Defined.

Lemma run_eta {A : Type} (c : Py A) (s : state) : c s = ((c s).1, (c s).2).
Proof. by destruct (c s). Qed.

Lemma completed_eta (c : Py unit) (s : state) :
  completed (c s).1 = true → c s = (inr tt, (c s).2).
Proof. destruct (c s) as [[e|[]] s']; [done|]. done. Qed.

Lemma demo_submit_env n :
  submit_env (demo_state n) (build_rx_kernel 2) (spin_z 0) demo_xi.
Proof. split; [|split]; reflexivity. Defined.

Lemma demo_async_completes :
  cell_async (demo_state 2) = (inr tt, (demo_async 2).2).
Proof. apply completed_eta. vm_compute. reflexivity. Defined.

Lemma async_counts_witness :
  submit_env (demo_state 2) (build_rx_kernel 2) (spin_z 0) demo_xi
  ∧ cell_async (demo_state 2) = (inr tt, (demo_async 2).2)
  ∧ ∃ hs vs,
      globals (demo_async 2).2 !! "asyncresults" = Some (VHandles hs)
      ∧ globals (demo_async 2).2 !! "expvals" = Some (VFloats vs)
      ∧ length vs = length hs
      ∧ length hs = sum_list (length <$> demo_xi).
Proof.
  split; [exact (demo_submit_env 2)|]. split; [exact demo_async_completes|].
  exact (async_counts (demo_state 2) (build_rx_kernel 2) (spin_z 0) demo_xi
           (demo_async 2).2 (demo_submit_env 2) demo_async_completes).
Defined.

Lemma async_submission_order_witness :
  submit_env (demo_state 2) (build_rx_kernel 2) (spin_z 0) demo_xi
  ∧ cell_async (demo_state 2) = (inr tt, (demo_async 2).2)
  ∧ ∃ hs vs l,
      globals (demo_async 2).2 !! "asyncresults" = Some (VHandles hs)
      ∧ globals (demo_async 2).2 !! "expvals" = Some (VFloats vs)
      ∧ l.*1.*1 = hs ∧ l.*2 = vs
      ∧ trace (demo_async 2).2
        = trace (demo_state 2)
            ++ ok_dispatches (build_rx_kernel 2) (spin_z 0) (jobs demo_xi) hs
            ++ resolve_events l
      ∧ handles_of
          (ok_dispatches (build_rx_kernel 2) (spin_z 0) (jobs demo_xi) hs
             ++ resolve_events l) = hs
      ∧ blocked_on
          (ok_dispatches (build_rx_kernel 2) (spin_z 0) (jobs demo_xi) hs
             ++ resolve_events l) = hs
      ∧ ∀ n res, hs !! n = Some res →
          ∃ j r v,
            jobs demo_xi !! n = Some j ∧ vs !! n = Some v
            ∧ trace (demo_async 2).2 !! (length (trace (demo_state 2)) + n)
              = Some (ok_dispatch (build_rx_kernel 2) (spin_z 0) j res)
            ∧ trace (demo_async 2).2
              !! (length (trace (demo_state 2)) + length hs + 2 * n)
              = Some (EvGet res (inr r))
            ∧ trace (demo_async 2).2
              !! (length (trace (demo_state 2)) + length hs + 2 * n + 1)
              = Some (EvExpectationZ r (inr v)).
Proof.
  split; [exact (demo_submit_env 2)|]. split; [exact demo_async_completes|].
  exact (async_submission_order (demo_state 2) (build_rx_kernel 2) (spin_z 0)
           demo_xi (demo_async 2).2 (demo_submit_env 2) demo_async_completes).
Defined.

Lemma demo_asyncresults n :
  globals (demo_state n) !! "asyncresults" = Some (VHandles []).
Proof. reflexivity. Defined.

Lemma demo_submit_completes :
  submit_loop (demo_state 2) = (inr tt, (submit_loop (demo_state 2)).2).
Proof. apply completed_eta. vm_compute. reflexivity. Defined.

Lemma submit_loop_devices_witness :
  submit_env (demo_state 2) (build_rx_kernel 2) (spin_z 0) demo_xi
  ∧ globals (demo_state 2) !! "asyncresults" = Some (VHandles [])
  ∧ submit_loop (demo_state 2) = (inr tt, (submit_loop (demo_state 2)).2)
  ∧ ∃ evs,
      trace (submit_loop (demo_state 2)).2 = trace (demo_state 2) ++ evs
      ∧ jobs_of evs = jobs demo_xi
      ∧ (∀ i b j row, demo_xi !! i = Some b → b !! j = Some row →
           jobs_of evs !! (sum_list (length <$> take i demo_xi) + j)
           = Some (row, i))
      ∧ (∀ row q, (row, q) ∈ jobs_of evs →
           ∃ b, demo_xi !! q = Some b ∧ row ∈ b)
      ∧ (Forall (λ b, b ≠ []) demo_xi →
           list_to_set (jobs_of evs).*2
           = (set_seq 0 (length demo_xi) : gset nat))
      ∧ (∀ parameters sections,
           Numpy.split parameters sections = inr demo_xi → parameters ≠ [] →
           list_to_set (jobs_of evs).*2
           = (set_seq 0 (length demo_xi) : gset nat)).
Proof.
  split; [exact (demo_submit_env 2)|]. split; [exact (demo_asyncresults 2)|].
  split; [exact demo_submit_completes|].
  exact (submit_loop_devices (demo_state 2) (build_rx_kernel 2) (spin_z 0)
           demo_xi [] (submit_loop (demo_state 2)).2 (demo_submit_env 2)
           (demo_asyncresults 2) demo_submit_completes).
Defined.

(** On a machine with one device the first dispatch to device 1 raises. *)
Lemma demo_async_raises :
  (completed (demo_async 1).1,
   (jobs_of (trace (demo_async 1).2)).*2,
   failed <$> trace (demo_async 1).2,
   handles_of (trace (demo_async 1).2))
  = (false, [0; 0; 1], [false; false; true], [0; 1]).
Proof. vm_compute. reflexivity. Qed.

Lemma async_exception_propagates_witness :
  submit_env (demo_state 1) (build_rx_kernel 2) (spin_z 0) demo_xi
  ∧ cell_async (demo_state 1) = ((demo_async 1).1, (demo_async 1).2)
  ∧ ∃ evs,
      trace (demo_async 1).2 = trace (demo_state 1) ++ evs
      ∧ match (demo_async 1).1 with
        | inr _ => Forall (λ ev, failed ev = false) evs
        | inl e =>
            ∃ e0, e = LibraryError e0
            ∧ ((∃ done j rest hs,
                  jobs demo_xi = done ++ j :: rest ∧ length hs = length done
                  ∧ evs = ok_dispatches (build_rx_kernel 2) (spin_z 0) done hs
                            ++ [EvObserveAsync (build_rx_kernel 2) (spin_z 0)
                                  j.1 j.2 (inl e0)]
                  ∧ globals (demo_async 1).2
                    = <["asyncresults" := VHandles hs]>
                        (globals (demo_state 1)))
               ∨ (∃ hs l res rest,
                    length hs = length (jobs demo_xi)
                    ∧ hs = l.*1.*1 ++ res :: rest
                    ∧ (evs = ok_dispatches (build_rx_kernel 2) (spin_z 0)
                               (jobs demo_xi) hs
                               ++ resolve_events l ++ [EvGet res (inl e0)]
                       ∨ ∃ r0,
                           evs = ok_dispatches (build_rx_kernel 2) (spin_z 0)
                                   (jobs demo_xi) hs
                                   ++ resolve_events l
                                   ++ [EvGet res (inr r0);
                                       EvExpectationZ r0 (inl e0)])
                    ∧ globals (demo_async 1).2
                      = <["expvals" := VFloats l.*2]>
                          (<["asyncresults" := VHandles hs]>
                             (globals (demo_state 1)))))
        end.
Proof.
  split; [exact (demo_submit_env 1)|].
  split; [exact (run_eta cell_async (demo_state 1))|].
  exact (async_exception_propagates (demo_state 1) (build_rx_kernel 2)
           (spin_z 0) demo_xi (demo_async 1).1 (demo_async 1).2
           (demo_submit_env 1) (run_eta cell_async (demo_state 1))).
Defined.

End Runs.

(** ** Runs of the dispatch statements *)

Section DispatchRuns.
Import Cudaq Sim.

Lemma raised_eta `{V : Vendor} (c : Py unit) (s : state) e0 :
  error_of (c s).1 = Some e0 → c s = (inl (LibraryError e0), (c s).2).
Proof.
  destruct (c s) as [[e|[]] s']; simpl; [destruct e|]; try done.
  by intros [= ->].
Qed.

Lemma completed_unit_eta `{V : Vendor} (c : Py unit) (s : state) :
  completed (c s).1 = true → c s = (inr tt, (c s).2).
Proof. destruct (c s) as [[e|[]] s']; [done|]. done. Qed.

Lemma demo_rows_env n kname :
  kname = "kernel" ∨ kname = "kernel1" ∨ kname = "kernel2" →
  dispatch_env kname (globals (demo_rows n)) (build_rx_kernel 2) (spin_z 0)
    demo_parameters.
Proof. intros [->|[->| ->]]; repeat split; reflexivity. Qed.

Lemma metered_rows_env n :
  @dispatch_env metered "kernel" (@globals metered (metered_rows n))
    (build_rx_kernel 2) (spin_z 0) demo_parameters.
Proof. split; [|split]; reflexivity. Qed.

Lemma demo_observe_completes :
  observe_statement (demo_rows 1)
  = (inr tt, (observe_statement (demo_rows 1)).2).
Proof. apply completed_unit_eta. vm_compute. reflexivity. Qed.

Lemma observe_statement_completes_witness :
  dispatch_env "kernel" (globals (demo_rows 1)) (build_rx_kernel 2) (spin_z 0)
    demo_parameters
  ∧ observe_statement (demo_rows 1)
    = (inr tt, (observe_statement (demo_rows 1)).2)
  ∧ ∃ rs,
      globals (observe_statement (demo_rows 1)).2
      = <["exp_vals" := VResults rs]> (globals (demo_rows 1))
      ∧ length rs = length demo_parameters
      ∧ trace (observe_statement (demo_rows 1)).2
        = trace (demo_rows 1)
            ++ ok_observes (build_rx_kernel 2) (spin_z 0) demo_parameters rs
      ∧ ∀ i row, demo_parameters !! i = Some row →
          ∃ r, rs !! i = Some r
               ∧ trace (observe_statement (demo_rows 1)).2
                 !! (length (trace (demo_rows 1)) + i)
                 = Some (EvObserve (build_rx_kernel 2) (spin_z 0) row (inr r)).
Proof.
  split; [exact (demo_rows_env 1 "kernel" (or_introl eq_refl))|].
  split; [exact demo_observe_completes|].
  exact (observe_statement_completes (demo_rows 1) (build_rx_kernel 2)
           (spin_z 0) demo_parameters _
           (demo_rows_env 1 "kernel" (or_introl eq_refl))
           demo_observe_completes).
Defined.

Lemma metered_observe_raises :
  @observe_statement metered (metered_rows 2)
  = (inl (@LibraryError metered QuotaExceeded),
     (@observe_statement metered (metered_rows 2)).2).
Proof. apply (@raised_eta metered). vm_compute. reflexivity. Qed.

Lemma observe_statement_raises_witness :
  @dispatch_env metered "kernel" (@globals metered (metered_rows 2))
    (build_rx_kernel 2) (spin_z 0) demo_parameters
  ∧ @observe_statement metered (metered_rows 2)
    = (inl (@LibraryError metered QuotaExceeded),
       (@observe_statement metered (metered_rows 2)).2)
  ∧ ∃ e0 rs row,
      @LibraryError metered QuotaExceeded = @LibraryError metered e0
      ∧ demo_parameters !! length rs = Some row
      ∧ @trace metered (@observe_statement metered (metered_rows 2)).2
        = @trace metered (metered_rows 2)
            ++ @ok_observes metered (build_rx_kernel 2) (spin_z 0)
                 demo_parameters rs
            ++ [@EvObserve metered (build_rx_kernel 2) (spin_z 0) row (inl e0)]
      ∧ @globals metered (@observe_statement metered (metered_rows 2)).2
        = @globals metered (metered_rows 2).
Proof.
  split; [exact (metered_rows_env 2)|].
  split; [exact metered_observe_raises|].
  exact (@observe_statement_raises metered (metered_rows 2)
           (build_rx_kernel 2) (spin_z 0) demo_parameters _ _
           (metered_rows_env 2) metered_observe_raises).
Defined.

Lemma demo_two_kernels_completes :
  cell_two_kernels (demo_rows 2)
  = (inr tt, (cell_two_kernels (demo_rows 2)).2).
Proof. apply completed_unit_eta. vm_compute. reflexivity. Qed.

Lemma two_kernels_dispatch_witness :
  dispatch_env "kernel1" (globals (demo_rows 2)) (build_rx_kernel 2)
    (spin_z 0) demo_parameters
  ∧ dispatch_env "kernel2" (globals (demo_rows 2)) (build_rx_kernel 2)
      (spin_z 0) demo_parameters
  ∧ cell_two_kernels (demo_rows 2)
    = (inr tt, (cell_two_kernels (demo_rows 2)).2)
  ∧ ∃ hs1 hs2 evs,
      globals (cell_two_kernels (demo_rows 2)).2
      = <["exp_vals2" := VHandles hs2]>
          (<["exp_vals1" := VHandles hs1]> (globals (demo_rows 2)))
      ∧ length hs1 = length demo_parameters
      ∧ length hs2 = length demo_parameters
      ∧ trace (cell_two_kernels (demo_rows 2)).2
        = trace (demo_rows 2) ++ evs
      ∧ evs = ok_dispatches (build_rx_kernel 2) (spin_z 0)
                (jobs_on 0 demo_parameters) hs1
              ++ ok_dispatches (build_rx_kernel 2) (spin_z 0)
                   (jobs_on 1 demo_parameters) hs2
      ∧ jobs_of evs = jobs_on 0 demo_parameters ++ jobs_on 1 demo_parameters
      ∧ handles_of evs = hs1 ++ hs2
      ∧ blocked_on evs = []
      ∧ values_of evs = [].
Proof.
  split; [exact (demo_rows_env 2 "kernel1" (or_intror (or_introl eq_refl)))|].
  split; [exact (demo_rows_env 2 "kernel2" (or_intror (or_intror eq_refl)))|].
  split; [exact demo_two_kernels_completes|].
  exact (two_kernels_dispatch (demo_rows 2) (build_rx_kernel 2)
           (build_rx_kernel 2) (spin_z 0) demo_parameters _
           (demo_rows_env 2 "kernel1" (or_intror (or_introl eq_refl)))
           (demo_rows_env 2 "kernel2" (or_intror (or_intror eq_refl)))
           demo_two_kernels_completes).
Defined.

(** On a machine with one device the dispatches of [kernel1] to device 0
    succeed and the first dispatch of [kernel2] to device 1 raises. *)
Lemma demo_two_kernels_raises :
  cell_two_kernels (demo_rows 1)
  = (inl (LibraryError (InvalidQpu 1)), (cell_two_kernels (demo_rows 1)).2).
Proof. apply raised_eta. vm_compute. reflexivity. Qed.

Lemma two_kernels_raises_witness :
  dispatch_env "kernel1" (globals (demo_rows 1)) (build_rx_kernel 2)
    (spin_z 0) demo_parameters
  ∧ dispatch_env "kernel2" (globals (demo_rows 1)) (build_rx_kernel 2)
      (spin_z 0) demo_parameters
  ∧ cell_two_kernels (demo_rows 1)
    = (inl (LibraryError (InvalidQpu 1)), (cell_two_kernels (demo_rows 1)).2)
  ∧ ∃ e0 hs row,
      LibraryError (InvalidQpu 1) = LibraryError e0
      ∧ demo_parameters !! length hs = Some row
      ∧ ((globals (cell_two_kernels (demo_rows 1)).2 = globals (demo_rows 1)
          ∧ trace (cell_two_kernels (demo_rows 1)).2
            = trace (demo_rows 1)
                ++ ok_dispatches (build_rx_kernel 2) (spin_z 0)
                     (jobs_on 0 demo_parameters) hs
                ++ [EvObserveAsync (build_rx_kernel 2) (spin_z 0) row 0
                      (inl e0)])
         ∨ (∃ hs1,
              length hs1 = length demo_parameters
              ∧ globals (cell_two_kernels (demo_rows 1)).2
                = <["exp_vals1" := VHandles hs1]> (globals (demo_rows 1))
              ∧ trace (cell_two_kernels (demo_rows 1)).2
                = trace (demo_rows 1)
                    ++ ok_dispatches (build_rx_kernel 2) (spin_z 0)
                         (jobs_on 0 demo_parameters) hs1
                    ++ ok_dispatches (build_rx_kernel 2) (spin_z 0)
                         (jobs_on 1 demo_parameters) hs
                    ++ [EvObserveAsync (build_rx_kernel 2) (spin_z 0) row 1
                          (inl e0)])).
Proof.
  split; [exact (demo_rows_env 1 "kernel1" (or_intror (or_introl eq_refl)))|].
  split; [exact (demo_rows_env 1 "kernel2" (or_intror (or_intror eq_refl)))|].
  split; [exact demo_two_kernels_raises|].
  exact (two_kernels_raises (demo_rows 1) (build_rx_kernel 2)
           (build_rx_kernel 2) (spin_z 0) demo_parameters _ _
           (demo_rows_env 1 "kernel1" (or_intror (or_introl eq_refl)))
           (demo_rows_env 1 "kernel2" (or_intror (or_intror eq_refl)))
           demo_two_kernels_raises).
Defined.

End DispatchRuns.
